(** * Shallow embedding of the personal-budget-app request pipeline

    The development follows the TypeScript sources:
    - [lib/security.ts]       : [sanitizeString], [sanitizeObject]
    - [lib/error-handler.ts]  : [ErrorType], [AppError], [createError],
                                [handleApiError], [withErrorHandling]
    - [middleware.ts]         : the in-memory rate limiter
    - [lib/db.ts]             : the cached connection ([dbConnect])
    - models ([UserGroup], [ProfileTransaction], [ProfileBudget]) and
      mongoose itself are not among the sources; what the handlers use of
      them is the interface [Mongoose] and the records of module [Db]
    - [app/api/profiles/route.ts], [app/api/profiles/[id]/route.ts]
                              : the GET / POST / PUT / DELETE handlers. *)

From Stdlib Require Import ZArith NArith List Ascii String DecimalString Lia.
From Stdlib Require Import PrimFloat.
From stdpp Require Import gmap fin_maps.
Import ListNotations.

#[local] Set Warnings "-register-all".
Local Open Scope Z_scope.

(** ** JavaScript values *)

Module JS.

(** A JavaScript string is a sequence of UTF-16 code units. *)
Abbreviation code_unit := N (only parsing).
Abbreviation jsstring := (list N) (only parsing).

(** ASCII literals, so that the constants of the source stay readable. *)
Definition lit (s : string) : jsstring :=
  List.map N_of_ascii (list_ascii_of_string s).

(** JSON-like data as the handlers see it after [request.json()] or zod
    parsing.  An object is the list of its own enumerable properties in
    the order [Object.entries] reports them; the keys of one object are
    pairwise distinct; [__proto__] can be one of them ([JSON.parse]
    creates it as an own property).  Numbers are IEEE 754 doubles. *)
Inductive value : Type :=
| VUndefined
| VNull
| VBool (b : bool)
| VNum (x : float)
| VStr (s : jsstring)
| VArr (items : list value)
| VObj (fields : list (jsstring * value)).

Definition VLit (s : string) : value := VStr (lit s).

(** [Number.prototype.toString] on an integral number. *)
Definition Z_toString (z : Z) : jsstring :=
  lit (NilZero.string_of_int (Z.to_int z)).

(** The property key of array index [i]. *)
Definition index_key (i : nat) : jsstring :=
  lit (NilZero.string_of_uint (Nat.to_uint i)).

Fixpoint index_from {A} (i : nat) (l : list A) : list (jsstring * A) :=
  match l with
  | [] => []
  | x :: l' => (index_key i, x) :: index_from (S i) l'
  end.

(** [Object.entries] on a value whose [typeof] is ['object']: the fields
    of an object, the indexed items of an array. *)
Definition Object_entries (v : value) : list (jsstring * value) :=
  match v with
  | VObj fields => fields
  | VArr items => index_from 0 items
  | _ => []
  end.

Definition key_eqb (a b : jsstring) : bool :=
  bool_decide (a = b).

Fixpoint assoc {A} (k : jsstring) (l : list (jsstring * A)) : option A :=
  match l with
  | [] => None
  | (k', v) :: l' => if key_eqb k' k then Some v else assoc k l'
  end.

(** [v[k]] restricted to own enumerable properties; [None] is a missing
    property. *)
Definition get_prop (v : value) (k : jsstring) : option value :=
  assoc k (Object_entries v).

Fixpoint get_path (v : value) (p : list jsstring) : option value :=
  match p with
  | [] => Some v
  | k :: p' =>
      match get_prop v k with
      | Some w => get_path w p'
      | None => None
      end
  end.

(** Truthiness ([ToBoolean]). *)
Definition truthy (v : value) : bool :=
  match v with
  | VUndefined | VNull => false
  | VBool b => b
  | VNum x => negb (PrimFloat.eqb x 0%float || PrimFloat.is_nan x)
  | VStr s => match s with [] => false | _ => true end
  | VArr _ | VObj _ => true
  end.

(** White space and line terminators, the code units that
    [String.prototype.trim] strips. *)
Definition is_ws (c : code_unit) : bool :=
  ((9 <=? c) && (c <=? 13) || (c =? 32) || (c =? 160) || (c =? 5760)
   || (8192 <=? c) && (c <=? 8202) || (c =? 8232) || (c =? 8233)
   || (c =? 8239) || (c =? 8287) || (c =? 12288) || (c =? 65279))%N.

Fixpoint trimStart (s : jsstring) : jsstring :=
  match s with
  | [] => []
  | c :: s' => if is_ws c then trimStart s' else s
  end.

Definition trimEnd (s : jsstring) : jsstring := rev (trimStart (rev s)).

Definition trim (s : jsstring) : jsstring := trimEnd (trimStart s).

(** A string without leading or trailing white space. *)
Definition trimmed (s : jsstring) : bool :=
  match s with
  | [] => true
  | c :: _ => negb (is_ws c) && negb (is_ws (List.last s 0%N))
  end.

(** [s.replace(/c/g, r)] for a one-character pattern [c]; none of the
    replacement texts used in the sources contains a [$] pattern. *)
Definition replace_all (c : code_unit) (r : jsstring) (s : jsstring) : jsstring :=
  flat_map (fun x => if (x =? c)%N then r else [x]) s.

Fixpoint startsWith (s p : jsstring) {struct p} : bool :=
  match p, s with
  | [], _ => true
  | _ :: _, [] => false
  | a :: p', b :: s' => (a =? b)%N && startsWith s' p'
  end.

End JS.

Import JS.

(** ** lib/security.ts *)

Module Security.

Definition LT : code_unit := 60%N.
Definition GT : code_unit := 62%N.
Definition AMP : code_unit := 38%N.
Definition QUOT : code_unit := 34%N.
Definition APOS : code_unit := 39%N.
Definition SLASH : code_unit := 47%N.

Definition sanitizeString (input : jsstring) : jsstring :=
  match input with
  | [] => []
  | _ =>
      trim
        (replace_all SLASH (lit "&#x2F;")
        (replace_all APOS (lit "&#x27;")
        (replace_all QUOT (lit "&quot;")
        (replace_all AMP (lit "&amp;")
        (replace_all GT (lit "&gt;")
        (replace_all LT (lit "&lt;") input))))))
  end.

(** [result[key] = v] on the plain object [result]: the property is
    created, except for the key [__proto__], where the assignment reaches
    the setter of [Object.prototype] and creates no property (an object,
    array or [null] assigned this way becomes the prototype of [result],
    which own properties, [Object.entries] and JSON do not show). *)
Definition PROTO : jsstring := lit "__proto__".

Definition settable (key : jsstring) : bool := negb (key_eqb key PROTO).

Definition assigned (key : jsstring) (v : value) : list (jsstring * value) :=
  if settable key then [(key, v)] else [].

(** [Object.entries(obj)] is matched on directly: the fields of an
    object, the indexed items of an array (an array passes the guard
    [typeof obj !== 'object'] like any object, and [result] is always a
    plain object).  [field_of] is the body of the loop, [item_of] the
    callback of [value.map]. *)
Fixpoint sanitizeObject (obj : value) : value :=
  let item_of (item : value) : value :=
    match item with
    | VStr s => VStr (sanitizeString s)
    | VNull | VArr _ | VObj _ => sanitizeObject item
    | _ => item
    end in
  let field_of (v : value) : value :=
    match v with
    | VStr s => VStr (sanitizeString s)
    | VArr items => VArr (List.map item_of items)
    | VObj _ => sanitizeObject v
    | _ => v
    end in
  match obj with
  | VObj fields => VObj (flat_map (fun kv => assigned (fst kv) (field_of (snd kv))) fields)
  | VArr items => VObj (index_from 0 (List.map field_of items))
  | _ => obj
  end.

(** [item_of] and [field_of] again, named so that lemmas can mention
    them. *)
Definition sanitizeItem (item : value) : value :=
  match item with
  | VStr s => VStr (sanitizeString s)
  | VNull | VArr _ | VObj _ => sanitizeObject item
  | _ => item
  end.

Definition sanitizeField (v : value) : value :=
  match v with
  | VStr s => VStr (sanitizeString s)
  | VArr items => VArr (List.map sanitizeItem items)
  | VObj _ => sanitizeObject v
  | _ => v
  end.

(** The chain of [replace] calls of [sanitizeString], on its own. *)
Definition passes (s : jsstring) : jsstring :=
  replace_all SLASH (lit "&#x2F;")
    (replace_all APOS (lit "&#x27;")
      (replace_all QUOT (lit "&quot;")
        (replace_all AMP (lit "&amp;")
          (replace_all GT (lit "&gt;")
            (replace_all LT (lit "&lt;") s))))).

(** The six characters the passes of [sanitizeString] look for. *)
Definition special (c : code_unit) : bool :=
  ((c =? LT) || (c =? GT) || (c =? AMP) || (c =? QUOT) || (c =? APOS)
   || (c =? SLASH))%N.

(** The five of them that are never written by a pass. *)
Definition raw_markup (c : code_unit) : bool :=
  ((c =? LT) || (c =? GT) || (c =? QUOT) || (c =? APOS) || (c =? SLASH))%N.

(** The replacement texts of the six passes. *)
Definition entities : list jsstring :=
  [lit "&lt;"; lit "&gt;"; lit "&amp;"; lit "&quot;"; lit "&#x27;";
   lit "&#x2F;"].

(** What one code unit has become once the six passes have run in the
    order of the source: the ampersand pass runs after the passes for
    [<] and [>] and so rewrites the ampersand they wrote. *)
Definition escape_char (c : code_unit) : jsstring :=
  if (c =? LT)%N then lit "&amp;lt;"
  else if (c =? GT)%N then lit "&amp;gt;"
  else if (c =? AMP)%N then lit "&amp;"
  else if (c =? QUOT)%N then lit "&quot;"
  else if (c =? APOS)%N then lit "&#x27;"
  else if (c =? SLASH)%N then lit "&#x2F;"
  else [c].

(** No markup character is left as it is, and every ampersand opens one
    of the replacement texts. *)
Fixpoint well_escaped (s : jsstring) : bool :=
  match s with
  | [] => true
  | c :: s' =>
      (if (c =? AMP)%N then existsb (startsWith s) entities
       else negb (raw_markup c))
      && well_escaped s'
  end.

(** Every string anywhere inside [v] is free of the six characters. *)
Fixpoint plain_value (v : value) : bool :=
  match v with
  | VStr s => forallb (fun c => negb (special c)) s
  | VArr items => forallb plain_value items
  | VObj fields => forallb (fun kv => plain_value (snd kv)) fields
  | _ => true
  end.

(** Occurrences of a code unit, and of the six characters. *)
Definition occurrences (c : code_unit) (s : jsstring) : nat :=
  length (List.filter (N.eqb c) s).

Definition count_special (s : jsstring) : nat :=
  length (List.filter special s).

Definition SEMI : code_unit := 59%N.

(** Values other than strings, arrays and objects. *)
Definition non_string_leaf (v : value) : bool :=
  match v with
  | VUndefined | VNull | VBool _ | VNum _ => true
  | _ => false
  end.

End Security.

(** Induction on values that reaches the items of arrays and the fields
    of objects. *)

Section ValueInduction.

Variable P : value -> Prop.
Hypothesis Hundef : P VUndefined.
Hypothesis Hnull : P VNull.
Hypothesis Hbool : forall b, P (VBool b).
Hypothesis Hnum : forall x, P (VNum x).
Hypothesis Hstr : forall s, P (VStr s).
Hypothesis Harr : forall items, Forall P items -> P (VArr items).
Hypothesis Hobj : forall fields, Forall (fun kv => P (snd kv)) fields -> P (VObj fields).

(** Induction on values with the hypothesis for every item and field. *)
Fixpoint value_nested_ind (v : value) : P v :=
  match v with
  | VUndefined => Hundef
  | VNull => Hnull
  | VBool b => Hbool b
  | VNum x => Hnum x
  | VStr s => Hstr s
  | VArr items =>
      Harr items
        ((fix all (l : list value) : Forall P l :=
            match l with
            | [] => List.Forall_nil P
            | x :: l' => List.Forall_cons P x l' (value_nested_ind x) (all l')
            end) items)
  | VObj fields =>
      Hobj fields
        ((fix all (l : list (jsstring * value)) : Forall (fun kv => P (snd kv)) l :=
            match l with
            | [] => List.Forall_nil _
            | kv :: l' => List.Forall_cons _ kv l' (value_nested_ind (snd kv)) (all l')
            end) fields)
  end.

End ValueInduction.

(** A function applied to the value of a field. *)
Definition on_value (f : value -> value) (kv : jsstring * value) : jsstring * value :=
  (fst kv, f (snd kv)).

(** ** The process environment and HTTP responses *)

Module Http.

(** [process.env]: the two variables the sources read. *)
Record Env := { NODE_ENV : option jsstring; DEBUG : option jsstring }.

Definition env_is (v : option jsstring) (s : string) : bool :=
  match v with
  | Some x => key_eqb x (lit s)
  | None => false
  end.

Definition production (env : Env) : bool := env_is (NODE_ENV env) "production".

Abbreviation Headers := (list (jsstring * jsstring)) (only parsing).

(** [headers.set(name, value)]. *)
Definition headers_set (h : Headers) (name v : jsstring) : Headers :=
  List.filter (fun kv => negb (key_eqb (fst kv) name)) h ++ [(name, v)].

Definition headers_get (h : Headers) (name : jsstring) : option jsstring :=
  assoc name h.

(** A response: status, headers and the body before serialization
    ([NextResponse.json] and [JSON.stringify] are not modelled further). *)
Record Response := { status : Z; headers : Headers; body : value }.

Definition NextResponse_json (b : value) (st : Z) : Response :=
  {| status := st;
     headers := [(lit "content-type", lit "application/json")];
     body := b |}.

End Http.

Import Http.

(** ** lib/error-handler.ts *)

Module ErrorHandler.

Inductive ErrorType :=
| VALIDATION | AUTHENTICATION | AUTHORIZATION | NOT_FOUND | DATABASE | SERVER
| EXTERNAL_SERVICE.

(** The string value of each member of the enum. *)
Definition ErrorType_value (t : ErrorType) : jsstring :=
  match t with
  | VALIDATION => lit "VALIDATION_ERROR"
  | AUTHENTICATION => lit "AUTHENTICATION_ERROR"
  | AUTHORIZATION => lit "AUTHORIZATION_ERROR"
  | NOT_FOUND => lit "NOT_FOUND_ERROR"
  | DATABASE => lit "DATABASE_ERROR"
  | SERVER => lit "SERVER_ERROR"
  | EXTERNAL_SERVICE => lit "EXTERNAL_SERVICE_ERROR"
  end.

(** [class AppError extends Error]; absent [details] are [VUndefined]. *)
Record AppError := {
  message : jsstring;
  type : ErrorType;
  statusCode : Z;
  isOperational : bool;
  details : value
}.

(** The factory; an omitted message ([None]) takes the default of the
    source. *)
Module createError.
Definition validation (m : jsstring) (d : value) : AppError :=
  {| message := m; type := VALIDATION; statusCode := 400; isOperational := true; details := d |}.
Definition authentication (m : option jsstring) : AppError :=
  {| message := default (lit "Authentication required") m; type := AUTHENTICATION; statusCode := 401; isOperational := true; details := VUndefined |}.
Definition authorization (m : option jsstring) : AppError :=
  {| message := default (lit "Not authorized") m; type := AUTHORIZATION; statusCode := 403; isOperational := true; details := VUndefined |}.
Definition notFound (m : option jsstring) : AppError :=
  {| message := default (lit "Resource not found") m; type := NOT_FOUND; statusCode := 404; isOperational := true; details := VUndefined |}.
Definition database (m : jsstring) (d : value) : AppError :=
  {| message := m; type := DATABASE; statusCode := 500; isOperational := true; details := d |}.
Definition server (m : option jsstring) : AppError :=
  {| message := default (lit "Internal server error") m; type := SERVER; statusCode := 500; isOperational := true; details := VUndefined |}.
Definition externalService (m : jsstring) (d : value) : AppError :=
  {| message := m; type := EXTERNAL_SERVICE; statusCode := 502; isOperational := true; details := d |}.
End createError.

(** What a [throw] can carry: an [AppError], another [Error] instance
    (only its message is read), or a value that is no [Error] at all. *)
Inductive thrown :=
| ThrowAppError (e : AppError)
| ThrowError (m : jsstring)
| ThrowValue (v : value).

(** The line [handleApiError] writes with [console.error]. *)
Inductive log_line :=
| LogFull (error : thrown)
| LogMinimal.

Definition handleApiError_log (env : Env) (error : thrown) : log_line :=
  if env_is (NODE_ENV env) "development" || env_is (DEBUG env) "true"
  then LogFull error
  else LogMinimal.

Definition handleApiError (env : Env) (error : thrown) : Response :=
  let '(statusCode, errorMessage, errorType, errorDetails) :=
    match error with
    | ThrowAppError e => (statusCode e, message e, type e, details e)
    | ThrowError m =>
        (500,
         if production env then lit "Internal server error" else m,
         SERVER, VUndefined)
    | ThrowValue _ => (500, lit "Internal server error", SERVER, VUndefined)
    end in
  let errorResponse :=
    VObj [(lit "success", VBool false);
          (lit "error",
           VObj ([(lit "type", VStr (ErrorType_value errorType));
                  (lit "message", VStr errorMessage)]
                 ++ (if negb (production env) && truthy errorDetails
                     then [(lit "details", errorDetails)]
                     else [])))] in
  NextResponse_json errorResponse statusCode.

(** The body [{success: false, error: {type, message, details?}}]. *)
Definition error_envelope (t : ErrorType) (m : jsstring) (d : option value) : value :=
  VObj [(lit "success", VBool false);
        (lit "error",
         VObj ([(lit "type", VStr (ErrorType_value t)); (lit "message", VStr m)]
               ++ match d with
                  | Some x => [(lit "details", x)]
                  | None => []
                  end))].

(** Handlers run against a state [S] and either return or throw. *)
Definition M (S A : Type) : Type := S -> S * (thrown + A).

Definition ret {S A} (a : A) : M S A := fun s => (s, inr a).

Definition throw {S A} (e : thrown) : M S A := fun s => (s, inl e).

Definition bind {S A B} (c : M S A) (k : A -> M S B) : M S B :=
  fun s =>
    match c s with
    | (s', inl e) => (s', inl e)
    | (s', inr a) => k a s'
    end.

(** [try { c } catch (error) { h error }]. *)
Definition try_catch {S A} (c : M S A) (h : thrown -> M S A) : M S A :=
  fun s =>
    match c s with
    | (s', inl e) => h e s'
    | (s', inr a) => (s', inr a)
    end.

Definition withErrorHandling {S Req} (env : Env) (handler : Req -> M S Response)
  : Req -> S -> S * Response :=
  fun req s =>
    match handler req s with
    | (s', inr r) => (s', r)
    | (s', inl error) => (s', handleApiError env error)
    end.

End ErrorHandler.

Import ErrorHandler.

Declare Scope handler_scope.
Delimit Scope handler_scope with handler.
Notation "x <- c ;; k" := (bind c (fun x => k))
  (at level 100, c at next level, right associativity) : handler_scope.
Notation "c ;; k" := (bind c (fun _ => k))
  (at level 100, right associativity) : handler_scope.

(** ** middleware.ts *)

Module Middleware.

Definition RATE_LIMIT_WINDOW : Z := 60 * 1000.
Definition MAX_REQUESTS_PER_WINDOW : Z := 100.

Record RateLimitData := { count : Z; resetTime : Z }.

(** [rateLimitStore], a plain object used as a dictionary keyed by the
    client address (an address is never the name of a property that plain
    objects inherit, so a lookup finds an entry or nothing). *)
Abbreviation Store := (gmap (list N) RateLimitData) (only parsing).

(** The fields of [NextRequest] the middleware reads. *)
Record NextRequest := { ip : option jsstring; pathname : jsstring }.

(** [NextResponse.next()] with its headers, or a response of the
    middleware's own, which ends the request. *)
Inductive Outcome :=
| Next (h : Headers)
| Respond (r : Response).

(** [request.ip || 'unknown']. *)
Definition client_of (request : NextRequest) : jsstring :=
  match ip request with
  | Some (c :: a) => c :: a
  | _ => lit "unknown"
  end.

Definition rate_limited (request : NextRequest) : bool :=
  startsWith (pathname request) (lit "/api/").

Definition security_headers (env : Env) : Headers :=
  let h := headers_set [] (lit "X-Content-Type-Options") (lit "nosniff") in
  let h := headers_set h (lit "X-Frame-Options") (lit "DENY") in
  let h := headers_set h (lit "Referrer-Policy") (lit "origin-when-cross-origin") in
  let h := headers_set h (lit "X-XSS-Protection") (lit "1; mode=block") in
  let h := headers_set h (lit "X-DNS-Prefetch-Control") (lit "on") in
  if production env
  then headers_set h (lit "Strict-Transport-Security")
         (lit "max-age=63072000; includeSubDomains; preload")
  else h.

Definition too_many_requests (rateLimitData : RateLimitData) : Response :=
  {| status := 429;
     headers :=
       [(lit "Content-Type", lit "application/json");
        (lit "Retry-After", lit "60");
        (lit "X-RateLimit-Limit", Z_toString MAX_REQUESTS_PER_WINDOW);
        (lit "X-RateLimit-Remaining", lit "0");
        (lit "X-RateLimit-Reset", Z_toString (resetTime rateLimitData))];
     body :=
       VObj [(lit "success", VBool false);
             (lit "error",
              VObj [(lit "message", VLit "Too many requests, please try again later.");
                    (lit "type", VLit "RATE_LIMIT_EXCEEDED")])] |}.

(** One run of [middleware] at time [now = Date.now()].  The entry of the
    store is an object that the function mutates in place; here the
    updated entry is written back under the same key. *)
Definition middleware (env : Env) (request : NextRequest) (now : Z)
    (rateLimitStore : Store) : Store * Outcome :=
  let ip := client_of request in
  let h := security_headers env in
  if rate_limited request then
    let initial :=
      match rateLimitStore !! ip with
      | Some d => d
      | None => {| count := 0; resetTime := now + RATE_LIMIT_WINDOW |}
      end in
    let current :=
      if resetTime initial <? now
      then {| count := 0; resetTime := now + RATE_LIMIT_WINDOW |}
      else initial in
    let rateLimitData :=
      {| count := count current + 1; resetTime := resetTime current |} in
    let store' := <[ip := rateLimitData]> rateLimitStore in
    let h := headers_set h (lit "X-RateLimit-Limit") (Z_toString MAX_REQUESTS_PER_WINDOW) in
    let h := headers_set h (lit "X-RateLimit-Remaining")
               (Z_toString (Z.max 0 (MAX_REQUESTS_PER_WINDOW - count rateLimitData))) in
    let h := headers_set h (lit "X-RateLimit-Reset") (Z_toString (resetTime rateLimitData)) in
    if MAX_REQUESTS_PER_WINDOW <? count rateLimitData
    then (store', Respond (too_many_requests rateLimitData))
    else (store', Next h)
  else (rateLimitStore, Next h).

(** The callback of [setInterval]: expired entries are deleted. *)
Definition cleanup (now : Z) (rateLimitStore : Store) : Store :=
  filter (fun kv => ~ (resetTime (snd kv) < now)) rateLimitStore.

(** What happens to the store over time: requests and clean-up runs. *)
Inductive Event :=
| Incoming (request : NextRequest) (now : Z)
| Cleanup (now : Z).

Definition event_time (ev : Event) : Z :=
  match ev with
  | Incoming _ now => now
  | Cleanup now => now
  end.

Definition step (env : Env) (store : Store) (ev : Event) : Store :=
  match ev with
  | Incoming request now => fst (middleware env request now store)
  | Cleanup now => cleanup now store
  end.

Definition run (env : Env) (store : Store) (evs : list Event) : Store :=
  fold_left (step env) evs store.

(** Requests of client [key] on a rate-limited path among [evs]. *)
Definition hits (key : jsstring) (evs : list Event) : Z :=
  Z.of_nat
    (length
       (List.filter
          (fun ev =>
             match ev with
             | Incoming request _ =>
                 key_eqb (client_of request) key && rate_limited request
             | Cleanup _ => false
             end)
          evs)).

(** The entry a rate-limited request leaves behind. *)
Definition entry_after (now : Z) (old : option RateLimitData) : RateLimitData :=
  match old with
  | Some d =>
      if resetTime d <? now
      then {| count := 1; resetTime := now + RATE_LIMIT_WINDOW |}
      else {| count := count d + 1; resetTime := resetTime d |}
  | None =>
      {| count := 1; resetTime := now + RATE_LIMIT_WINDOW |}
  end.

Definition forwarded (o : Outcome) : bool :=
  match o with
  | Next _ => true
  | Respond _ => false
  end.

End Middleware.

(** ** The persistence layer: the models and the connection module *)

Module Profile.
(** Modelled from the spec: the Profile sub-document of models/UserGroup,
    which is not among the sources (id assigned by persistence, name,
    avatar, color).  [_id] is an [ObjectId], written as the string that
    denotes it; [avatar] and [color] hold what the handler passes on,
    before the schema casts it. *)
Record t := { _id : jsstring; name : jsstring; avatar : value; color : value }.
End Profile.

Module UserGroup.
(** Modelled from the spec: the Group document of models/UserGroup (id,
    name, type, ordered list of Profiles).  [_id] is an [ObjectId],
    written as the string that denotes it. *)
Record t := {
  _id : jsstring;
  name : jsstring;
  type : jsstring;
  profiles : list Profile.t
}.
End UserGroup.

Module Owned.
(** Modelled from the spec: what models/ProfileTransaction and
    models/ProfileBudget share, the references to a Profile and to a
    Group, kept as strings; the other fields travel as [payload]. *)
Record t := { profileId : jsstring; groupId : jsstring; payload : value }.
End Owned.

Module Db.

(** Calls into the persistence layer, in the order they are made. *)
Inductive Op :=
| Connect
| Find
| FindById (id : jsstring)
| FindByIdAndDelete (id : jsstring)
| Save (g : UserGroup.t)
| DeleteTransactionsOfProfile (id : jsstring)
| DeleteBudgetsOfProfile (id : jsstring)
| DeleteTransactionsOfGroup (id : jsstring)
| DeleteBudgetsOfGroup (id : jsstring).

(** The database, the connection cache of [dbConnect] and the log of calls.
    [unreachable = Some m]: [mongoose.connect] rejects with an error of
    message [m]. *)
Record World := {
  cached_conn : bool;
  unreachable : option jsstring;
  groups : list UserGroup.t;
  transactions : list Owned.t;
  budgets : list Owned.t;
  ops : list Op
}.

Definition log (o : Op) (w : World) : World :=
  {| cached_conn := cached_conn w; unreachable := unreachable w;
     groups := groups w; transactions := transactions w;
     budgets := budgets w; ops := ops w ++ [o] |}.

Definition set_conn (w : World) : World :=
  {| cached_conn := true; unreachable := unreachable w;
     groups := groups w; transactions := transactions w;
     budgets := budgets w; ops := ops w |}.

Definition set_groups (gs : list UserGroup.t) (w : World) : World :=
  {| cached_conn := cached_conn w; unreachable := unreachable w;
     groups := gs; transactions := transactions w;
     budgets := budgets w; ops := ops w |}.

Definition set_transactions (ts : list Owned.t) (w : World) : World :=
  {| cached_conn := cached_conn w; unreachable := unreachable w;
     groups := groups w; transactions := ts;
     budgets := budgets w; ops := ops w |}.

Definition set_budgets (bs : list Owned.t) (w : World) : World :=
  {| cached_conn := cached_conn w; unreachable := unreachable w;
     groups := groups w; transactions := transactions w;
     budgets := bs; ops := ops w |}.

(** What the sources take from mongoose and from the schema of
    models/UserGroup.  A rejected [save()] carries either a mongoose
    [ValidationError] (its message and the messages of its [errors]) or
    another [Error] (its message and the error object). *)
Inductive save_error :=
| ValidationError (m : jsstring) (messages : list jsstring)
| OtherError (m : jsstring) (error : value).

Class Mongoose := {
  (** [mongoose.Types.ObjectId.isValid] *)
  ObjectId_isValid : jsstring -> bool;
  (** [new mongoose.Types.ObjectId(s)] for a valid string [s], written as
      the string that denotes the identifier (its 24 lower-case hex
      digits): what [findById] and [findByIdAndDelete] cast their
      argument to *)
  ObjectId_of : jsstring -> jsstring;
  (** the [n]-th identifier handed out while a document is built *)
  newObjectId : World -> nat -> jsstring;
  (** the sub-document an element of [group.profiles = [...]] is cast to *)
  castProfile : World -> nat -> value -> Profile.t;
  (** whether [document.save()] resolves, and how it rejects otherwise *)
  save_outcome : World -> UserGroup.t -> option save_error
}.

(** [dbConnect], one caller at a time: the cached connection
    is returned when there is one; otherwise [mongoose.connect] is tried
    and its rejection is thrown, leaving the cache empty. *)
Definition dbConnect : M World unit :=
  fun w =>
    if cached_conn w then (w, inr tt)
    else
      let w := log Connect w in
      match unreachable w with
      | Some m => (w, inl (ThrowError m))
      | None => (set_conn w, inr tt)
      end.

(** Two identifiers, each written as the string that denotes it: the
    [_id] of a stored document, an [ObjectId] built by [ObjectId_of], or
    the [profileId] and [groupId] strings of the owned collections.  A
    string taken from the request is cast with [ObjectId_of] before it is
    compared with an [_id]. *)
Definition id_eqb (a b : jsstring) : bool := key_eqb a b.

(** Whether [dbConnect] will resolve, and the state it leaves then. *)
Definition connectable (w : World) : bool :=
  cached_conn w || match unreachable w with None => true | Some _ => false end.

Definition connected (w : World) : World :=
  if cached_conn w then w else set_conn (log Connect w).

(** [UserGroup.find({}).lean()] *)
Definition find_all : M World (list UserGroup.t) :=
  fun w => let w := log Find w in (w, inr (groups w)).

(** [UserGroup.findById(id)]: the string is cast to an [ObjectId]. *)
Definition findById `{Mongoose} (id : jsstring) : M World (option UserGroup.t) :=
  fun w =>
    let w := log (FindById id) w in
    (w, inr (List.find (fun g => id_eqb (UserGroup._id g) (ObjectId_of id)) (groups w))).

(** [UserGroup.findByIdAndDelete(id)]: the string is cast to an
    [ObjectId]. *)
Definition findByIdAndDelete `{Mongoose} (id : jsstring) : M World (option UserGroup.t) :=
  fun w =>
    let w := log (FindByIdAndDelete id) w in
    let found :=
      List.find (fun g => id_eqb (UserGroup._id g) (ObjectId_of id)) (groups w) in
    (set_groups
       (List.filter (fun g => negb (id_eqb (UserGroup._id g) (ObjectId_of id))) (groups w))
       w,
     inr found).

(** The collection after document [g] has been written. *)
Definition upsert (g : UserGroup.t) (gs : list UserGroup.t) : list UserGroup.t :=
  if existsb (fun x => id_eqb (UserGroup._id x) (UserGroup._id g)) gs
  then List.map (fun x => if id_eqb (UserGroup._id x) (UserGroup._id g) then g else x) gs
  else gs ++ [g].

(** [group.save()]: resolves with the document written, or rejects. *)
Definition save `{Mongoose} (g : UserGroup.t)
  : World -> World * (save_error + UserGroup.t) :=
  fun w =>
    let w := log (Save g) w in
    match save_outcome w g with
    | None => (set_groups (upsert g (groups w)) w, inr g)
    | Some e => (w, inl e)
    end.

(** [Model.deleteMany({ profileId })] and [Model.deleteMany({ groupId })]
    on the two owned collections: the handler passes the string of the
    request as it is, and it is matched against the stored strings. *)
Definition deleteTransactionsOfProfile (id : jsstring) : M World unit :=
  fun w =>
    let w := log (DeleteTransactionsOfProfile id) w in
    (set_transactions
       (List.filter (fun t => negb (id_eqb (Owned.profileId t) id)) (transactions w)) w,
     inr tt).

Definition deleteBudgetsOfProfile (id : jsstring) : M World unit :=
  fun w =>
    let w := log (DeleteBudgetsOfProfile id) w in
    (set_budgets
       (List.filter (fun t => negb (id_eqb (Owned.profileId t) id)) (budgets w)) w,
     inr tt).

Definition deleteTransactionsOfGroup (id : jsstring) : M World unit :=
  fun w =>
    let w := log (DeleteTransactionsOfGroup id) w in
    (set_transactions
       (List.filter (fun t => negb (id_eqb (Owned.groupId t) id)) (transactions w)) w,
     inr tt).

Definition deleteBudgetsOfGroup (id : jsstring) : M World unit :=
  fun w =>
    let w := log (DeleteBudgetsOfGroup id) w in
    (set_budgets
       (List.filter (fun t => negb (id_eqb (Owned.groupId t) id)) (budgets w)) w,
     inr tt).

(** Modelled from the spec: the JSON of a Group document as
    [NextResponse.json] sends it (the schema is not among the sources). *)
Definition json_of_profile (p : Profile.t) : value :=
  VObj [(lit "_id", VStr (Profile._id p));
        (lit "name", VStr (Profile.name p));
        (lit "avatar", Profile.avatar p);
        (lit "color", Profile.color p)].

Definition json_of_group (g : UserGroup.t) : value :=
  VObj [(lit "_id", VStr (UserGroup._id g));
        (lit "name", VStr (UserGroup.name g));
        (lit "type", VStr (UserGroup.type g));
        (lit "profiles", VArr (List.map json_of_profile (UserGroup.profiles g)))].

End Db.

Import Db.

(** ** app/api/profiles/route.ts and app/api/profiles/[id]/route.ts *)

Module Routes.

Local Open Scope handler_scope.

(** The parts of a request the handlers read: the [id] segment of the
    path, the [profileId] query parameter, and the payload, which
    [request.json()] either parses or rejects with a [SyntaxError] of the
    given message. *)
Record Request := {
  params_id : jsstring;
  profileId : option jsstring;
  payload : jsstring + value
}.

Definition request_json (request : Request) : M World value :=
  match payload request with
  | inr v => ret v
  | inl m => throw (ThrowError m)
  end.

(** [v.k]: reading a property of [null] or [undefined] throws a
    [TypeError]; a missing property reads as [undefined]. *)
Definition TypeError_read (v : value) (k : string) : jsstring :=
  lit "Cannot read properties of "
  ++ (match v with VNull => lit "null" | _ => lit "undefined" end)
  ++ lit " (reading '" ++ lit k ++ lit "')".

Definition prop (v : value) (k : string) : M World value :=
  match v with
  | VNull | VUndefined => throw (ThrowError (TypeError_read v k))
  | _ =>
      match get_prop v (lit k) with
      | Some x => ret x
      | None => ret VUndefined
      end
  end.

(** [!x || typeof x !== "string" || x.trim() === ""] *)
Definition blank_name (x : value) : bool :=
  negb (truthy x)
  || match x with
     | VStr s => match trim s with [] => true | _ => false end
     | _ => true
     end.

Definition allowedGroupTypes : list jsstring :=
  [lit "family"; lit "roommates"; lit "personal"; lit "other"; lit "friends"].

(** [allowedGroupTypes.includes(x)] *)
Definition includes (l : list jsstring) (x : value) : bool :=
  match x with
  | VStr s => existsb (key_eqb s) l
  | _ => false
  end.

(** [l.join(', ')] *)
Fixpoint join (l : list jsstring) : jsstring :=
  match l with
  | [] => []
  | [a] => a
  | a :: l' => a ++ lit ", " ++ join l'
  end.

Definition string_of (x : value) : jsstring :=
  match x with
  | VStr s => s
  | _ => []
  end.

(** [a || b] *)
Definition or_else (a b : value) : value := if truthy a then a else b.

(** The loop over [body.profiles] of the POST handler. *)
Fixpoint check_profiles (items : list value) : M World unit :=
  match items with
  | [] => ret tt
  | profile :: rest =>
      name <- prop profile "name" ;;
      if blank_name name
      then throw (ThrowAppError
                    (createError.validation (lit "Each profile must have a valid name")
                       VUndefined))
      else check_profiles rest
  end.

(** [new UserGroup({ name, type, profiles })]: the fields as the handler
    computes them, the identifiers from mongoose. *)
Definition new_profile `{Mongoose} (w : World) (i : nat) (p : value) : Profile.t :=
  {| Profile._id := newObjectId w (S i);
     Profile.name := trim (string_of (default VUndefined (get_prop p (lit "name"))));
     Profile.avatar := or_else (default VUndefined (get_prop p (lit "avatar"))) (VLit "");
     Profile.color := or_else (default VUndefined (get_prop p (lit "color"))) (VLit "#3B82F6") |}.

Definition new_group `{Mongoose} (w : World) (name type : jsstring) (items : list value)
  : UserGroup.t :=
  {| UserGroup._id := newObjectId w 0;
     UserGroup.name := trim name;
     UserGroup.type := type;
     UserGroup.profiles := imap (new_profile w) items |}.

(** [save()] inside the [try] of POST and PUT, with its [catch] block. *)
Definition save_or_throw `{Mongoose} (g : UserGroup.t) (st : Z) (failure : string)
  : M World Response :=
  fun w =>
    match save g w with
    | (w', inr saved) => (w', inr (NextResponse_json (json_of_group saved) st))
    | (w', inl (ValidationError _ messages)) =>
        (w', inl (ThrowAppError
                    (createError.validation (lit "Validation failed")
                       (VArr (List.map VStr messages)))))
    | (w', inl (OtherError _ error)) =>
        (w', inl (ThrowAppError (createError.database (lit failure) error)))
    end.

Definition get_world : M World World := fun w => (w, inr w).

Definition GET_handler (request : Request) : M World Response :=
  dbConnect ;;
  groups <- find_all ;;
  match groups with
  | [] => ret (NextResponse_json (VArr []) 200)
  | _ => ret (NextResponse_json (VArr (List.map json_of_group groups)) 200)
  end.

Definition POST_handler `{Mongoose} (request : Request) : M World Response :=
  dbConnect ;;
  body <- request_json request ;;
  name <- prop body "name" ;;
  if blank_name name
  then throw (ThrowAppError (createError.validation (lit "Group name is required") VUndefined))
  else
    type <- prop body "type" ;;
    if negb (truthy type) || negb (includes allowedGroupTypes type)
    then throw (ThrowAppError
                  (createError.validation
                     (lit "Valid group type is required. Must be one of: "
                      ++ join allowedGroupTypes)
                     VUndefined))
    else
      profiles <- prop body "profiles" ;;
      match profiles with
      | VArr (p :: ps) =>
          check_profiles (p :: ps) ;;
          w <- get_world ;;
          save_or_throw
            (new_group w (string_of name) (string_of type) (p :: ps))
            201 "Failed to create user group"
      | _ =>
          throw (ThrowAppError
                   (createError.validation (lit "At least one profile is required")
                      VUndefined))
      end.

(** [body.name.trim()] in PUT, where [body.name] is truthy: a string is
    trimmed, anything else has no [trim] method. *)
Definition trim_method (x : value) : M World jsstring :=
  match x with
  | VStr s => ret (trim s)
  | _ => throw (ThrowError (lit "body.name.trim is not a function"))
  end.

Definition PUT_handler `{Mongoose} (request : Request) : M World Response :=
  let id := params_id request in
  dbConnect ;;
  body <- request_json request ;;
  if negb (ObjectId_isValid id)
  then throw (ThrowAppError (createError.validation (lit "Invalid group ID format") VUndefined))
  else
    found <- findById id ;;
    match found with
    | None => throw (ThrowAppError (createError.notFound (Some (lit "Group not found"))))
    | Some group =>
        name <- prop body "name" ;;
        if negb (truthy name)
        then throw (ThrowAppError (createError.validation (lit "Group name is required") VUndefined))
        else
          trimmed_name <- trim_method name ;;
          match trimmed_name with
          | [] => throw (ThrowAppError (createError.validation (lit "Group name is required") VUndefined))
          | _ =>
              profiles <- prop body "profiles" ;;
              match profiles with
              | VArr (p :: ps) =>
                  w <- get_world ;;
                  save_or_throw
                    {| UserGroup._id := UserGroup._id group;
                       UserGroup.name := trimmed_name;
                       UserGroup.type := UserGroup.type group;
                       UserGroup.profiles := imap (castProfile w) (p :: ps) |}
                    200 "Failed to update user group"
              | _ =>
                  throw (ThrowAppError
                           (createError.validation (lit "At least one profile is required")
                              VUndefined))
              end
          end
    end.

(** [group.profiles.pull({ _id })] for an [ObjectId] [id] *)
Definition pull (id : jsstring) (ps : list Profile.t) : list Profile.t :=
  List.filter (fun p => negb (id_eqb (Profile._id p) id)) ps.

(** The document [group] after its [profiles] have been changed. *)
Definition with_profiles (group : UserGroup.t) (ps : list Profile.t) : UserGroup.t :=
  {| UserGroup._id := UserGroup._id group;
     UserGroup.name := UserGroup.name group;
     UserGroup.type := UserGroup.type group;
     UserGroup.profiles := ps |}.

(** [await group.save()] in DELETE, which has no [catch] of its own: the
    rejection, an [Error] instance, is thrown as it is. *)
Definition save_plain `{Mongoose} (g : UserGroup.t) : M World UserGroup.t :=
  fun w =>
    match save g w with
    | (w', inr saved) => (w', inr saved)
    | (w', inl (ValidationError m _)) => (w', inl (ThrowError m))
    | (w', inl (OtherError m _)) => (w', inl (ThrowError m))
    end.

Definition DELETE_handler `{Mongoose} (request : Request) : M World Response :=
  let id := params_id request in
  let profileIdToDelete := profileId request in
  if negb (ObjectId_isValid id)
  then throw (ThrowAppError (createError.validation (lit "Invalid group ID format") VUndefined))
  else
    dbConnect ;;
    match profileIdToDelete with
    | Some (c :: pid') =>
        let pid := c :: pid' in
        if negb (ObjectId_isValid pid)
        then throw (ThrowAppError
                      (createError.validation (lit "Invalid profile ID format") VUndefined))
        else
          found <- findById id ;;
          match found with
          | None => throw (ThrowAppError (createError.notFound (Some (lit "Group not found"))))
          | Some group =>
              if (length (UserGroup.profiles group) <=? 1)%nat
              then throw (ThrowAppError
                            (createError.validation
                               (lit "Cannot delete the last profile in a group. Delete the group instead.")
                               VUndefined))
              else
                let group :=
                  with_profiles group
                    (pull (ObjectId_of pid) (UserGroup.profiles group)) in
                deleteTransactionsOfProfile pid ;;
                deleteBudgetsOfProfile pid ;;
                saved <- save_plain group ;;
                ret (NextResponse_json (json_of_group group) 200)
          end
    | _ =>
        found <- findByIdAndDelete id ;;
        match found with
        | None => throw (ThrowAppError (createError.notFound (Some (lit "Group not found"))))
        | Some group =>
            deleteTransactionsOfGroup id ;;
            deleteBudgetsOfGroup id ;;
            ret (NextResponse_json
                   (VObj [(lit "success", VBool true);
                          (lit "message", VLit "Group deleted successfully")])
                   200)
        end
    end.

(** [body.profiles] is missing, is no array, or is an empty array. *)
Definition no_profiles (body : value) : bool :=
  match get_prop body (lit "profiles") with
  | Some (VArr (_ :: _)) => false
  | _ => true
  end.

(** The exported handlers. *)
Definition GET (env : Env) := withErrorHandling env GET_handler.
Definition POST `{Mongoose} (env : Env) := withErrorHandling env POST_handler.
Definition PUT `{Mongoose} (env : Env) := withErrorHandling env PUT_handler.
Definition DELETE `{Mongoose} (env : Env) := withErrorHandling env DELETE_handler.

End Routes.

(** ** Vocabulary for the claims on the handlers *)

Module Spec.

Import Routes.

(** Calls that write to the database. *)
Definition is_write (o : Op) : bool :=
  match o with
  | Connect | Find | FindById _ => false
  | _ => true
  end.

(** The three collections are what they were in [w0]. *)
Definition same_data (w0 w : World) : Prop :=
  groups w = groups w0 /\ transactions w = transactions w0
  /\ budgets w = budgets w0.

(** Since [w0] the persistence layer has only been connected to and
    read. *)
Definition read_only_since (w0 w : World) : Prop :=
  same_data w0 w
  /\ exists new, ops w = ops w0 ++ new
                 /\ forallb (fun o => negb (is_write o)) new = true.

(** Weakest precondition of a handler computation. *)
Definition wp {A} (c : M World A) (Q : World -> thrown + A -> Prop) (w : World) : Prop :=
  Q (fst (c w)) (snd (c w)).

(** Every Group has a Profile. *)
Definition groups_nonempty (w : World) : Prop :=
  Forall (fun g => (1 <= length (UserGroup.profiles g))%nat) (groups w).

(** Within each Group the identifiers of the Profiles are distinct. *)
Definition profile_ids_distinct (w : World) : Prop :=
  Forall (fun g => NoDup (List.map Profile._id (UserGroup.profiles g))) (groups w).

(** The response of a handler that answered with a Group document. *)
Definition group_response (g : UserGroup.t) (st : Z) : Response :=
  NextResponse_json (json_of_group g) st.

Definition group_deleted_response : Response :=
  NextResponse_json
    (VObj [(lit "success", VBool true);
           (lit "message", VLit "Group deleted successfully")])
    200.

(** Postconditions of the handlers: on a throw the data are what they
    were in [w0]; a returned response satisfies [ok]. *)
Definition unchanged_or (w0 : World) (ok : World -> Response -> Prop)
  : World -> thrown + Response -> Prop :=
  fun w r =>
    match r with
    | inl _ => same_data w0 w
    | inr resp => ok w resp
    end.

(** POST and PUT return after one Group with a Profile was written. *)
Definition saved_nonempty (w0 : World) (st : Z) : World -> Response -> Prop :=
  fun w' r =>
    exists g,
      r = group_response g st
      /\ groups w' = upsert g (groups w0)
      /\ transactions w' = transactions w0 /\ budgets w' = budgets w0
      /\ (1 <= length (UserGroup.profiles g))%nat.

(** What DELETE can end in: an error with the Groups as they were; one
    Group of at least two Profiles written back without the Profiles of
    the given identifier; or the Group removed. *)
Definition DELETE_post `{Mongoose} (request : Request) (w0 : World)
  : World -> thrown + Response -> Prop :=
  fun w' r =>
    match r with
    | inl _ => groups w' = groups w0
    | inr resp =>
        (exists group pid,
            In group (groups w0)
            /\ (2 <= length (UserGroup.profiles group))%nat
            /\ resp = group_response
                        (with_profiles group (pull pid (UserGroup.profiles group))) 200
            /\ groups w'
               = upsert (with_profiles group (pull pid (UserGroup.profiles group)))
                   (groups w0))
        \/ (resp = group_deleted_response
            /\ groups w'
               = List.filter
                   (fun g => negb (id_eqb (UserGroup._id g)
                                     (ObjectId_of (params_id request))))
                   (groups w0))
    end.

(** A body with a [success] field and a body that is an error envelope. *)
Definition has_success_field (b : value) : bool :=
  match get_prop b (lit "success") with
  | Some (VBool _) => true
  | _ => false
  end.

Definition is_error_envelope (b : value) : Prop :=
  exists t m d, b = error_envelope t m d.

End Spec.

(** ** Sample data *)

Module Samples.

Import Routes Middleware.

Definition is_hex (c : N) : bool :=
  ((48 <=? c) && (c <=? 57) || (65 <=? c) && (c <=? 70)
   || (97 <=? c) && (c <=? 102))%N.

(** An instance of the mongoose interface: identifiers are 24 hex
    digits, read without regard to the case of the letters; a Profile in
    an assigned list keeps the [_id] it comes with, and [save]
    resolves. *)
Definition sample_id (n : nat) : jsstring :=
  lit "65f0c0ffee000000000000" ++ [(48 + N.of_nat (n / 10 mod 10))%N; (48 + N.of_nat (n mod 10))%N].

Definition lower_hex (c : N) : N :=
  if ((65 <=? c) && (c <=? 70))%N then (c + 32)%N else c.

Definition mongoose : Mongoose :=
  {| ObjectId_isValid := fun s => (length s =? 24)%nat && forallb is_hex s;
     ObjectId_of := List.map lower_hex;
     newObjectId := fun _ n => sample_id n;
     castProfile := fun _ i v =>
       {| Profile._id :=
            match get_prop v (lit "_id") with
            | Some (VStr s) => List.map lower_hex s
            | _ => sample_id (50 + i)
            end;
          Profile.name := string_of (default VUndefined (get_prop v (lit "name")));
          Profile.avatar := default (VLit "") (get_prop v (lit "avatar"));
          Profile.color := default (VLit "#3B82F6") (get_prop v (lit "color")) |};
     save_outcome := fun _ _ => None |}.

Definition dev : Env := {| NODE_ENV := Some (lit "development"); DEBUG := None |}.
Definition prod : Env := {| NODE_ENV := Some (lit "production"); DEBUG := None |}.

Definition alice : Profile.t :=
  {| Profile._id := sample_id 1; Profile.name := lit "Alice";
     Profile.avatar := VLit ""; Profile.color := VLit "#3B82F6" |}.

Definition bob : Profile.t :=
  {| Profile._id := sample_id 2; Profile.name := lit "Bob";
     Profile.avatar := VLit ""; Profile.color := VLit "#10B981" |}.

Definition smiths : UserGroup.t :=
  {| UserGroup._id := sample_id 0; UserGroup.name := lit "Smiths";
     UserGroup.type := lit "family"; UserGroup.profiles := [alice; bob] |}.

Definition solo : UserGroup.t :=
  {| UserGroup._id := sample_id 10; UserGroup.name := lit "Solo";
     UserGroup.type := lit "personal"; UserGroup.profiles := [alice] |}.

Definition owned (p g : nat) : Owned.t :=
  {| Owned.profileId := sample_id p; Owned.groupId := sample_id g;
     Owned.payload := VObj [] |}.

(** A fresh process (no cached connection) in front of a database with
    two Groups. *)
Definition world : World :=
  {| cached_conn := false; unreachable := None;
     groups := [smiths; solo];
     transactions := [owned 1 0; owned 2 0; owned 7 0];
     budgets := [owned 7 0; owned 2 0];
     ops := [] |}.

Definition world_down : World :=
  {| cached_conn := false; unreachable := Some (lit "connect ECONNREFUSED");
     groups := [smiths; solo]; transactions := []; budgets := []; ops := [] |}.

Definition empty_world : World :=
  {| cached_conn := true; unreachable := None;
     groups := []; transactions := []; budgets := []; ops := [] |}.

Definition request_of (id : jsstring) (pid : option jsstring) (body : value) : Request :=
  {| params_id := id; profileId := pid; payload := inr body |}.

(** Rate limiter: client 10.0.0.7 against /api/profiles, another client
    and a clean-up run in between. *)
Definition sample_request : NextRequest :=
  {| ip := Some (lit "10.0.0.7"); pathname := lit "/api/profiles" |}.

Definition other_request : NextRequest :=
  {| ip := None; pathname := lit "/api/profiles" |}.

Definition sample_during : list Event :=
  Incoming other_request 1500 :: Cleanup 2000
  :: List.map (fun i => Incoming sample_request (1001 + Z.of_nat i)) (seq 0 100).

End Samples.

(** ** Vocabulary for further properties of the middleware *)

Module Traffic.

Import Routes Middleware.

(** [request.ip] is undefined or empty. *)
Definition no_address (request : NextRequest) : bool :=
  match ip request with
  | Some (_ :: _) => false
  | _ => true
  end.

(** The outcomes of the requests among [evs], in order. *)
Fixpoint responses (env : Env) (store : gmap (list N) RateLimitData)
    (evs : list Event) : list Outcome :=
  match evs with
  | [] => []
  | Incoming request now :: evs' =>
      snd (middleware env request now store)
      :: responses env (fst (middleware env request now store)) evs'
  | Cleanup now :: evs' => responses env (cleanup now store) evs'
  end.

Definition is_incoming (ev : Event) : bool :=
  match ev with
  | Incoming _ _ => true
  | Cleanup _ => false
  end.

(** The events that can matter to client [key]: its own requests and the
    clean-up runs. *)
Definition concerns (key : jsstring) (ev : Event) : bool :=
  match ev with
  | Incoming request _ => key_eqb (client_of request) key
  | Cleanup _ => true
  end.

(** Event times never go back, starting from [t]. *)
Fixpoint in_time_order (t : Z) (evs : list Event) : bool :=
  match evs with
  | [] => true
  | ev :: evs' => (t <=? event_time ev) && in_time_order (event_time ev) evs'
  end.

(** The headers of a forwarded request on a rate-limited path, given the
    entry the request leaves behind. *)
Definition quota_headers (env : Env) (d : RateLimitData) : list (list N * list N) :=
  headers_set
    (headers_set
       (headers_set (security_headers env) (lit "X-RateLimit-Limit")
          (Z_toString MAX_REQUESTS_PER_WINDOW))
       (lit "X-RateLimit-Remaining")
       (Z_toString (Z.max 0 (MAX_REQUESTS_PER_WINDOW - count d))))
    (lit "X-RateLimit-Reset") (Z_toString (resetTime d)).

(** [s] is [s'] without some entries that have expired by time [t]. *)
Definition swept (t : Z) (s s' : gmap (list N) RateLimitData) : Prop :=
  forall k,
    s !! k = s' !! k
    \/ (s !! k = None /\ exists d, s' !! k = Some d /\ resetTime d < t).

End Traffic.

(** ** Vocabulary for further properties of the handlers *)

Module Checks.

Import Routes.

Definition field (v : value) (k : string) : value :=
  default VUndefined (get_prop v (lit k)).

(** A value with a usable [name]: not [null], and [name] a string that is
    not blank. *)
Definition named (v : value) : bool :=
  match v with
  | VNull | VUndefined => false
  | _ => negb (blank_name (field v "name"))
  end.

(** The conditions under which POST goes on to build a document. *)
Definition valid_group_body (body : value) : bool :=
  named body
  && (truthy (field body "type") && includes allowedGroupTypes (field body "type"))
  && match field body "profiles" with
     | VArr (p :: ps) => forallb named (p :: ps)
     | _ => false
     end.

Definition items_of (v : value) : list value :=
  match v with
  | VArr items => items
  | _ => []
  end.

(** The document POST builds from a valid body in state [w]. *)
Definition POST_document `{Mongoose} (w : World) (body : value) : UserGroup.t :=
  new_group w (string_of (field body "name")) (string_of (field body "type"))
    (items_of (field body "profiles")).

(** The conditions under which PUT goes on to write, and the document it
    writes over [group] in state [w]. *)
Definition valid_update_body (body : value) : bool :=
  match body with
  | VNull | VUndefined => false
  | _ =>
      match field body "name", field body "profiles" with
      | VStr s, VArr (_ :: _) => match trim s with [] => false | _ => true end
      | _, _ => false
      end
  end.

Definition PUT_document `{Mongoose} (w : World) (group : UserGroup.t) (body : value)
  : UserGroup.t :=
  {| UserGroup._id := UserGroup._id group;
     UserGroup.name := trim (string_of (field body "name"));
     UserGroup.type := UserGroup.type group;
     UserGroup.profiles := imap (castProfile w) (items_of (field body "profiles")) |}.

(** How a Profile of a new Group relates to the item of the body it was
    made from. *)
Definition profile_from (item : value) (p : Profile.t) : Prop :=
  Profile.name p = trim (string_of (field item "name"))
  /\ Profile.avatar p
     = (if truthy (field item "avatar") then field item "avatar" else VLit "")
  /\ Profile.color p
     = (if truthy (field item "color") then field item "color" else VLit "#3B82F6").

(** The Group that [findById(id)] finds in [w]. *)
Definition find_group `{Mongoose} (id : jsstring) (w : World) : option UserGroup.t :=
  List.find (fun g => id_eqb (UserGroup._id g) (ObjectId_of id)) (groups w).

(** The request has no [profileId] query parameter, or an empty one. *)
Definition no_profile_chosen (request : Request) : bool :=
  match profileId request with
  | Some (_ :: _) => false
  | _ => true
  end.

(** The records of a collection that belong to Group [id], to Profile
    [id], and the rest. *)
Definition of_group (id : jsstring) (t : Owned.t) : bool := id_eqb (Owned.groupId t) id.

Definition of_profile (id : jsstring) (t : Owned.t) : bool :=
  id_eqb (Owned.profileId t) id.

Definition without (f : Owned.t -> bool) (l : list Owned.t) : list Owned.t :=
  List.filter (fun t => negb (f t)) l.

End Checks.

(** ** Further sample data *)

Module MoreSamples.

Import Routes Middleware.

(** The store once client 10.0.0.7 has used up its window. *)
Definition used_up : gmap (list N) RateLimitData :=
  <[lit "10.0.0.7" := {| count := 100; resetTime := 61000 |}]> ∅.

(** The mongoose interface of [Samples.mongoose] with a [save] that
    always rejects. *)
Definition rejecting : Mongoose :=
  {| ObjectId_isValid := @ObjectId_isValid Samples.mongoose;
     ObjectId_of := @ObjectId_of Samples.mongoose;
     newObjectId := @newObjectId Samples.mongoose;
     castProfile := @castProfile Samples.mongoose;
     save_outcome := fun _ _ => Some (OtherError (lit "write conflict") VUndefined) |}.

(** Bob's identifier spelled with upper-case letters. *)
Definition bob_upper : jsstring := lit "65F0C0FFEE00000000000002".

(** A PUT body whose two items bring the same [_id]. *)
Definition twins_body : value :=
  VObj [(lit "name", VLit "Smiths");
        (lit "profiles",
         VArr [VObj [(lit "_id", VStr (Samples.sample_id 77)); (lit "name", VLit "A")];
               VObj [(lit "_id", VStr (Samples.sample_id 77)); (lit "name", VLit "B")]])].

(** Bodies for POST and PUT. *)
Definition smiths_body : value :=
  VObj [(lit "name", VLit " Smiths "); (lit "type", VLit "family");
        (lit "profiles", VArr [VObj [(lit "name", VLit "Alice")]])].

Definition update_body : value :=
  VObj [(lit "name", VLit "Smith family");
        (lit "profiles", VArr [VObj [(lit "name", VLit "Carol")]])].

End MoreSamples.

(** ** Vocabulary for properties of every run of a handler *)

Module Runs.

Import Routes.

(** Along every run of [c] from a state in [I] the state stays in [I],
    what is thrown is in [E] and what is returned is in [Q]. *)
Definition triple {A} (I : World -> Prop) (c : M World A) (E : thrown -> Prop)
    (Q : A -> Prop) : Prop :=
  forall w, I w ->
    I (fst (c w))
    /\ match snd (c w) with
       | inl e => E e
       | inr a => Q a
       end.

(** An [AppError] thrown carries one of the given status codes. *)
Definition throws_within (codes : list Z) (e : thrown) : Prop :=
  match e with
  | ThrowAppError a => In (statusCode a) codes
  | _ => True
  end.

Definition is_connect (o : Op) : bool :=
  match o with
  | Connect => true
  | _ => false
  end.

(** The calls of [mongoose.connect] so far. *)
Definition connects (w : World) : nat := length (List.filter is_connect (ops w)).

(** The calls of [mongoose.connect] so far, and the one still to come
    while no connection is cached. *)
Definition pending (w : World) : nat :=
  (connects w + (if cached_conn w then 0 else 1))%nat.

(** A request to one of the four handlers, and a process that serves
    requests one after the other. *)
Inductive Call :=
| CallGET (request : Request)
| CallPOST (request : Request)
| CallPUT (request : Request)
| CallDELETE (request : Request).

Definition answer `{Mongoose} (env : Env) (call : Call) : World -> World * Response :=
  match call with
  | CallGET request => GET env request
  | CallPOST request => POST env request
  | CallPUT request => PUT env request
  | CallDELETE request => DELETE env request
  end.

Fixpoint serve `{Mongoose} (env : Env) (calls : list Call) (w : World) : World :=
  match calls with
  | [] => w
  | call :: calls' => serve env calls' (fst (answer env call w))
  end.

(** The handler of the call gets as far as [dbConnect]: DELETE checks the
    id of the path before. *)
Definition reaches_db `{Mongoose} (call : Call) : bool :=
  match call with
  | CallDELETE request => ObjectId_isValid (params_id request)
  | _ => true
  end.

End Runs.

(** ** Vocabulary for further properties of the sanitizers *)

Module Growth.

Import Security.

(** The code units that the passes of [sanitizeString] add to [s]: seven
    for each less-than and greater-than sign (which end as [&amp;lt;] and
    [&amp;gt;]), four for each ampersand, five for each quote, apostrophe
    and slash. *)
Definition surplus (s : jsstring) : nat :=
  (7 * (occurrences LT s + occurrences GT s)
   + 4 * occurrences AMP s
   + 5 * (occurrences QUOT s + occurrences APOS s + occurrences SLASH s))%nat.

(** An array, and an object that is no array. *)
Definition is_array (v : value) : bool :=
  match v with
  | VArr _ => true
  | _ => false
  end.

Definition keys (v : value) : list jsstring := List.map fst (Object_entries v).

End Growth.

(** ** lib/security.ts: the format checks of [ValidationSchemas] *)

Module Formats.

Definition digit (c : code_unit) : bool := ((48 <=? c) && (c <=? 57))%N.

Definition hex_digit (c : code_unit) : bool :=
  (digit c || (65 <=? c) && (c <=? 70) || (97 <=? c) && (c <=? 102))%N.

Definition HASH : code_unit := 35%N.
Definition HYPHEN : code_unit := 45%N.

(** [/^#[0-9A-Fa-f]{6}$/.test(s)] *)
Definition hex_color (s : jsstring) : bool :=
  match s with
  | c :: rest => (c =? HASH)%N && (length rest =? 6)%nat && forallb hex_digit rest
  | [] => false
  end.

(** [/^\d{4}-\d{2}-\d{2}$/.test(s)] *)
Definition iso_date (s : jsstring) : bool :=
  match s with
  | [y1; y2; y3; y4; h1; m1; m2; h2; d1; d2] =>
      forallb digit [y1; y2; y3; y4; m1; m2; d1; d2]
      && (h1 =? HYPHEN)%N && (h2 =? HYPHEN)%N
  | _ => false
  end.

(** The members of the two [z.enum] lists. *)
Definition group_types : list jsstring :=
  [lit "family"; lit "roommates"; lit "personal"; lit "other"; lit "friends"].

Definition transaction_types : list jsstring := [lit "income"; lit "expense"].

(** Neither white space nor one of the six characters that
    [sanitizeString] rewrites. *)
Definition inert (c : code_unit) : bool := negb (Security.special c) && negb (is_ws c).

End Formats.

(** * Proofs *)

(** ** Strings: [trim] *)

Section TrimFacts.
Import JS.

Lemma trimStart_all_ws (w s : jsstring) :
  forallb is_ws w = true -> trimStart (w ++ s) = trimStart s.
Proof.
  induction w as [|c w IH]; simpl; [reflexivity|].
  intros H. apply andb_prop in H as [Hc Hw]. rewrite Hc. auto.
Qed.

Lemma trimStart_head (c : N) (s : jsstring) :
  is_ws c = false -> trimStart (c :: s) = c :: s.
Proof. intros H. simpl. now rewrite H. Qed.

Lemma trimStart_split (s : jsstring) :
  exists w, s = w ++ trimStart s /\ forallb is_ws w = true.
Proof.
  induction s as [|c s [w [Hs Hw]]]; simpl.
  - exists []. auto.
  - destruct (is_ws c) eqn:Hc.
    + exists (c :: w). simpl. rewrite Hc, Hw. split; [congruence | reflexivity].
    + exists []. auto.
Qed.

Lemma trimStart_trimmed_head (s : jsstring) (c : N) (t : jsstring) :
  trimStart s = c :: t -> is_ws c = false.
Proof.
  induction s as [|a s IH]; simpl; [discriminate|].
  destruct (is_ws a) eqn:Ha; [exact IH|]. intros [= <- _]. exact Ha.
Qed.

Lemma forallb_rev {A} (f : A -> bool) (l : list A) :
  forallb f (rev l) = forallb f l.
Proof.
  induction l as [|x l IH]; simpl; [reflexivity|].
  rewrite forallb_app, IH. simpl. rewrite andb_true_r. apply andb_comm.
Qed.

Lemma trimEnd_split (s : jsstring) :
  exists w, s = trimEnd s ++ w /\ forallb is_ws w = true.
Proof.
  destruct (trimStart_split (rev s)) as [w [Hs Hw]].
  exists (rev w). split.
  - unfold trimEnd. rewrite <- rev_app_distr, <- Hs. symmetry. apply rev_involutive.
  - now rewrite forallb_rev.
Qed.

Lemma trimEnd_app_ws (x w : jsstring) :
  forallb is_ws w = true -> trimEnd (x ++ w) = trimEnd x.
Proof.
  intros Hw. unfold trimEnd. rewrite rev_app_distr.
  rewrite trimStart_all_ws; [reflexivity|]. now rewrite forallb_rev.
Qed.

Lemma last_rev_head (c : N) (s : jsstring) (d : N) :
  List.last (c :: s) d = hd d (rev (c :: s)).
Proof.
  rewrite <- (rev_involutive (c :: s)) at 1.
  destruct (rev (c :: s)) as [|a r] eqn:E.
  - apply (f_equal (@length N)) in E. rewrite length_rev in E. discriminate.
  - simpl. now rewrite last_last.
Qed.

Lemma trimEnd_trimmed (x : jsstring) : trimmed x = true -> trimEnd x = x.
Proof.
  destruct x as [|c x]; [reflexivity|].
  unfold trimmed. intros H. apply andb_prop in H as [_ H].
  apply negb_true_iff in H. rewrite last_rev_head in H.
  unfold trimEnd. destruct (rev (c :: x)) as [|a r] eqn:E.
  - apply (f_equal (@length N)) in E. rewrite length_rev in E. discriminate.
  - simpl in H. rewrite trimStart_head by exact H.
    rewrite <- E. apply rev_involutive.
Qed.

(** [trim] returns the middle part of its argument. *)
Lemma trim_unique (w1 x w2 : jsstring) :
  forallb is_ws w1 = true -> forallb is_ws w2 = true -> trimmed x = true ->
  trim (w1 ++ x ++ w2) = x.
Proof.
  intros H1 H2 Hx. unfold trim. rewrite trimStart_all_ws by exact H1.
  destruct x as [|c x].
  - simpl. destruct (trimStart_split w2) as [w [Hs Hw]].
    assert (trimStart w2 = []) as ->; [|reflexivity].
    clear -H2. induction w2 as [|a w2 IH]; simpl in *; [reflexivity|].
    apply andb_prop in H2 as [Ha H2]. rewrite Ha. auto.
  - pose proof Hx as Hx'. unfold trimmed in Hx'. apply andb_prop in Hx' as [Hc _].
    apply negb_true_iff in Hc.
    change ((c :: x) ++ w2) with (c :: (x ++ w2)).
    rewrite trimStart_head by exact Hc.
    change (c :: (x ++ w2)) with ((c :: x) ++ w2).
    rewrite trimEnd_app_ws by exact H2. now apply trimEnd_trimmed.
Qed.

Lemma trimEnd_head (s : jsstring) (c : N) (t : jsstring) :
  trimEnd s = c :: t -> exists t', s = c :: t'.
Proof.
  intros H. destruct (trimEnd_split s) as [w [Hs _]].
  rewrite H in Hs. simpl in Hs. eauto.
Qed.

Lemma trim_trimmed (s : jsstring) : trimmed (trim s) = true.
Proof.
  unfold trim. destruct (trimEnd (trimStart s)) as [|c t] eqn:E; [reflexivity|].
  unfold trimmed. apply andb_true_intro. split; apply negb_true_iff.
  - destruct (trimEnd_head _ _ _ E) as [t' Ht'].
    now apply trimStart_trimmed_head in Ht'.
  - rewrite last_rev_head. unfold trimEnd in E.
    apply (f_equal (@rev N)) in E. rewrite rev_involutive in E.
    destruct (rev (c :: t)) as [|a r] eqn:E'.
    + apply (f_equal (@length N)) in E'. rewrite length_rev in E'. discriminate.
    + simpl. now apply trimStart_trimmed_head in E.
Qed.

Lemma trim_split (s : jsstring) :
  exists w1 w2, s = w1 ++ trim s ++ w2
                /\ forallb is_ws w1 = true /\ forallb is_ws w2 = true.
Proof.
  destruct (trimStart_split s) as [w1 [H1 Hw1]].
  destruct (trimEnd_split (trimStart s)) as [w2 [H2 Hw2]].
  exists w1, w2. unfold trim. rewrite <- H2. auto.
Qed.

Lemma trim_idempotent (s : jsstring) : trim (trim s) = trim s.
Proof.
  rewrite <- (app_nil_r (trim s)) at 1.
  apply (trim_unique [] (trim s) []); auto using trim_trimmed.
Qed.


Lemma in_trim (c : N) (s : jsstring) : In c (trim s) -> In c s.
Proof.
  intros H. destruct (trim_split s) as [w1 [w2 [Hs _]]].
  rewrite Hs. apply in_or_app. right. apply in_or_app. now left.
Qed.

End TrimFacts.

(** ** Strings: the escaping passes *)

Section EscapeFacts.
Import JS Security.

Lemma replace_all_app (c : N) (r a b : jsstring) :
  replace_all c r (a ++ b) = replace_all c r a ++ replace_all c r b.
Proof. unfold replace_all. apply flat_map_app. Qed.

Lemma passes_app (a b : jsstring) : passes (a ++ b) = passes a ++ passes b.
Proof. unfold passes. now rewrite !replace_all_app. Qed.

Lemma passes_one (c : N) : passes [c] = escape_char c.
Proof.
  unfold escape_char.
  destruct (N.eqb_spec c LT) as [->|H1]; [reflexivity|].
  destruct (N.eqb_spec c GT) as [->|H2]; [reflexivity|].
  destruct (N.eqb_spec c AMP) as [->|H3]; [reflexivity|].
  destruct (N.eqb_spec c QUOT) as [->|H4]; [reflexivity|].
  destruct (N.eqb_spec c APOS) as [->|H5]; [reflexivity|].
  destruct (N.eqb_spec c SLASH) as [->|H6]; [reflexivity|].
  apply N.eqb_neq in H1, H2, H3, H4, H5, H6.
  unfold passes, replace_all. simpl.
  rewrite H1. simpl. rewrite H2. simpl. rewrite H3. simpl.
  rewrite H4. simpl. rewrite H5. simpl. rewrite H6. reflexivity.
Qed.

(** The six passes rewrite each code unit on its own. *)
Lemma passes_flat_map (s : jsstring) : passes s = flat_map escape_char s.
Proof.
  induction s as [|c s IH]; [reflexivity|].
  change (c :: s) with ([c] ++ s). rewrite passes_app, passes_one, IH.
  reflexivity.
Qed.

Lemma sanitizeString_escape (s : jsstring) :
  sanitizeString s = trim (flat_map escape_char s).
Proof.
  destruct s as [|c s]; [reflexivity|].
  rewrite <- passes_flat_map. reflexivity.
Qed.

Lemma escape_char_plain (c : N) : special c = false -> escape_char c = [c].
Proof.
  unfold special, escape_char. intros H.
  repeat (apply orb_false_elim in H as [H ?]).
  now repeat match goal with E : (_ =? _)%N = false |- _ => rewrite E; clear E end.
Qed.

Lemma ws_not_special (c : N) : is_ws c = true -> special c = false.
Proof.
  unfold special, LT, GT, AMP, QUOT, APOS, SLASH. intros H.
  repeat (apply orb_false_intro); apply N.eqb_neq; intros ->; discriminate H.
Qed.

Lemma escape_plain (s : jsstring) :
  forallb (fun c => negb (special c)) s = true -> flat_map escape_char s = s.
Proof.
  induction s as [|c s IH]; simpl; [reflexivity|].
  intros H. apply andb_prop in H as [Hc Hs]. apply negb_true_iff in Hc.
  rewrite escape_char_plain by exact Hc. simpl. now rewrite IH.
Qed.

Lemma escape_all_ws (w : jsstring) :
  forallb is_ws w = true -> flat_map escape_char w = w.
Proof.
  intros H. apply escape_plain. rewrite forallb_forall in *.
  intros c Hc. apply negb_true_iff, ws_not_special. auto.
Qed.

(** Case analysis on a code unit: one of the six, or none of them. *)
Lemma special_cases (c : N) :
  special c = false \/ c = LT \/ c = GT \/ c = AMP \/ c = QUOT \/ c = APOS
  \/ c = SLASH.
Proof.
  unfold special.
  destruct (N.eqb_spec c LT); [tauto|]. destruct (N.eqb_spec c GT); [tauto|].
  destruct (N.eqb_spec c AMP); [tauto|]. destruct (N.eqb_spec c QUOT); [tauto|].
  destruct (N.eqb_spec c APOS); [tauto|]. destruct (N.eqb_spec c SLASH); [tauto|].
  now left.
Qed.

End EscapeFacts.

Ltac by_special c H :=
  destruct (special_cases c) as [H|[->|[->|[->|[->|[->| ->]]]]]].

Section EscapedShape.
Import JS Security.

Lemma escape_char_trimmed (c : N) :
  is_ws c = false -> trimmed (escape_char c) = true.
Proof.
  intros Hc.
  by_special c H; try reflexivity.
  rewrite escape_char_plain by exact H. unfold trimmed. simpl. now rewrite Hc.
Qed.

Lemma escape_char_nonempty (c : N) : escape_char c <> [].
Proof.
  by_special c H; try discriminate.
  now rewrite escape_char_plain.
Qed.

Lemma last_app_nonempty (a b : jsstring) (d : N) :
  b <> [] -> List.last (a ++ b) d = List.last b d.
Proof.
  intros Hb. induction a as [|x a IH]; [reflexivity|].
  simpl. destruct (a ++ b) eqn:E; [|exact IH].
  apply app_eq_nil in E as [_ ->]. now contradiction Hb.
Qed.

Lemma trimmed_last (s : jsstring) (c : N) :
  trimmed (s ++ [c]) = true -> is_ws c = false.
Proof.
  unfold trimmed. destruct (s ++ [c]) as [|a t] eqn:E.
  - now destruct s.
  - intros H. apply andb_prop in H as [_ H]. apply negb_true_iff in H.
    rewrite <- E in H. now rewrite last_last in H.
Qed.

Lemma trimmed_intro (a : N) (s : jsstring) (z : N) :
  is_ws a = false -> is_ws (List.last (a :: s) z) = false ->
  trimmed (a :: s) = true.
Proof.
  intros Ha Hz. unfold trimmed. rewrite Ha.
  rewrite (last_rev_head a s z) in Hz. rewrite (last_rev_head a s 0%N).
  destruct (rev (a :: s)) as [|x r] eqn:E.
  - apply (f_equal (@length N)) in E. rewrite length_rev in E. discriminate.
  - simpl in *. now rewrite Hz.
Qed.

(** Escaping keeps a string trimmed: the first and the last code unit
    stay, or become a text that starts with [&] and ends with [;]. *)
Lemma escape_trimmed (s : jsstring) :
  trimmed s = true -> trimmed (flat_map escape_char s) = true.
Proof.
  destruct s as [|a s]; [reflexivity|]. intros H.
  pose proof H as H'. unfold trimmed in H'. apply andb_prop in H' as [Ha Hl].
  apply negb_true_iff in Ha, Hl.
  pose proof (escape_char_trimmed a Ha) as Ta.
  destruct (escape_char a) as [|x xs] eqn:Ea; [now apply escape_char_nonempty in Ea|].
  simpl. rewrite Ea. simpl.
  unfold trimmed in Ta. apply andb_prop in Ta as [Tx Tl].
  apply negb_true_iff in Tx, Tl.
  apply (trimmed_intro x _ 0%N); [exact Tx|].
  destruct (@exists_last _ (a :: s)) as [p [z Hz]]; [discriminate|].
  rewrite Hz in Hl. rewrite last_last in Hl.
  change (x :: xs ++ flat_map escape_char s) with ((x :: xs) ++ flat_map escape_char s).
  rewrite <- Ea.
  change (escape_char a ++ flat_map escape_char s) with (flat_map escape_char (a :: s)).
  rewrite Hz, flat_map_app. simpl. rewrite app_nil_r.
  rewrite last_app_nonempty by apply escape_char_nonempty.
  pose proof (escape_char_trimmed z Hl) as Tz.
  destruct (escape_char z) as [|y ys] eqn:Ez; [now apply escape_char_nonempty in Ez|].
  unfold trimmed in Tz. apply andb_prop in Tz as [_ Tz]. now apply negb_true_iff in Tz.
Qed.

(** [sanitizeString] escapes the trimmed input. *)
Lemma sanitizeString_trim_first (s : jsstring) :
  sanitizeString s = flat_map escape_char (trim s).
Proof.
  rewrite sanitizeString_escape.
  destruct (trim_split s) as [w1 [w2 [Hs [H1 H2]]]].
  rewrite Hs at 1. rewrite !flat_map_app, (escape_all_ws w1), (escape_all_ws w2) by assumption.
  apply trim_unique; auto. apply escape_trimmed, trim_trimmed.
Qed.


End EscapedShape.

(** ** Strings: what the output looks like *)

Section OutputFacts.
Import JS Security.

Lemma count_app (c : N) (a b : jsstring) : occurrences c (a ++ b) = (occurrences c a + occurrences c b)%nat.
Proof. unfold occurrences. now rewrite List.filter_app, length_app. Qed.

Lemma count_special_app (a b : jsstring) :
  count_special (a ++ b) = (count_special a + count_special b)%nat.
Proof. unfold count_special. now rewrite List.filter_app, length_app. Qed.

Lemma count_all_ws (c : N) (w : jsstring) :
  is_ws c = false -> forallb is_ws w = true -> occurrences c w = 0%nat.
Proof.
  intros Hc. unfold occurrences. induction w as [|a w IH]; simpl; [reflexivity|].
  intros H. apply andb_prop in H as [Ha Hw].
  destruct (N.eqb_spec c a) as [->|_]; [congruence | auto].
Qed.

Lemma count_trim (c : N) (s : jsstring) :
  is_ws c = false -> occurrences c (trim s) = occurrences c s.
Proof.
  intros Hc. destruct (trim_split s) as [w1 [w2 [Hs [H1 H2]]]].
  rewrite Hs at 2. rewrite !count_app.
  rewrite (count_all_ws c w1), (count_all_ws c w2) by assumption. lia.
Qed.

Lemma count_escape_char_semi (c : N) :
  (occurrences SEMI [c] + count_special [c] <= occurrences SEMI (escape_char c))%nat.
Proof.
  by_special c H; try (vm_compute; lia).
  rewrite escape_char_plain by exact H. unfold count_special. simpl.
  rewrite H. simpl. lia.
Qed.

Lemma count_escape_char_amp (c : N) :
  occurrences AMP (escape_char c) = count_special [c].
Proof.
  by_special c H; try reflexivity.
  rewrite escape_char_plain by exact H. unfold count_special, occurrences.
  cbn [List.filter]. rewrite H.
  destruct (N.eqb_spec AMP c) as [<-|_]; [discriminate H | reflexivity].
Qed.

Lemma count_escape_semi (s : jsstring) :
  (occurrences SEMI s + count_special s <= occurrences SEMI (flat_map escape_char s))%nat.
Proof.
  induction s as [|c s IH]; [reflexivity|].
  simpl flat_map. change (c :: s) with ([c] ++ s).
  rewrite !count_app, count_special_app.
  pose proof (count_escape_char_semi c). lia.
Qed.

Lemma count_escape_amp (s : jsstring) :
  occurrences AMP (flat_map escape_char s) = count_special s.
Proof.
  induction s as [|c s IH]; [reflexivity|].
  simpl flat_map. change (c :: s) with ([c] ++ s).
  rewrite count_app, count_special_app, count_escape_char_amp, IH. reflexivity.
Qed.

Lemma count_amp_le_special (s : jsstring) : (occurrences AMP s <= count_special s)%nat.
Proof.
  unfold occurrences, count_special. induction s as [|c s IH]; [reflexivity|].
  cbn [List.filter]. destruct (N.eqb_spec AMP c) as [<-|_].
  - change (special AMP) with true. cbn [length]. lia.
  - destruct (special c); cbn [length]; lia.
Qed.

Lemma count_special_zero (s : jsstring) :
  count_special s = 0%nat <-> forallb (fun c => negb (special c)) s = true.
Proof.
  unfold count_special. induction s as [|c s IH]; [simpl; tauto|].
  cbn [List.filter forallb]. destruct (special c); cbn [length negb andb];
    [split; [lia | discriminate] | exact IH].
Qed.

(** Sanitizing a string that holds one of the six characters gives a
    string that holds one again, and at least one more [;] for each of
    them. *)
Lemma sanitizeString_count_special (s : jsstring) :
  (count_special s <= count_special (sanitizeString s))%nat.
Proof.
  rewrite sanitizeString_escape.
  rewrite <- (count_escape_amp s), <- (count_trim AMP) by reflexivity.
  apply count_amp_le_special.
Qed.

Lemma sanitizeString_count_semi (s : jsstring) :
  (occurrences SEMI s + count_special s <= occurrences SEMI (sanitizeString s))%nat.
Proof.
  rewrite sanitizeString_escape, count_trim by reflexivity.
  apply count_escape_semi.
Qed.

Lemma sanitizeString_plain (s : jsstring) :
  forallb (fun c => negb (special c)) s = true -> sanitizeString s = trim s.
Proof. intros H. rewrite sanitizeString_escape. now rewrite escape_plain. Qed.

Lemma trim_plain (s : jsstring) :
  forallb (fun c => negb (special c)) s = true ->
  forallb (fun c => negb (special c)) (trim s) = true.
Proof.
  rewrite !forallb_forall. intros H c Hc. apply H. now apply in_trim.
Qed.

Lemma sanitizeString_idem_plain (s : jsstring) :
  forallb (fun c => negb (special c)) s = true ->
  sanitizeString (sanitizeString s) = sanitizeString s.
Proof.
  intros H. rewrite (sanitizeString_plain s H).
  rewrite sanitizeString_plain by now apply trim_plain.
  apply trim_idempotent.
Qed.

Lemma sanitizeString_not_idem (s : jsstring) :
  forallb (fun c => negb (special c)) s = false ->
  sanitizeString (sanitizeString s) <> sanitizeString s.
Proof.
  intros H E. apply (f_equal (occurrences SEMI)) in E.
  pose proof (sanitizeString_count_semi (sanitizeString s)) as Hs.
  pose proof (sanitizeString_count_special s) as Hle.
  assert (count_special s <> 0%nat) as Hnz.
  { intros Hz. apply count_special_zero in Hz. congruence. }
  lia.
Qed.

(** *** Well-escaped output *)

Lemma startsWith_app_ws (e a w : jsstring) :
  forallb (fun c => negb (is_ws c)) e = true -> forallb is_ws w = true ->
  startsWith (a ++ w) e = true -> startsWith a e = true.
Proof.
  revert a. induction e as [|x e IH]; intros a He Hw H; [now destruct a|].
  simpl in He. apply andb_prop in He as [Hx He]. apply negb_true_iff in Hx.
  destruct a as [|y a].
  - simpl in H. destruct w as [|z w]; [discriminate|].
    simpl in H, Hw. apply andb_prop in H as [H _]. apply andb_prop in Hw as [Hz _].
    apply N.eqb_eq in H. subst. congruence.
  - simpl in *. apply andb_prop in H as [H1 H2]. rewrite H1. simpl. eauto.
Qed.

Lemma entities_no_ws :
  forallb (forallb (fun c => negb (is_ws c))) entities = true.
Proof. reflexivity. Qed.

Lemma existsb_startsWith_app_ws (a w : jsstring) :
  forallb is_ws w = true ->
  existsb (startsWith (a ++ w)) entities = true ->
  existsb (startsWith a) entities = true.
Proof.
  intros Hw H. apply existsb_exists in H as [e [He H]].
  apply existsb_exists. exists e. split; [exact He|].
  apply (startsWith_app_ws e a w); auto.
  pose proof entities_no_ws as Hn. rewrite forallb_forall in Hn. auto.
Qed.

Lemma well_escaped_tail (c : N) (s : jsstring) :
  well_escaped (c :: s) = true -> well_escaped s = true.
Proof. simpl. intros H. now apply andb_prop in H as [_ H]. Qed.

Lemma well_escaped_suffix (a b : jsstring) :
  well_escaped (a ++ b) = true -> well_escaped b = true.
Proof. induction a as [|c a IH]; [auto|]. intros H. apply IH. now apply well_escaped_tail in H. Qed.

Lemma well_escaped_drop_ws (a w : jsstring) :
  forallb is_ws w = true -> well_escaped (a ++ w) = true -> well_escaped a = true.
Proof.
  intros Hw. induction a as [|c a IH]; [reflexivity|].
  intros H. change ((c :: a) ++ w) with (c :: (a ++ w)) in H.
  cbn [well_escaped] in *. apply andb_prop in H as [H1 H2].
  rewrite (IH H2), andb_true_r.
  destruct (c =? AMP)%N; [|exact H1].
  now apply (existsb_startsWith_app_ws (c :: a) w).
Qed.

Lemma well_escaped_trim (s : jsstring) :
  well_escaped s = true -> well_escaped (trim s) = true.
Proof.
  intros H. destruct (trim_split s) as [w1 [w2 [Hs [_ H2]]]].
  rewrite Hs in H. apply well_escaped_suffix in H.
  now apply well_escaped_drop_ws in H.
Qed.

Lemma startsWith_app (p s t : jsstring) :
  startsWith s p = true -> startsWith (s ++ t) p = true.
Proof.
  revert s. induction p as [|a p IH]; intros s H; [reflexivity|].
  destruct s as [|b s]; [discriminate|]. simpl in *.
  apply andb_prop in H as [H1 H2]. rewrite H1. simpl. auto.
Qed.

Lemma well_escaped_app (e t : jsstring) :
  well_escaped e = true -> well_escaped t = true -> well_escaped (e ++ t) = true.
Proof.
  intros He Ht. induction e as [|c e IH]; [exact Ht|].
  change ((c :: e) ++ t) with (c :: (e ++ t)).
  cbn [well_escaped] in *. apply andb_prop in He as [H1 H2].
  rewrite (IH H2), andb_true_r.
  destruct (c =? AMP)%N; [|exact H1].
  apply existsb_exists in H1 as [x [Hx H1]]. apply existsb_exists.
  exists x. split; [exact Hx|]. now apply (startsWith_app x (c :: e) t).
Qed.

Lemma well_escaped_escape_char (c : N) : well_escaped (escape_char c) = true.
Proof.
  by_special c H; try (vm_compute; reflexivity).
  rewrite escape_char_plain by exact H. cbn [well_escaped].
  rewrite andb_true_r. unfold special in H.
  repeat (apply orb_false_elim in H as [H ?]).
  match goal with E : (c =? AMP)%N = false |- _ => rewrite E end.
  unfold raw_markup. apply negb_true_iff.
  repeat (apply orb_false_intro); assumption.
Qed.

Lemma well_escaped_escape (s : jsstring) :
  well_escaped (flat_map escape_char s) = true.
Proof.
  induction s as [|c s IH]; [reflexivity|]. simpl flat_map.
  apply well_escaped_app; [apply well_escaped_escape_char | exact IH].
Qed.

Lemma sanitizeString_well_escaped (s : jsstring) :
  well_escaped (sanitizeString s) = true.
Proof.
  rewrite sanitizeString_escape. apply well_escaped_trim, well_escaped_escape.
Qed.

(** What [well_escaped] says at one position of the string. *)
Lemma well_escaped_at (pre : jsstring) (c : N) (rest : jsstring) :
  well_escaped (pre ++ c :: rest) = true ->
  raw_markup c = false
  /\ (c = AMP -> exists e tail, In e entities /\ c :: rest = e ++ tail).
Proof.
  intros H. apply well_escaped_suffix in H. cbn [well_escaped] in H.
  apply andb_prop in H as [H _]. split.
  - destruct (N.eqb_spec c AMP) as [->|_]; [reflexivity|].
    now apply negb_true_iff in H.
  - intros ->. cbn [N.eqb AMP Pos.eqb] in H.
    apply existsb_exists in H as [e [He H]].
    assert (forall (p s : jsstring), startsWith s p = true -> exists t, s = p ++ t) as Hp.
    { clear. induction p as [|a p IH]; intros s H; [now exists s|].
      destruct s as [|b s]; [discriminate|]. simpl in H.
      apply andb_prop in H as [H1 H2]. apply N.eqb_eq in H1. subst.
      destruct (IH s H2) as [t ->]. now exists t. }
    destruct (Hp _ _ H) as [t Ht]. exists e, t. split; assumption.
Qed.

End OutputFacts.

(** ** Objects: [sanitizeObject] *)


Section ObjectFacts.
Import JS Security.

Lemma flat_assigned (f : value -> value) (fields : list (jsstring * value)) :
  flat_map (fun kv => assigned (fst kv) (f (snd kv))) fields
  = List.map (on_value f) (List.filter (fun kv => settable (fst kv)) fields).
Proof.
  induction fields as [|[k v] fields IH]; [reflexivity|].
  cbn [flat_map List.filter fst snd]. unfold assigned at 1.
  destruct (settable k); cbn [app List.map]; now rewrite IH.
Qed.

Lemma sanitizeObject_obj (fields : list (jsstring * value)) :
  sanitizeObject (VObj fields)
  = VObj (List.map (on_value sanitizeField)
            (List.filter (fun kv => settable (fst kv)) fields)).
Proof. rewrite <- flat_assigned. reflexivity. Qed.

Lemma sanitizeObject_arr (items : list value) :
  sanitizeObject (VArr items) = VObj (index_from 0 (List.map sanitizeField items)).
Proof. reflexivity. Qed.

Lemma index_from_map {A B} (f : A -> B) (i : nat) (l : list A) :
  index_from i (List.map f l)
  = List.map (fun kv => (fst kv, f (snd kv))) (index_from i l).
Proof.
  revert i. induction l as [|x l IH]; intros i; simpl; [reflexivity|].
  now rewrite IH.
Qed.

Lemma assoc_map {A B} (f : A -> B) (k : jsstring) (l : list (jsstring * A)) :
  assoc k (List.map (fun kv => (fst kv, f (snd kv))) l) = option_map f (assoc k l).
Proof.
  induction l as [|[k' v] l IH]; simpl; [reflexivity|].
  destruct (key_eqb k' k); [reflexivity | exact IH].
Qed.

(** Filtering out [__proto__] is not seen under any other key, and leaves
    nothing under [__proto__]. *)
Lemma assoc_settable {A} (k : jsstring) (l : list (jsstring * A)) :
  settable k = true ->
  assoc k (List.filter (fun kv => settable (fst kv)) l) = assoc k l.
Proof.
  intros Hk. induction l as [|[k' v] l IH]; [reflexivity|].
  cbn [List.filter fst assoc]. destruct (settable k') eqn:E; cbn [assoc].
  - now rewrite IH.
  - rewrite IH. destruct (key_eqb k' k) eqn:Ek; [|reflexivity].
    apply bool_decide_eq_true in Ek. congruence.
Qed.

Lemma assoc_not_settable {A} (k : jsstring) (l : list (jsstring * A)) :
  settable k = false ->
  assoc k (List.filter (fun kv => settable (fst kv)) l) = None.
Proof.
  intros Hk. induction l as [|[k' v] l IH]; [reflexivity|].
  cbn [List.filter fst]. destruct (settable k') eqn:E; [|exact IH].
  cbn [assoc]. destruct (key_eqb k' k) eqn:Ek; [|exact IH].
  apply bool_decide_eq_true in Ek. congruence.
Qed.

Lemma uint_head_digit (d : Decimal.uint) :
  match lit (NilZero.string_of_uint d) with
  | c :: _ => (48 <=? c)%N && (c <=? 57)%N = true
  | [] => False
  end.
Proof. destruct d; reflexivity. Qed.

Lemma index_key_settable (i : nat) : settable (index_key i) = true.
Proof.
  apply negb_true_iff, bool_decide_eq_false. unfold index_key. intros E.
  pose proof (uint_head_digit (Nat.to_uint i)) as Hd. rewrite E in Hd.
  discriminate Hd.
Qed.

Lemma index_from_settable {A} (i : nat) (l : list A) :
  List.filter (fun kv => settable (fst kv)) (index_from i l) = index_from i l.
Proof.
  revert i. induction l as [|x l IH]; intros i; [reflexivity|].
  cbn [index_from List.filter fst]. now rewrite index_key_settable, IH.
Qed.

Lemma get_prop_sanitizeObject_obj fields k :
  settable k = true ->
  get_prop (sanitizeObject (VObj fields)) k
  = option_map sanitizeField (get_prop (VObj fields) k).
Proof.
  intros Hk. rewrite sanitizeObject_obj. unfold get_prop. cbn [Object_entries].
  unfold on_value. now rewrite assoc_map, assoc_settable.
Qed.

Lemma get_prop_sanitizeObject_proto fields k :
  settable k = false -> get_prop (sanitizeObject (VObj fields)) k = None.
Proof.
  intros Hk. rewrite sanitizeObject_obj. unfold get_prop. cbn [Object_entries].
  unfold on_value. now rewrite assoc_map, assoc_not_settable.
Qed.

Lemma get_prop_sanitizeObject_arr items k :
  get_prop (sanitizeObject (VArr items)) k
  = option_map sanitizeField (get_prop (VArr items) k).
Proof.
  rewrite sanitizeObject_arr. unfold get_prop. simpl.
  rewrite index_from_map. apply assoc_map.
Qed.

Lemma get_prop_sanitizeField_arr items k :
  get_prop (sanitizeField (VArr items)) k
  = option_map sanitizeItem (get_prop (VArr items) k).
Proof.
  unfold get_prop. simpl. rewrite index_from_map. apply assoc_map.
Qed.

(** A value other than a string that is reached by a path of property
    keys, none of them [__proto__], is reached by the same path after
    sanitization, whichever of the three entry points has handled the
    enclosing value. *)
Lemma path_kept (p : list jsstring) :
  forall x v,
    forallb settable p = true ->
    get_path x p = Some v -> non_string_leaf v = true ->
    get_path (sanitizeObject x) p = Some v
    /\ get_path (sanitizeField x) p = Some v
    /\ get_path (sanitizeItem x) p = Some v.
Proof.
  induction p as [|k p IH]; intros x v Hp Hx Hv.
  - simpl in Hx. injection Hx as ->. destruct v; try discriminate; auto.
  - cbn [forallb] in Hp. apply andb_prop in Hp as [Hk Hp].
    cbn [get_path] in Hx. destruct (get_prop x k) as [w|] eqn:Hw; [|discriminate].
    destruct (IH w v Hp Hx Hv) as [_ [Hf Hi]].
    destruct x as [| | | | |items|fields]; try discriminate.
    + assert (get_path (sanitizeObject (VArr items)) (k :: p) = Some v) as Ho.
      { cbn [get_path]. now rewrite get_prop_sanitizeObject_arr, Hw. }
      repeat split; [exact Ho | | exact Ho].
      cbn [get_path]. now rewrite get_prop_sanitizeField_arr, Hw.
    + assert (get_path (sanitizeObject (VObj fields)) (k :: p) = Some v) as Ho.
      { cbn [get_path]. now rewrite (get_prop_sanitizeObject_obj fields k Hk), Hw. }
      repeat split; exact Ho.
Qed.

Lemma map_fixed {A} (f : A -> A) (Q : A -> Prop) (l : list A) :
  Forall Q l -> (forall x, Q x -> f (f x) = f x) ->
  List.map f (List.map f l) = List.map f l.
Proof.
  intros Hl Hf. induction Hl as [|x l Hx _ IH]; simpl; [reflexivity|].
  now rewrite Hf, IH.
Qed.

Lemma filter_settable_map (f : value -> value) (l : list (jsstring * value)) :
  List.filter (fun kv => settable (fst kv)) (List.map (on_value f) l)
  = List.map (on_value f) (List.filter (fun kv => settable (fst kv)) l).
Proof.
  induction l as [|[k v] l IH]; [reflexivity|].
  cbn [List.map List.filter on_value fst]. destruct (settable k); cbn [List.map];
    now rewrite IH.
Qed.

Lemma filter_settable_twice {A} (l : list (jsstring * A)) :
  List.filter (fun kv => settable (fst kv)) (List.filter (fun kv => settable (fst kv)) l)
  = List.filter (fun kv => settable (fst kv)) l.
Proof.
  induction l as [|[k v] l IH]; [reflexivity|].
  cbn [List.filter fst]. destruct (settable k) eqn:E; [|exact IH].
  cbn [List.filter fst]. now rewrite E, IH.
Qed.

Lemma Forall_filter_keep {A} (P : A -> Prop) (f : A -> bool) (l : list A) :
  Forall P l -> Forall P (List.filter f l).
Proof.
  induction 1 as [|x l Hx _ IH]; cbn; [constructor|].
  destruct (f x); [now constructor | exact IH].
Qed.

(** On values whose strings hold none of the six characters a second
    sanitization changes nothing. *)
Lemma sanitize_values_idem_plain (v : value) :
  plain_value v = true ->
  sanitizeObject (sanitizeObject v) = sanitizeObject v
  /\ sanitizeField (sanitizeField v) = sanitizeField v
  /\ sanitizeItem (sanitizeItem v) = sanitizeItem v.
Proof.
  induction v as [| | | |s|items IH|fields IH] using value_nested_ind;
    intros Hp; try (repeat split; reflexivity).
  - simpl in Hp. repeat split; simpl; try reflexivity;
      now rewrite sanitizeString_idem_plain.
  - simpl in Hp. rewrite forallb_forall in Hp.
    assert (Forall (fun x => plain_value x = true /\
                     (plain_value x = true ->
                        sanitizeObject (sanitizeObject x) = sanitizeObject x
                        /\ sanitizeField (sanitizeField x) = sanitizeField x
                        /\ sanitizeItem (sanitizeItem x) = sanitizeItem x)) items) as H.
    { rewrite List.Forall_forall in *. intros x Hx. split; [now apply Hp | now apply IH]. }
    assert (sanitizeObject (sanitizeObject (VArr items)) = sanitizeObject (VArr items)) as Ho.
    { rewrite sanitizeObject_arr, sanitizeObject_obj, index_from_settable. f_equal.
      unfold on_value. rewrite <- index_from_map. f_equal.
      apply (map_fixed _ _ _ H). intros x [Hx Hx']. now apply Hx'. }
    repeat split; [exact Ho | | exact Ho].
    cbn [sanitizeField]. f_equal.
    apply (map_fixed _ _ _ H). intros x [Hx Hx']. now apply Hx'.
  - simpl in Hp. rewrite forallb_forall in Hp.
    assert (sanitizeObject (sanitizeObject (VObj fields)) = sanitizeObject (VObj fields)) as Ho.
    { rewrite !sanitizeObject_obj. f_equal.
      rewrite filter_settable_map, filter_settable_twice.
      assert (Forall (fun kv => plain_value (snd kv) = true /\
                 (plain_value (snd kv) = true ->
                    sanitizeObject (sanitizeObject (snd kv)) = sanitizeObject (snd kv)
                    /\ sanitizeField (sanitizeField (snd kv)) = sanitizeField (snd kv)
                    /\ sanitizeItem (sanitizeItem (snd kv)) = sanitizeItem (snd kv))) fields) as H.
      { rewrite List.Forall_forall in *. intros x Hx. split; [now apply Hp | now apply IH]. }
      apply (Forall_filter_keep _ (fun kv => settable (fst kv))) in H.
      apply (map_fixed _ _ _ H). intros [k x] [Hx Hx']. unfold on_value. simpl in *.
      f_equal. now apply Hx'. }
    repeat split; exact Ho.
Qed.

End ObjectFacts.

(** ** Claims on lib/security.ts *)

Section SecurityClaims.
Import JS Security.

(** C1 (as stated it fails): sanitization is not idempotent.  Ampersands
    are escaped, so the ampersand written by the first run is escaped
    again by the second: ["a&b"] becomes ["a&amp;b"] and then
    ["a&amp;amp;b"], for a string and for a field of an object alike. *)
Lemma sanitize_twice_differs :
  sanitizeString (lit "a&b") = lit "a&amp;b"
  /\ sanitizeString (sanitizeString (lit "a&b")) = lit "a&amp;amp;b"
  /\ sanitizeString (sanitizeString (lit "a&b")) <> sanitizeString (lit "a&b")
  /\ sanitizeObject (sanitizeObject (VObj [(lit "name", VLit "a&b")]))
     <> sanitizeObject (VObj [(lit "name", VLit "a&b")]).
Proof.
  split; [vm_compute; reflexivity|].
  split; [vm_compute; reflexivity|].
  split; vm_compute; discriminate.
Qed.

(** C1 (amended): [sanitizeString (sanitizeString s) = sanitizeString s]
    holds exactly for the strings [s] that contain none of the six
    characters (less-than, greater-than, ampersand, double quote,
    apostrophe, slash); and
    [sanitizeObject (sanitizeObject x) = sanitizeObject x] holds for every
    value [x] all of whose strings contain none of them. *)
Theorem sanitize_idempotent_on_plain :
  (forall s : jsstring,
      sanitizeString (sanitizeString s) = sanitizeString s
      <-> forallb (fun c => negb (special c)) s = true)
  /\ (forall x : value,
         plain_value x = true ->
         sanitizeObject (sanitizeObject x) = sanitizeObject x).
Proof.
  split.
  - intros s. split.
    + intros H. destruct (forallb (fun c => negb (special c)) s) eqn:E; [reflexivity|].
      now apply sanitizeString_not_idem in E.
    + apply sanitizeString_idem_plain.
  - intros x Hx. now apply sanitize_values_idem_plain.
Qed.

(** C2 (the code departs from it): in the output of [sanitizeString] no
    less-than, greater-than, double quote, apostrophe or slash is left,
    and every ampersand opens one of the replacement texts; the output is
    the trimmed input with each code unit rewritten by [escape_char].
    [sanitizeObject] keeps a number, boolean, [null] or [undefined] where
    it was when no key of the path that leads to it is [__proto__]: the
    same path leads to the same value afterwards, through nested objects
    and arrays.  A field under the own key [__proto__], as [JSON.parse]
    creates it, is lost instead: [result[key] = value] creates no
    property there, so [{"__proto__": 5, "k": 1}] comes back as
    [{"k": 1}]. *)
Theorem sanitize_escapes_but_drops_proto_fields :
  (forall (s pre : jsstring) (c : N) (rest : jsstring),
      sanitizeString s = pre ++ c :: rest ->
      raw_markup c = false
      /\ (c = AMP -> exists e tail, In e entities /\ c :: rest = e ++ tail))
  /\ (forall s : jsstring, sanitizeString s = flat_map escape_char (trim s))
  /\ (forall (x : value) (p : list jsstring) (v : value),
         forallb settable p = true ->
         get_path x p = Some v -> non_string_leaf v = true ->
         get_path (sanitizeObject x) p = Some v)
  /\ (forall fields : list (jsstring * value),
         get_prop (sanitizeObject (VObj fields)) PROTO = None)
  /\ (get_path (VObj [(PROTO, VNum 5); (lit "k", VNum 1)]) [PROTO] = Some (VNum 5)
      /\ non_string_leaf (VNum 5) = true
      /\ sanitizeObject (VObj [(PROTO, VNum 5); (lit "k", VNum 1)])
         = VObj [(lit "k", VNum 1)]
      /\ get_path (sanitizeObject (VObj [(PROTO, VNum 5); (lit "k", VNum 1)])) [PROTO]
         = None).
Proof.
  split; [|split; [|split; [|split]]].
  - intros s pre c rest H. apply (well_escaped_at pre c rest).
    rewrite <- H. apply sanitizeString_well_escaped.
  - apply sanitizeString_trim_first.
  - intros x p v Hs Hp Hv. now destruct (path_kept p x v Hs Hp Hv).
  - intros fields. now apply get_prop_sanitizeObject_proto.
  - repeat split; vm_compute; reflexivity.
Qed.


End SecurityClaims.

(** ** Claims on lib/error-handler.ts *)

Section ErrorHandlerClaims.
Import JS Http ErrorHandler.

Lemma error_envelope_details (t : ErrorType) (m : jsstring) (d : option value)
    (err : value) :
  get_prop (error_envelope t m d) (lit "error") = Some err ->
  get_prop err (lit "details") = d.
Proof.
  change (get_prop (error_envelope t m d) (lit "error"))
    with (Some (VObj ([(lit "type", VStr (ErrorType_value t)); (lit "message", VStr m)]
                      ++ match d with Some x => [(lit "details", x)] | None => [] end))).
  intros [= <-]. destruct d; reflexivity.
Qed.

Lemma handleApiError_body (env : Env) (error : thrown) :
  body (handleApiError env error)
  = match error with
    | ThrowAppError e =>
        error_envelope (type e) (message e)
          (if negb (production env) && truthy (details e)
           then Some (details e) else None)
    | ThrowError m =>
        error_envelope SERVER
          (if production env then lit "Internal server error" else m) None
    | ThrowValue _ => error_envelope SERVER (lit "Internal server error") None
    end.
Proof.
  destruct error as [e|m|v]; unfold handleApiError, error_envelope;
    cbn [body NextResponse_json]; try reflexivity.
  - now destruct (negb (production env) && truthy (details e)).
  - now rewrite andb_false_r.
  - now rewrite andb_false_r.
Qed.

Lemma details_only_from_AppError (env : Env) (error : thrown) (err d : value) :
  get_prop (body (handleApiError env error)) (lit "error") = Some err ->
  get_prop err (lit "details") = Some d ->
  production env = false /\ truthy d = true
  /\ exists e, error = ThrowAppError e /\ details e = d.
Proof.
  rewrite handleApiError_body. intros Herr Hd.
  destruct error as [e|m|v]; apply error_envelope_details in Herr;
    rewrite Herr in Hd; try discriminate.
  destruct (production env); [discriminate|].
  destruct (truthy (details e)) eqn:Ht; [|discriminate].
  injection Hd as <-. eauto.
Qed.

(** C3 (as stated it fails): in development a thrown value that is no
    [Error] instance does not get its message into the answer.  The
    handler reads [error.message] only behind [error instanceof Error]:
    a thrown object with a [message] property, and a thrown string, are
    answered with the fixed message, where a thrown [Error] of the same
    message is answered with that message. *)
Lemma thrown_value_gets_the_fixed_message :
  body (handleApiError Samples.dev (ThrowValue (VObj [(lit "message", VLit "boom")])))
  = error_envelope SERVER (lit "Internal server error") None
  /\ body (handleApiError Samples.dev (ThrowValue (VLit "boom")))
     = error_envelope SERVER (lit "Internal server error") None
  /\ body (handleApiError Samples.dev (ThrowError (lit "boom")))
     = error_envelope SERVER (lit "boom") None
  /\ NODE_ENV Samples.dev = Some (lit "development")
  /\ lit "Internal server error" <> lit "boom".
Proof.
  split; [|split; [|split; [|split]]]; try (vm_compute; reflexivity).
  intros E. vm_compute in E. discriminate E.
Qed.

(** C3 (amended): [handleApiError] answers every thrown value with a status and the
    body [{success: false, error: {type, message, details?}}].  An
    [AppError] gives its own status code, type and message, and its
    details when they are truthy and the environment is not production; any
    other thrown value gives SERVER and 500, the fixed message in
    production and the message of the thrown [Error] otherwise (in
    development in particular); a thrown value that is no [Error] gives the
    fixed message.  [details] is in the body only outside production and
    only when the [AppError] has them.  [withErrorHandling] passes a
    returned response through and answers a throw with [handleApiError]. *)
Theorem handleApiError_policy (env : Env) :
  (forall e : AppError,
      status (handleApiError env (ThrowAppError e)) = statusCode e
      /\ body (handleApiError env (ThrowAppError e))
         = error_envelope (type e) (message e)
             (if negb (production env) && truthy (details e)
              then Some (details e) else None))
  /\ (forall m : jsstring,
         status (handleApiError env (ThrowError m)) = 500
         /\ body (handleApiError env (ThrowError m))
            = error_envelope SERVER
                (if production env then lit "Internal server error" else m) None)
  /\ (forall m : jsstring,
         NODE_ENV env = Some (lit "development") ->
         body (handleApiError env (ThrowError m)) = error_envelope SERVER m None)
  /\ (forall v : value,
         status (handleApiError env (ThrowValue v)) = 500
         /\ body (handleApiError env (ThrowValue v))
            = error_envelope SERVER (lit "Internal server error") None)
  /\ (forall (error : thrown) (err d : value),
         get_prop (body (handleApiError env error)) (lit "error") = Some err ->
         get_prop err (lit "details") = Some d ->
         production env = false /\ truthy d = true
         /\ exists e, error = ThrowAppError e /\ details e = d)
  /\ (forall (S Req : Type) (handler : Req -> M S Response) (req : Req) (s : S),
         match handler req s with
         | (s', inl error) =>
             withErrorHandling env handler req s = (s', handleApiError env error)
         | (s', inr r) => withErrorHandling env handler req s = (s', r)
         end).
Proof.
  split; [|split; [|split; [|split; [|split]]]].
  - intros e. split; [reflexivity|]. apply (handleApiError_body env (ThrowAppError e)).
  - intros m. split; [reflexivity|]. apply (handleApiError_body env (ThrowError m)).
  - intros m Hdev. rewrite (handleApiError_body env (ThrowError m)).
    unfold production. now rewrite Hdev.
  - intros v. split; [reflexivity|]. apply (handleApiError_body env (ThrowValue v)).
  - apply details_only_from_AppError.
  - intros S Req handler req s. unfold withErrorHandling.
    now destruct (handler req s) as [s' [error|r]].
Qed.

End ErrorHandlerClaims.

(** ** Claims on middleware.ts *)

Section MiddlewareClaims.
Import JS Http Middleware.

Variable env : Env.

Lemma key_eqb_eq (a b : jsstring) : key_eqb a b = true <-> a = b.
Proof. unfold key_eqb. apply bool_decide_eq_true. Qed.

Lemma key_eqb_neq (a b : jsstring) : key_eqb a b = false <-> a <> b.
Proof. unfold key_eqb. apply bool_decide_eq_false. Qed.

Lemma middleware_other (request : NextRequest) (now : Z) (s : gmap (list N) RateLimitData)
    (key : jsstring) :
  key_eqb (client_of request) key && rate_limited request = false ->
  fst (middleware env request now s) !! key = s !! key.
Proof.
  intros H. unfold middleware.
  destruct (rate_limited request); [|reflexivity].
  rewrite andb_true_r in H. apply key_eqb_neq in H.
  destruct (_ <? _); cbn [fst]; now rewrite lookup_insert_ne.
Qed.

Lemma middleware_hit (request : NextRequest) (now : Z) (s : gmap (list N) RateLimitData) :
  rate_limited request = true ->
  let d := entry_after now (s !! client_of request) in
  fst (middleware env request now s) = <[client_of request := d]> s
  /\ forwarded (snd (middleware env request now s))
     = negb (MAX_REQUESTS_PER_WINDOW <? count d)
  /\ ((MAX_REQUESTS_PER_WINDOW <? count d) = true ->
      snd (middleware env request now s) = Respond (too_many_requests d)).
Proof.
  intros H. unfold middleware. rewrite H. cbn zeta.
  assert ((now + RATE_LIMIT_WINDOW <? now) = false) as Hw.
  { apply Z.ltb_ge. unfold RATE_LIMIT_WINDOW. lia. }
  destruct (s !! client_of request) as [d|] eqn:Hd; cbn [entry_after].
  - destruct (resetTime d <? now) eqn:Hr; cbn [count resetTime].
    + change (0 + 1) with 1.
      destruct (MAX_REQUESTS_PER_WINDOW <? 1) eqn:E; [discriminate E|].
      repeat split; discriminate.
    + destruct (MAX_REQUESTS_PER_WINDOW <? count d + 1); repeat split; discriminate.
  - cbn [count resetTime]. rewrite Hw. cbn [count resetTime]. change (0 + 1) with 1.
    destruct (MAX_REQUESTS_PER_WINDOW <? 1) eqn:E; [discriminate E|].
    repeat split; discriminate.
Qed.

Lemma cleanup_lookup (now : Z) (s : gmap (list N) RateLimitData) (key : jsstring) :
  cleanup now s !! key
  = match s !! key with
    | Some d => if resetTime d <? now then None else Some d
    | None => None
    end.
Proof.
  unfold cleanup. destruct (s !! key) as [d|] eqn:Hd.
  - destruct (resetTime d <? now) eqn:Hr.
    + apply map_lookup_filter_None. right. intros d' Hd' Hn.
      rewrite Hd in Hd'. injection Hd' as <-. apply Z.ltb_lt in Hr. now apply Hn.
    + apply map_lookup_filter_Some. split; [exact Hd|].
      apply Z.ltb_ge in Hr. cbn. lia.
  - apply map_lookup_filter_None. now left.
Qed.

Lemma hits_cons (key : jsstring) (ev : Event) (evs : list Event) :
  hits key (ev :: evs) = hits key [ev] + hits key evs.
Proof.
  unfold hits. cbn [List.filter].
  destruct ev as [request now|now]; [|reflexivity].
  destruct (key_eqb (client_of request) key && rate_limited request); cbn [length app]; lia.
Qed.

Lemma hits_app (key : jsstring) (a b : list Event) :
  hits key (a ++ b) = hits key a + hits key b.
Proof. unfold hits. rewrite List.filter_app, length_app. lia. Qed.

Lemma hits_nonneg (key : jsstring) (evs : list Event) : 0 <= hits key evs.
Proof. unfold hits. lia. Qed.

(** Inside the window an event adds to the counter what it contributes
    to [hits] and leaves the end of the window alone. *)
Lemma step_in_window (key : jsstring) (s : gmap (list N) RateLimitData)
    (d : RateLimitData) (ev : Event) :
  s !! key = Some d -> event_time ev <= resetTime d ->
  step env s ev !! key
  = Some {| count := count d + hits key [ev]; resetTime := resetTime d |}.
Proof.
  intros Hd Ht. destruct ev as [request now|now]; cbn [step event_time] in *.
  - unfold hits. cbn [List.filter].
    destruct (key_eqb (client_of request) key && rate_limited request) eqn:E.
    + apply andb_prop in E as [Ek El]. apply key_eqb_eq in Ek.
      destruct (middleware_hit request now s El) as [-> _].
      rewrite Ek, Hd, lookup_insert_eq. cbn [entry_after].
      assert ((resetTime d <? now) = false) as -> by (apply Z.ltb_ge; lia).
      reflexivity.
    + rewrite middleware_other by exact E. rewrite Hd. cbn [length].
      destruct d as [c r]. cbn. f_equal. f_equal. lia.
  - rewrite cleanup_lookup, Hd.
    assert ((resetTime d <? now) = false) as -> by (apply Z.ltb_ge; lia).
    destruct d as [c r]. cbn. f_equal. f_equal. unfold hits. cbn. lia.
Qed.

Lemma run_in_window (key : jsstring) (evs : list Event) :
  forall (s : gmap (list N) RateLimitData) (d : RateLimitData),
    s !! key = Some d ->
    Forall (fun ev => event_time ev <= resetTime d) evs ->
    run env s evs !! key
    = Some {| count := count d + hits key evs; resetTime := resetTime d |}.
Proof.
  induction evs as [|ev evs IH]; intros s d Hd Hall.
  - cbn. rewrite Hd. destruct d as [c r]. cbn. f_equal. f_equal. unfold hits. cbn. lia.
  - apply List.Forall_cons_iff in Hall as [Hev Hall].
    unfold run. cbn [fold_left]. fold (run env (step env s ev) evs).
    rewrite (IH _ _ (step_in_window key s d ev Hd Hev)) by exact Hall.
    cbn [count resetTime]. rewrite (hits_cons key ev evs). f_equal. f_equal. lia.
Qed.

Lemma step_absent (key : jsstring) (s : gmap (list N) RateLimitData) (ev : Event) :
  s !! key = None -> hits key [ev] = 0 -> step env s ev !! key = None.
Proof.
  intros Hs Hh. destruct ev as [request now|now]; cbn [step].
  - rewrite middleware_other; [exact Hs|].
    unfold hits in Hh. cbn [List.filter] in Hh.
    destruct (key_eqb (client_of request) key && rate_limited request);
      [discriminate Hh | reflexivity].
  - now rewrite cleanup_lookup, Hs.
Qed.

Lemma run_absent (key : jsstring) (evs : list Event) :
  forall s : gmap (list N) RateLimitData,
    s !! key = None -> hits key evs = 0 -> run env s evs !! key = None.
Proof.
  induction evs as [|ev evs IH]; intros s Hs Hh; [exact Hs|].
  rewrite hits_cons in Hh.
  pose proof (hits_nonneg key [ev]). pose proof (hits_nonneg key evs).
  unfold run. cbn [fold_left]. apply IH; [apply step_absent; [exact Hs|lia] | lia].
Qed.

Lemma run_app (s : gmap (list N) RateLimitData) (a b : list Event) :
  run env s (a ++ b) = run env (run env s a) b.
Proof. unfold run. apply fold_left_app. Qed.

End MiddlewareClaims.

Section RateLimitClaim.
Import JS Http Middleware.

(** C4: a client without an entry sends its first request on a
    rate-limited path at time [t1]; whatever other clients and the
    clean-up do before and meanwhile, that request and the client's next
    99 requests up to the end of the window, [t1 + 60000], are forwarded;
    every later request inside the window is answered 429 with
    [Retry-After: 60] and the JSON error body and is not forwarded; and a
    request after the end of the window is forwarded with the counter
    started again at 1. *)
Theorem rate_limit_window (env : Env) (key : jsstring)
    (s0 : gmap (list N) RateLimitData) (before : list Event)
    (first : NextRequest) (t1 : Z) (during : list Event)
    (request : NextRequest) (now : Z) :
  s0 !! key = None ->
  hits key before = 0 ->
  client_of first = key -> rate_limited first = true ->
  Forall (fun ev => event_time ev <= t1 + RATE_LIMIT_WINDOW) during ->
  client_of request = key -> rate_limited request = true ->
  let s1 := run env s0 before in
  let s := run env s0 (before ++ Incoming first t1 :: during) in
  let n := 2 + hits key during in
  let result := middleware env request now s in
  forwarded (snd (middleware env first t1 s1)) = true
  /\ (now <= t1 + RATE_LIMIT_WINDOW -> n <= 100 ->
      forwarded (snd result) = true
      /\ fst result !! key
         = Some {| count := n; resetTime := t1 + RATE_LIMIT_WINDOW |})
  /\ (now <= t1 + RATE_LIMIT_WINDOW -> 100 < n ->
      exists r,
        snd result = Respond r /\ forwarded (snd result) = false
        /\ status r = 429
        /\ headers_get (headers r) (lit "Retry-After") = Some (lit "60")
        /\ body r
           = VObj [(lit "success", VBool false);
                   (lit "error",
                    VObj [(lit "message",
                           VLit "Too many requests, please try again later.");
                          (lit "type", VLit "RATE_LIMIT_EXCEEDED")])])
  /\ (t1 + RATE_LIMIT_WINDOW < now ->
      forwarded (snd result) = true
      /\ fst result !! key
         = Some {| count := 1; resetTime := now + RATE_LIMIT_WINDOW |}).
Proof.
  intros Hs0 Hbefore Hfirst Hlim1 Hduring Hreq Hlim s1 s n result.
  assert (s1 !! key = None) as Hs1 by (now apply run_absent).
  destruct (middleware_hit env first t1 s1 Hlim1) as [Hst1 [Hfw1 _]].
  rewrite Hfirst, Hs1 in Hst1, Hfw1. cbn [entry_after count] in Hst1, Hfw1.
  assert (s !! key
          = Some {| count := 1 + hits key during;
                    resetTime := t1 + RATE_LIMIT_WINDOW |}) as Hs.
  { subst s. rewrite run_app. fold s1. unfold run at 1. cbn [fold_left step].
    fold (run env (fst (middleware env first t1 s1)) during).
    rewrite Hst1.
    rewrite (run_in_window env key during _
               {| count := 1; resetTime := t1 + RATE_LIMIT_WINDOW |});
      [reflexivity | apply lookup_insert_eq | exact Hduring]. }
  destruct (middleware_hit env request now s Hlim) as [Hst [Hfw H429]].
  rewrite Hreq, Hs in Hst, Hfw, H429. fold result in Hst, Hfw, H429.
  pose proof (hits_nonneg key during) as Hnn.
  split; [exact Hfw1|]. split; [|split].
  - intros Hin Hn. cbn [entry_after resetTime] in Hst, Hfw.
    assert ((t1 + RATE_LIMIT_WINDOW <? now) = false) as Hr by (apply Z.ltb_ge; lia).
    rewrite Hr in Hst, Hfw. cbn [count resetTime] in Hst, Hfw. split.
    + rewrite Hfw. apply negb_true_iff, Z.ltb_ge.
      unfold MAX_REQUESTS_PER_WINDOW. subst n. lia.
    + rewrite Hst, lookup_insert_eq. subst n. f_equal. f_equal. lia.
  - intros Hin Hn. cbn [entry_after resetTime] in Hfw, H429.
    assert ((t1 + RATE_LIMIT_WINDOW <? now) = false) as Hr by (apply Z.ltb_ge; lia).
    rewrite Hr in Hfw, H429. cbn [count] in Hfw, H429.
    assert ((MAX_REQUESTS_PER_WINDOW <? 1 + hits key during + 1) = true) as Hover.
    { apply Z.ltb_lt. unfold MAX_REQUESTS_PER_WINDOW. subst n. lia. }
    rewrite Hover in Hfw. eexists. split; [exact (H429 Hover)|].
    split; [exact Hfw|]. repeat split.
  - intros Hout. cbn [entry_after resetTime] in Hst, Hfw.
    assert ((t1 + RATE_LIMIT_WINDOW <? now) = true) as Hr by (apply Z.ltb_lt; lia).
    rewrite Hr in Hst, Hfw. cbn [count resetTime] in Hst, Hfw. split; [exact Hfw|].
    rewrite Hst. apply lookup_insert_eq.
Qed.

(** An instance: client 10.0.0.7 sends 101 requests to /api/profiles
    from time 1000 on, another client and a clean-up run in between; its
    first request is forwarded and the one it makes at time 5000, the
    102nd of the window, is not. *)
Lemma rate_limit_window_witness :
  forwarded (snd (middleware Samples.dev Samples.sample_request 1000 ∅)) = true
  /\ forwarded
       (snd (middleware Samples.dev Samples.sample_request 5000
               (run Samples.dev ∅
                  (Incoming Samples.sample_request 1000 :: Samples.sample_during))))
     = false.
Proof.
  assert (Forall (fun ev => event_time ev <= 1000 + RATE_LIMIT_WINDOW)
            Samples.sample_during) as Hduring.
  { unfold Samples.sample_during. repeat constructor; cbn; unfold RATE_LIMIT_WINDOW; lia. }
  destruct (rate_limit_window Samples.dev (lit "10.0.0.7") ∅ []
              Samples.sample_request 1000 Samples.sample_during
              Samples.sample_request 5000
              (lookup_empty _) eq_refl eq_refl eq_refl Hduring eq_refl eq_refl)
    as [Hfirst [_ [Hover _]]].
  split; [exact Hfirst|].
  destruct Hover as [r [_ [Hr _]]].
  - unfold RATE_LIMIT_WINDOW. lia.
  - vm_compute. reflexivity.
  - exact Hr.
Defined.

End RateLimitClaim.

(** ** Running the handlers *)

Section HandlerFacts.
Import JS Http ErrorHandler Db Routes.
Context `{Mongoose}.

Lemma dbConnect_ok (w : World) :
  connectable w = true -> dbConnect w = (connected w, inr tt).
Proof.
  unfold connectable, dbConnect, connected.
  destruct (cached_conn w); [reflexivity|]. cbn.
  now destruct (unreachable w).
Qed.

Lemma dbConnect_groups (w : World) :
  groups (fst (dbConnect w)) = groups w
  /\ transactions (fst (dbConnect w)) = transactions w
  /\ budgets (fst (dbConnect w)) = budgets w
  /\ (ops (fst (dbConnect w)) = ops w \/ ops (fst (dbConnect w)) = ops w ++ [Connect]).
Proof.
  unfold dbConnect. destruct (cached_conn w); [cbn; auto|].
  cbn. destruct (unreachable w); cbn; auto.
Qed.

Lemma prop_ok (v : value) (k : string) :
  v <> VNull -> v <> VUndefined ->
  prop v k = ret (default VUndefined (get_prop v (lit k))).
Proof.
  intros H1 H2. unfold prop.
  destruct v; try congruence; now destruct (get_prop _ _).
Qed.

Lemma prop_pure (v : value) (k : string) (w : World) :
  (exists e, prop v k w = (w, inl e)) \/ (exists x, prop v k w = (w, inr x)).
Proof.
  unfold prop. destruct v; try (left; eexists; reflexivity);
    right; destruct (get_prop _ _); eexists; reflexivity.
Qed.

(** POST after the connection: without profiles the handler throws
    before it reaches [save], and what it throws is a VALIDATION error
    unless [body] is [null]. *)
Lemma POST_no_profiles (request : Request) (body : value) (w : World) :
  payload request = inr body -> no_profiles body = true ->
  exists e,
    POST_handler request w = (fst (dbConnect w), inl e)
    /\ (connectable w = true -> body <> VNull -> body <> VUndefined ->
        exists m, e = ThrowAppError (createError.validation m VUndefined)).
Proof.
  intros Hp Hn. unfold POST_handler. unfold bind at 1.
  destruct (dbConnect w) as [w1 [e|[]]] eqn:Hc.
  { exists e. split; [reflexivity|]. intros Hok. rewrite dbConnect_ok in Hc by exact Hok.
    discriminate. }
  cbn [fst]. unfold bind at 1. unfold request_json. rewrite Hp. cbn [ret].
  unfold bind at 1.
  destruct (prop_pure body "name" w1) as [[e He]|[name Hname]].
  { rewrite He. exists e. split; [reflexivity|]. intros _ H1 H2.
    rewrite prop_ok in He by assumption. discriminate. }
  rewrite Hname. destruct (blank_name name).
  { eexists. split; [reflexivity|]. eauto. }
  unfold bind at 1.
  destruct (prop_pure body "type" w1) as [[e He]|[type Htype]].
  { rewrite He. exists e. split; [reflexivity|]. intros _ H1 H2.
    rewrite prop_ok in He by assumption. discriminate. }
  rewrite Htype. destruct (negb (truthy type) || negb (includes allowedGroupTypes type)).
  { eexists. split; [reflexivity|]. eauto. }
  unfold bind at 1.
  destruct (prop_pure body "profiles" w1) as [[e He]|[profiles Hprofiles]].
  { rewrite He. exists e. split; [reflexivity|]. intros _ H1 H2.
    rewrite prop_ok in He by assumption. discriminate. }
  rewrite Hprofiles.
  assert (match profiles with VArr (_ :: _) => False | _ => True end) as Hbad.
  { unfold prop in Hprofiles. unfold no_profiles in Hn.
    destruct body; try discriminate Hprofiles;
      destruct (get_prop _ (lit "profiles")) as [[| | | | |[|? ?]|]|];
      try discriminate Hn; injection Hprofiles as <-; exact I. }
  destruct profiles as [| | | | |[|p ps]|]; try contradiction;
    (eexists; split; [reflexivity|]; eauto).
Qed.

End HandlerFacts.

(** ** Reasoning rules for handler computations *)

Section WpRules.
Import JS Http ErrorHandler Db Routes Spec.
Context `{Mongoose}.

Lemma wp_ret {A} (a : A) (Q : World -> thrown + A -> Prop) (w : World) :
  Q w (inr a) -> wp (ret a) Q w.
Proof. exact (fun H => H). Qed.

Lemma wp_throw {A} (e : thrown) (Q : World -> thrown + A -> Prop) (w : World) :
  Q w (inl e) -> wp (throw e) Q w.
Proof. exact (fun H => H). Qed.

Lemma wp_bind {A B} (c : M World A) (k : A -> M World B)
    (Q : World -> thrown + B -> Prop) (w : World) :
  wp c (fun w' r => match r with
                    | inl e => Q w' (inl e)
                    | inr a => wp (k a) Q w'
                    end) w ->
  wp (bind c k) Q w.
Proof.
  unfold wp, bind. destruct (c w) as [w' [e|a]]; cbn [fst snd]; auto.
Qed.

Lemma wp_pure {A} (c : M World A) (Q : World -> thrown + A -> Prop) (w : World) :
  (forall w0, (exists e, c w0 = (w0, inl e)) \/ (exists a, c w0 = (w0, inr a))) ->
  (forall r, Q w r) -> wp c Q w.
Proof.
  intros Hc HQ. unfold wp. destruct (Hc w) as [[e ->]|[a ->]]; apply HQ.
Qed.

Lemma request_json_pure (request : Request) (w : World) :
  (exists e, request_json request w = (w, inl e))
  \/ (exists a, request_json request w = (w, inr a)).
Proof. unfold request_json. destruct (payload request); eauto. Qed.

Lemma trim_method_pure (x : value) (w : World) :
  (exists e, trim_method x w = (w, inl e))
  \/ (exists a, trim_method x w = (w, inr a)).
Proof. unfold trim_method. destruct x; eauto. Qed.

Lemma check_profiles_pure (items : list value) (w : World) :
  (exists e, check_profiles items w = (w, inl e))
  \/ (exists a, check_profiles items w = (w, inr a)).
Proof.
  induction items as [|p items IH]; cbn [check_profiles]; [right; now exists tt|].
  unfold bind. destruct (prop_pure p "name" w) as [[e ->]|[x ->]]; [eauto|].
  destruct (blank_name x); [left; eexists; reflexivity | exact IH].
Qed.

Lemma wp_dbConnect (Q : World -> thrown + unit -> Prop) (w : World) :
  (forall r, Q (fst (dbConnect w)) r) -> wp dbConnect Q w.
Proof. intros HQ. apply HQ. Qed.

Lemma wp_save_or_throw (g : UserGroup.t) (st : Z) (failure : string)
    (Q : World -> thrown + Response -> Prop) (w : World) :
  (forall e, Q (log (Save g) w) (inl e)) ->
  Q (set_groups (upsert g (groups w)) (log (Save g) w)) (inr (group_response g st)) ->
  wp (save_or_throw g st failure) Q w.
Proof.
  intros He Hok. unfold wp, save_or_throw, save.
  destruct (save_outcome (log (Save g) w) g) as [[m ms|m err]|]; cbn [fst snd];
    [apply He | apply He | exact Hok].
Qed.

Lemma same_data_refl (w : World) : same_data w w.
Proof. now repeat split. Qed.

Lemma same_data_dbConnect (w : World) : same_data w (fst (dbConnect w)).
Proof. unfold same_data. pose proof (dbConnect_groups w). tauto. Qed.

Lemma read_only_dbConnect (w : World) : read_only_since w (fst (dbConnect w)).
Proof.
  split; [apply same_data_dbConnect|].
  destruct (dbConnect_groups w) as [_ [_ [_ [Ho|Ho]]]].
  - exists []. now rewrite app_nil_r.
  - now exists [Connect].
Qed.

Lemma read_only_log (w0 w : World) (o : Op) :
  is_write o = false -> read_only_since w0 w -> read_only_since w0 (log o w).
Proof.
  intros Ho [Hd [new [Hops Hnew]]]. split; [exact Hd|].
  exists (new ++ [o]). cbn [ops log]. rewrite Hops, app_assoc. split; [reflexivity|].
  rewrite forallb_app, Hnew. cbn. now rewrite Ho.
Qed.

(** *** What each handler can end in *)

Lemma GET_outcomes (request : Request) (w : World) :
  wp (GET_handler request)
    (unchanged_or w (fun w' r =>
       same_data w w'
       /\ r = NextResponse_json (VArr (List.map json_of_group (groups w))) 200)) w.
Proof.
  unfold GET_handler. apply wp_bind, wp_dbConnect. intros [e|[]].
  { apply same_data_dbConnect. }
  apply wp_bind. unfold wp at 1, find_all. cbn [fst snd].
  pose proof (same_data_dbConnect w) as Hsame.
  assert (same_data w (log Find (fst (dbConnect w)))) as Hsame' by exact Hsame.
  assert (groups (log Find (fst (dbConnect w))) = groups w) as -> by apply Hsame.
  destruct (groups w) as [|g gs]; apply wp_ret; now split.
Qed.

Lemma imap_length_pos {A B} (f : nat -> A -> B) (x : A) (l : list A) :
  (1 <= length (imap f (x :: l)))%nat.
Proof. rewrite length_imap. cbn. lia. Qed.

Lemma POST_outcomes (request : Request) (w : World) :
  wp (POST_handler request) (unchanged_or w (saved_nonempty w 201)) w.
Proof.
  unfold POST_handler. apply wp_bind, wp_dbConnect.
  pose proof (same_data_dbConnect w) as Hsame. set (w1 := fst (dbConnect w)) in *.
  intros [e|[]]; [exact Hsame|].
  apply wp_bind, wp_pure; [apply request_json_pure|]. intros [e|body]; [exact Hsame|].
  apply wp_bind, wp_pure; [apply prop_pure|]. intros [e|name]; [exact Hsame|].
  destruct (blank_name name); [exact Hsame|].
  apply wp_bind, wp_pure; [apply prop_pure|]. intros [e|type]; [exact Hsame|].
  destruct (negb (truthy type) || negb (includes allowedGroupTypes type)); [exact Hsame|].
  apply wp_bind, wp_pure; [apply prop_pure|]. intros [e|profiles]; [exact Hsame|].
  destruct profiles as [| | | | |[|p ps]|]; try exact Hsame.
  apply wp_bind, wp_pure; [apply check_profiles_pure|]. intros [e|[]]; [exact Hsame|].
  apply wp_bind. unfold wp at 1, get_world. cbn [fst snd].
  destruct Hsame as [Hg [Ht Hb]].
  apply wp_save_or_throw.
  - intros e. now repeat split.
  - eexists. split; [reflexivity|]. cbn [groups transactions budgets set_groups log].
    rewrite Hg. repeat split; try assumption. apply imap_length_pos.
Qed.

Lemma wp_findById (id : jsstring) (Q : World -> thrown + option UserGroup.t -> Prop)
    (w : World) :
  Q (log (FindById id) w)
    (inr (List.find (fun g => id_eqb (UserGroup._id g) (ObjectId_of id)) (groups w))) ->
  wp (findById id) Q w.
Proof. exact (fun H => H). Qed.

Lemma PUT_outcomes (request : Request) (w : World) :
  wp (PUT_handler request) (unchanged_or w (saved_nonempty w 200)) w.
Proof.
  unfold PUT_handler. apply wp_bind, wp_dbConnect.
  pose proof (same_data_dbConnect w) as Hsame. set (w1 := fst (dbConnect w)) in *.
  intros [e|[]]; [exact Hsame|].
  apply wp_bind, wp_pure; [apply request_json_pure|]. intros [e|body]; [exact Hsame|].
  destruct (negb (ObjectId_isValid (params_id request))); [exact Hsame|].
  apply wp_bind, wp_findById.
  assert (same_data w (log (FindById (params_id request)) w1)) as Hsame' by exact Hsame.
  clearbody w1. set (w2 := log _ w1) in *. clearbody w2.
  destruct (List.find _ _) as [group|]; [|exact Hsame'].
  apply wp_bind, wp_pure; [apply prop_pure|]. intros [e|name]; [exact Hsame'|].
  destruct (negb (truthy name)); [exact Hsame'|].
  apply wp_bind, wp_pure; [apply trim_method_pure|]. intros [e|trimmed_name]; [exact Hsame'|].
  destruct trimmed_name as [|c t]; [exact Hsame'|].
  apply wp_bind, wp_pure; [apply prop_pure|]. intros [e|profiles]; [exact Hsame'|].
  destruct profiles as [| | | | |[|p ps]|]; try exact Hsame'.
  apply wp_bind. unfold wp at 1, get_world. cbn [fst snd].
  destruct Hsame' as [Hg [Ht Hb]].
  apply wp_save_or_throw.
  - intros e. now repeat split.
  - eexists. split; [reflexivity|]. cbn [groups transactions budgets set_groups log].
    rewrite Hg. repeat split; try assumption. apply imap_length_pos.
Qed.

End WpRules.

Section DeleteFacts.
Import JS Http ErrorHandler Db Routes Spec.
Context `{Mongoose}.

Lemma wp_save_plain (g : UserGroup.t) (Q : World -> thrown + UserGroup.t -> Prop)
    (w : World) :
  (forall e, Q (log (Save g) w) (inl e)) ->
  Q (set_groups (upsert g (groups w)) (log (Save g) w)) (inr g) ->
  wp (save_plain g) Q w.
Proof.
  intros He Hok. unfold wp, save_plain, save.
  destruct (save_outcome (log (Save g) w) g) as [[m ms|m err]|]; cbn [fst snd];
    [apply He | apply He | exact Hok].
Qed.

Lemma find_none_filter (id : jsstring) (gs : list UserGroup.t) :
  List.find (fun g => id_eqb (UserGroup._id g) id) gs = None ->
  List.filter (fun g => negb (id_eqb (UserGroup._id g) id)) gs = gs.
Proof.
  induction gs as [|g gs IH]; cbn; [reflexivity|].
  destruct (id_eqb (UserGroup._id g) id); [discriminate|].
  cbn. intros Hn. now rewrite IH.
Qed.

Lemma DELETE_outcomes (request : Request) (w : World) :
  wp (DELETE_handler request) (DELETE_post request w) w.
Proof.
  unfold DELETE_handler.
  destruct (negb (ObjectId_isValid (params_id request))); [reflexivity|].
  apply wp_bind, wp_dbConnect.
  destruct (same_data_dbConnect w) as [Hg _]. set (w1 := fst (dbConnect w)) in *.
  clearbody w1. intros [e|[]]; [exact Hg|].
  destruct (profileId request) as [[|c pid']|].
  - apply wp_bind. unfold wp at 1, findByIdAndDelete. cbn [fst snd log groups].
    destruct (List.find _ (groups w1)) as [group|] eqn:E.
    + apply wp_bind. unfold wp at 1. cbn [fst snd deleteTransactionsOfGroup].
      apply wp_bind. unfold wp at 1. cbn [fst snd deleteBudgetsOfGroup].
      apply wp_ret. right. cbn. now rewrite Hg.
    + apply wp_throw. cbn. rewrite find_none_filter by exact E. exact Hg.
  - destruct (negb (ObjectId_isValid (c :: pid'))); [exact Hg|].
    apply wp_bind, wp_findById.
    destruct (List.find _ (groups w1)) as [group|] eqn:E; [|exact Hg].
    destruct (length (UserGroup.profiles group) <=? 1)%nat eqn:El; [exact Hg|].
    apply wp_bind. unfold wp at 1. cbn [fst snd deleteTransactionsOfProfile].
    apply wp_bind. unfold wp at 1. cbn [fst snd deleteBudgetsOfProfile].
    apply wp_bind, wp_save_plain; [intros e; exact Hg|].
    apply wp_ret. left. exists group, (ObjectId_of (c :: pid')). cbn.
    apply find_some in E as [Hin _]. rewrite Hg in *.
    apply Nat.leb_gt in El. repeat split; [assumption | lia].
  - apply wp_bind. unfold wp at 1, findByIdAndDelete. cbn [fst snd log groups].
    destruct (List.find _ (groups w1)) as [group|] eqn:E.
    + apply wp_bind. unfold wp at 1. cbn [fst snd deleteTransactionsOfGroup].
      apply wp_bind. unfold wp at 1. cbn [fst snd deleteBudgetsOfGroup].
      apply wp_ret. right. cbn. now rewrite Hg.
    + apply wp_throw. cbn. rewrite find_none_filter by exact E. exact Hg.
Qed.

Lemma upsert_Forall (P : UserGroup.t -> Prop) (g : UserGroup.t) (gs : list UserGroup.t) :
  P g -> Forall P gs -> Forall P (upsert g gs).
Proof.
  intros Hg Hgs. unfold upsert. destruct (existsb _ gs).
  - induction Hgs as [|x gs Hx _ IH]; cbn; [constructor|].
    constructor; [now destruct (id_eqb _ _) | exact IH].
  - apply Forall_app. split; [exact Hgs | now constructor].
Qed.

Lemma filter_Forall {A} (P : A -> Prop) (f : A -> bool) (l : list A) :
  Forall P l -> Forall P (List.filter f l).
Proof.
  induction 1 as [|x l Hx _ IH]; cbn; [constructor|].
  destruct (f x); [now constructor | exact IH].
Qed.

Lemma id_eqb_eq (a b : jsstring) : id_eqb a b = true <-> a = b.
Proof. unfold id_eqb, key_eqb. apply bool_decide_eq_true. Qed.

(** With distinct identifiers [pull] removes one Profile at most. *)
Lemma pull_length (pid : jsstring) (ps : list Profile.t) :
  NoDup (List.map Profile._id ps) ->
  (length ps <= S (length (pull pid ps)))%nat.
Proof.
  induction ps as [|p ps IH]; cbn; [lia|].
  intros Hnd. apply NoDup_cons in Hnd as [Hnotin Hnd].
  rewrite list_elem_of_In in Hnotin.
  destruct (id_eqb (Profile._id p) pid) eqn:E; cbn [negb length].
  - apply id_eqb_eq in E. subst pid.
    assert (pull (Profile._id p) ps = ps) as Hsame.
    { clear -Hnotin. induction ps as [|q ps IH]; [reflexivity|].
      cbn in *. destruct (id_eqb (Profile._id q) (Profile._id p)) eqn:E.
      - apply id_eqb_eq in E. exfalso. apply Hnotin. left. exact E.
      - cbn. f_equal. apply IH. intros Hin. apply Hnotin. now right. }
    fold (pull (Profile._id p) ps). rewrite Hsame. lia.
  - fold (pull pid ps). specialize (IH Hnd). lia.
Qed.


Lemma withErrorHandling_fst {Req} (env : Env) (h : Req -> M World Response)
    (req : Req) (w : World) :
  fst (withErrorHandling env h req w) = fst (h req w).
Proof. unfold withErrorHandling. now destruct (h req w) as [w' [e|r]]. Qed.

Lemma withErrorHandling_snd {Req} (env : Env) (h : Req -> M World Response)
    (req : Req) (w : World) :
  snd (withErrorHandling env h req w)
  = match snd (h req w) with
    | inl e => handleApiError env e
    | inr r => r
    end.
Proof. unfold withErrorHandling. now destruct (h req w) as [w' [e|r]]. Qed.

Lemma saved_keeps_nonempty (w w' : World) (st : Z) (r : thrown + Response) :
  unchanged_or w (saved_nonempty w st) w' r ->
  groups_nonempty w -> groups_nonempty w'.
Proof.
  unfold groups_nonempty. destruct r as [e|resp]; cbn.
  - intros [-> _]. auto.
  - intros [g [_ [-> [_ [_ Hlen]]]]] Hw. now apply upsert_Forall.
Qed.

Lemma handlers_keep_nonempty (env : Env) (request : Request) (w : World) :
  groups_nonempty w ->
  groups_nonempty (fst (GET env request w))
  /\ groups_nonempty (fst (POST env request w))
  /\ groups_nonempty (fst (PUT env request w))
  /\ (profile_ids_distinct w -> groups_nonempty (fst (DELETE env request w))).
Proof.
  intros Hw. unfold GET, POST, PUT, DELETE. rewrite !withErrorHandling_fst.
  split; [|split; [|split]].
  - pose proof (GET_outcomes request w) as Ho. unfold wp in Ho.
    unfold groups_nonempty. destruct (snd (GET_handler request w)); cbn in Ho.
    + destruct Ho as [-> _]. exact Hw.
    + destruct Ho as [[-> _] _]. exact Hw.
  - exact (saved_keeps_nonempty _ _ _ _ (POST_outcomes request w) Hw).
  - exact (saved_keeps_nonempty _ _ _ _ (PUT_outcomes request w) Hw).
  - intros Hd. pose proof (DELETE_outcomes request w) as Ho. unfold wp, DELETE_post in Ho.
    unfold groups_nonempty in *. destruct (snd (DELETE_handler request w)) as [e|resp].
    + now rewrite Ho.
    + destruct Ho as [[group [pid [Hin [Hlen [_ ->]]]]]|[_ ->]].
      * apply upsert_Forall; [|exact Hw]. cbn [with_profiles UserGroup.profiles].
        unfold profile_ids_distinct in Hd. rewrite List.Forall_forall in Hd.
        pose proof (pull_length pid _ (Hd group Hin)). lia.
      * now apply filter_Forall.
Qed.

End DeleteFacts.

(** ** Claims on the route handlers *)

Section RouteClaims.
Import JS Http ErrorHandler Db Routes Spec.
Context `{Mongoose}.

Lemma handleApiError_validation (env : Env) (m : jsstring) :
  handleApiError env (ThrowAppError (createError.validation m VUndefined))
  = NextResponse_json (error_envelope VALIDATION m None) 400.
Proof.
  unfold handleApiError, error_envelope. cbn [createError.validation statusCode
    message type details truthy]. now rewrite andb_false_r.
Qed.

Lemma wp_prop (v : value) (k : string) (Q : World -> thrown + value -> Prop) (w : World) :
  (forall e, Q w (inl e)) ->
  Q w (inr (default VUndefined (get_prop v (lit k)))) ->
  wp (prop v k) Q w.
Proof.
  intros He Hok. unfold wp, prop.
  destruct v; try apply He; destruct (get_prop _ _); exact Hok.
Qed.

Lemma no_profiles_default (body : value) :
  no_profiles body = true ->
  match default VUndefined (get_prop body (lit "profiles")) with
  | VArr (_ :: _) => False
  | _ => True
  end.
Proof.
  unfold no_profiles.
  destruct (get_prop body (lit "profiles")) as [[| | | | |[|? ?]|]|];
    cbn; auto; discriminate.
Qed.

(** PUT without profiles: an error, and nothing written. *)
Lemma PUT_no_profiles (request : Request) (body : value) (w : World) :
  payload request = inr body -> no_profiles body = true ->
  wp (PUT_handler request)
    (fun w' r => read_only_since w w' /\ exists e, r = inl e) w.
Proof.
  intros Hp Hn. unfold PUT_handler. apply wp_bind, wp_dbConnect.
  pose proof (read_only_dbConnect w) as Hro. set (w1 := fst (dbConnect w)) in *.
  clearbody w1. intros [e|[]]; [eauto|].
  unfold request_json. rewrite Hp. apply wp_bind, wp_ret.
  destruct (negb (ObjectId_isValid (params_id request))); [split; eauto|].
  apply wp_bind, wp_findById.
  assert (read_only_since w (log (FindById (params_id request)) w1)) as Hro'
      by now apply read_only_log.
  set (w2 := log _ w1) in *. clearbody w2.
  destruct (List.find _ _) as [group|]; [|split; eauto].
  apply wp_bind, wp_pure; [apply prop_pure|]. intros [e|name]; [eauto|].
  destruct (negb (truthy name)); [split; eauto|].
  apply wp_bind, wp_pure; [apply trim_method_pure|]. intros [e|trimmed_name]; [eauto|].
  destruct trimmed_name as [|c t]; [split; eauto|].
  apply wp_bind, wp_prop; [eauto|].
  pose proof (no_profiles_default body Hn) as Hd.
  destruct (default VUndefined (get_prop body (lit "profiles"))) as [| | | | |[|p ps]|];
    try contradiction; split; eauto.
Qed.

(** DELETE of a Profile of a Group that has one Profile or none. *)
Lemma DELETE_last_profile (request : Request) (c : N) (pid : jsstring)
    (group : UserGroup.t) (w : World) :
  ObjectId_isValid (params_id request) = true ->
  profileId request = Some (c :: pid) ->
  ObjectId_isValid (c :: pid) = true ->
  connectable w = true ->
  List.find (fun g => id_eqb (UserGroup._id g) (ObjectId_of (params_id request))) (groups w)
  = Some group ->
  (length (UserGroup.profiles group) <= 1)%nat ->
  DELETE_handler request w
  = (log (FindById (params_id request)) (connected w),
     inl (ThrowAppError
            (createError.validation
               (lit "Cannot delete the last profile in a group. Delete the group instead.")
               VUndefined))).
Proof.
  intros Hid Hpid Hvalid Hconn Hfind Hlen. unfold DELETE_handler.
  rewrite Hid, Hpid, Hvalid. cbn [negb]. unfold bind at 1.
  rewrite (dbConnect_ok w Hconn). unfold bind at 1, findById.
  assert (groups (log (FindById (params_id request)) (connected w)) = groups w) as ->.
  { unfold connected. now destruct (cached_conn w). }
  rewrite Hfind. apply Nat.leb_le in Hlen. now rewrite Hlen.
Qed.

Lemma read_only_connected (w : World) : read_only_since w (connected w).
Proof.
  unfold connected. destruct (cached_conn w).
  - split; [apply same_data_refl|]. exists []. now rewrite app_nil_r.
  - split; [now repeat split|]. now exists [Connect].
Qed.

Lemma POST_no_profiles_response (env : Env) (request : Request) (body : value)
    (w : World) :
  payload request = inr body -> no_profiles body = true ->
  read_only_since w (fst (POST env request w))
  /\ (connectable w = true -> body <> VNull -> body <> VUndefined ->
      status (snd (POST env request w)) = 400
      /\ exists m, Http.body (snd (POST env request w))
                   = error_envelope VALIDATION m None).
Proof.
  intros Hp Hn. unfold POST.
  rewrite withErrorHandling_fst, withErrorHandling_snd.
  destruct (POST_no_profiles request body w Hp Hn) as [e [-> Hval]].
  cbn [fst snd]. split; [apply read_only_dbConnect|].
  intros Hc H1 H2. destruct (Hval Hc H1 H2) as [m ->].
  rewrite handleApiError_validation. split; [reflexivity|]. now exists m.
Qed.

(** What the handlers do keep of the rule that a Group has a Profile.
    POST and PUT without a
    non-empty [profiles] array end in an error and write nothing (for POST
    the error is VALIDATION, 400, once the database is connected and the
    body is not [null]); DELETE of a Profile of a Group with one Profile
    or none answers VALIDATION, 400, with the message that tells the
    caller to delete the Group, and writes nothing; and every handler
    leaves each Group with a Profile, DELETE under the proviso that the
    Profiles of a Group have distinct identifiers. *)
Theorem group_keeps_a_profile (env : Env) (request : Request) (w : World) :
  (forall body : value,
      payload request = inr body -> no_profiles body = true ->
      read_only_since w (fst (POST env request w))
      /\ (connectable w = true -> body <> VNull -> body <> VUndefined ->
          status (snd (POST env request w)) = 400
          /\ exists m, Http.body (snd (POST env request w))
                       = error_envelope VALIDATION m None))
  /\ (forall body : value,
         payload request = inr body -> no_profiles body = true ->
         read_only_since w (fst (PUT env request w))
         /\ exists e, snd (PUT env request w) = handleApiError env e)
  /\ (forall (c : N) (pid : jsstring) (group : UserGroup.t),
         ObjectId_isValid (params_id request) = true ->
         profileId request = Some (c :: pid) ->
         ObjectId_isValid (c :: pid) = true ->
         connectable w = true ->
         List.find (fun g => id_eqb (UserGroup._id g) (ObjectId_of (params_id request))) (groups w)
         = Some group ->
         (length (UserGroup.profiles group) <= 1)%nat ->
         read_only_since w (fst (DELETE env request w))
         /\ snd (DELETE env request w)
            = NextResponse_json
                (error_envelope VALIDATION
                   (lit "Cannot delete the last profile in a group. Delete the group instead.")
                   None)
                400)
  /\ (groups_nonempty w ->
      groups_nonempty (fst (GET env request w))
      /\ groups_nonempty (fst (POST env request w))
      /\ groups_nonempty (fst (PUT env request w))
      /\ (profile_ids_distinct w -> groups_nonempty (fst (DELETE env request w)))).
Proof.
  split; [|split; [|split]].
  - intros body. apply POST_no_profiles_response.
  - intros body Hp Hn. unfold PUT.
    rewrite withErrorHandling_fst, withErrorHandling_snd.
    pose proof (PUT_no_profiles request body w Hp Hn) as [Hro [e He]].
    split; [exact Hro|]. rewrite He. now exists e.
  - intros c pid group Hid Hpid Hvalid Hconn Hfind Hlen. unfold DELETE.
    rewrite withErrorHandling_fst, withErrorHandling_snd.
    rewrite (DELETE_last_profile request c pid group w Hid Hpid Hvalid Hconn Hfind Hlen).
    cbn [fst snd]. split; [|apply handleApiError_validation].
    apply read_only_log; [reflexivity | apply read_only_connected].
  - apply handlers_keep_nonempty.
Qed.


End RouteClaims.

Section RouteClaims2.
Import JS Http ErrorHandler Middleware Db Routes Spec.
Context `{Mongoose}.

Lemma groups_connected (w : World) : groups (connected w) = groups w.
Proof. unfold connected. now destruct (cached_conn w). Qed.

Lemma ops_connected (w : World) :
  ops (connected w) = ops w ++ (if cached_conn w then [] else [Connect]).
Proof. unfold connected. destruct (cached_conn w); cbn; now rewrite ?app_nil_r. Qed.

Lemma PUT_invalid_id_connected (request : Request) (body : value) (w : World) :
  ObjectId_isValid (params_id request) = false ->
  connectable w = true -> payload request = inr body ->
  PUT_handler request w
  = (connected w,
     inl (ThrowAppError (createError.validation (lit "Invalid group ID format") VUndefined))).
Proof.
  intros Hid Hc Hp. unfold PUT_handler, bind. rewrite (dbConnect_ok w Hc).
  unfold request_json. rewrite Hp, Hid. reflexivity.
Qed.

Lemma PUT_unreachable (request : Request) (m : jsstring) (w : World) :
  cached_conn w = false -> unreachable w = Some m ->
  PUT_handler request w = (log Connect w, inl (ThrowError m)).
Proof.
  intros Hc Hu. unfold PUT_handler, bind, dbConnect. rewrite Hc. cbn [unreachable log].
  now rewrite Hu.
Qed.

Lemma PUT_unparsed (request : Request) (m : jsstring) (w : World) :
  connectable w = true -> payload request = inl m ->
  PUT_handler request w = (connected w, inl (ThrowError m)).
Proof.
  intros Hc Hp. unfold PUT_handler, bind. rewrite (dbConnect_ok w Hc).
  unfold request_json. now rewrite Hp.
Qed.

Lemma DELETE_invalid_id (request : Request) (w : World) :
  ObjectId_isValid (params_id request) = false ->
  DELETE_handler request w
  = (w, inl (ThrowAppError (createError.validation (lit "Invalid group ID format") VUndefined))).
Proof. intros Hid. unfold DELETE_handler. now rewrite Hid. Qed.

(** C7 (the code departs from it): with a malformed id PUT calls
    [dbConnect] before it looks at the id.  On a process without a cached
    connection the first call logged is [Connect]; when the database is
    reachable the answer is the 400 VALIDATION error of the claim, but
    when it is not, or when the payload is no JSON, the answer is the
    SERVER error of the failed step.  DELETE checks the id first and
    touches nothing. *)
Theorem PUT_malformed_id_connects_first (env : Env) (request : Request) (w : World) :
  ObjectId_isValid (params_id request) = false ->
  (forall body : value,
      connectable w = true -> payload request = inr body ->
      snd (PUT env request w)
      = NextResponse_json
          (error_envelope VALIDATION (lit "Invalid group ID format") None) 400
      /\ ops (fst (PUT env request w))
         = ops w ++ (if cached_conn w then [] else [Connect]))
  /\ (forall m : jsstring,
         cached_conn w = false -> unreachable w = Some m ->
         snd (PUT env request w) = handleApiError env (ThrowError m)
         /\ status (snd (PUT env request w)) = 500
         /\ ops (fst (PUT env request w)) = ops w ++ [Connect])
  /\ (forall m : jsstring,
         connectable w = true -> payload request = inl m ->
         snd (PUT env request w) = handleApiError env (ThrowError m)
         /\ status (snd (PUT env request w)) = 500)
  /\ (fst (DELETE env request w) = w
      /\ snd (DELETE env request w)
         = NextResponse_json
             (error_envelope VALIDATION (lit "Invalid group ID format") None) 400).
Proof.
  intros Hid. unfold PUT, DELETE. split; [|split; [|split]].
  - intros body Hc Hp. rewrite withErrorHandling_fst, withErrorHandling_snd.
    rewrite (PUT_invalid_id_connected request body w Hid Hc Hp). cbn [fst snd].
    split; [apply handleApiError_validation | apply ops_connected].
  - intros m Hc Hu. rewrite withErrorHandling_fst, withErrorHandling_snd.
    rewrite (PUT_unreachable request m w Hc Hu). now cbn.
  - intros m Hc Hp. rewrite withErrorHandling_snd.
    rewrite (PUT_unparsed request m w Hc Hp). now cbn.
  - rewrite withErrorHandling_fst, withErrorHandling_snd.
    rewrite (DELETE_invalid_id request w Hid). cbn [fst snd].
    split; [reflexivity | apply handleApiError_validation].
Qed.

(** *** Response bodies *)

Lemma index_key_not_success (i : nat) : key_eqb (index_key i) (lit "success") = false.
Proof.
  apply bool_decide_eq_false. unfold index_key. intros E.
  pose proof (uint_head_digit (Nat.to_uint i)) as Hd. rewrite E in Hd.
  discriminate Hd.
Qed.

Lemma array_has_no_success_field (items : list value) :
  has_success_field (VArr items) = false.
Proof.
  unfold has_success_field, get_prop. cbn [Object_entries].
  assert (forall i, assoc (lit "success") (index_from i items) = None) as ->; [|reflexivity].
  induction items as [|x items IH]; intros i; [reflexivity|].
  cbn [index_from assoc]. now rewrite index_key_not_success.
Qed.

Lemma handleApiError_envelope (env : Env) (error : thrown) :
  is_error_envelope (body (handleApiError env error)).
Proof.
  unfold is_error_envelope. rewrite handleApiError_body.
  destruct error; eexists _, _, _; reflexivity.
Qed.

(** C8 (as stated it fails): GET answers with the bare array of Group
    documents, here the empty array, and POST with the bare Group
    document; neither body has a [success] field. *)
Lemma success_bodies_are_bare :
  snd (GET Samples.dev (Samples.request_of [] None VNull) Samples.empty_world)
  = NextResponse_json (VArr []) 200
  /\ has_success_field
       (body (snd (GET Samples.dev (Samples.request_of [] None VNull)
                     Samples.empty_world))) = false
  /\ status
       (snd (@POST Samples.mongoose Samples.dev
               (Samples.request_of [] None
                  (VObj [(lit "name", VLit "Smiths"); (lit "type", VLit "family");
                         (lit "profiles", VArr [VObj [(lit "name", VLit "Alice")]])]))
               Samples.empty_world)) = 201
  /\ has_success_field
       (body
          (snd (@POST Samples.mongoose Samples.dev
                  (Samples.request_of [] None
                     (VObj [(lit "name", VLit "Smiths"); (lit "type", VLit "family");
                            (lit "profiles", VArr [VObj [(lit "name", VLit "Alice")]])]))
                  Samples.empty_world))) = false.
Proof. repeat split; vm_compute; reflexivity. Qed.

(** C8 (amended): every error response, the 429 of the rate limiter
    included, has the body [{success: false, error: {type, message,
    details?}}], and the answer to the deletion of a whole Group is
    [{success: true, message}]; the successful answers of GET, of POST, of
    PUT and of the deletion of one Profile are the bare array of Group
    documents and the bare Group document, without a [success] field. *)
Theorem response_bodies (env : Env) (request : Request) (w : World) :
  (forall (t : ErrorType) (m : jsstring) (d : option value),
      get_prop (error_envelope t m d) (lit "success") = Some (VBool false)
      /\ exists err,
          get_prop (error_envelope t m d) (lit "error") = Some err
          /\ get_prop err (lit "type") = Some (VStr (ErrorType_value t))
          /\ get_prop err (lit "message") = Some (VStr m)
          /\ get_prop err (lit "details") = d)
  /\ (forall error : thrown, is_error_envelope (body (handleApiError env error)))
  /\ (forall d : RateLimitData,
         get_prop (body (too_many_requests d)) (lit "success") = Some (VBool false)
         /\ exists err,
             get_prop (body (too_many_requests d)) (lit "error") = Some err
             /\ get_prop err (lit "type") = Some (VLit "RATE_LIMIT_EXCEEDED")
             /\ get_prop err (lit "message")
                = Some (VLit "Too many requests, please try again later."))
  /\ ((exists e, snd (GET env request w) = handleApiError env e)
      \/ snd (GET env request w)
         = NextResponse_json (VArr (List.map json_of_group (groups w))) 200)
  /\ ((exists e, snd (POST env request w) = handleApiError env e)
      \/ exists g, snd (POST env request w) = group_response g 201)
  /\ ((exists e, snd (PUT env request w) = handleApiError env e)
      \/ exists g, snd (PUT env request w) = group_response g 200)
  /\ ((exists e, snd (DELETE env request w) = handleApiError env e)
      \/ (exists g, snd (DELETE env request w) = group_response g 200)
      \/ snd (DELETE env request w) = group_deleted_response)
  /\ (forall items : list value, has_success_field (VArr items) = false)
  /\ (forall (g : UserGroup.t) (st : Z),
         has_success_field (body (group_response g st)) = false)
  /\ get_prop (body group_deleted_response) (lit "success") = Some (VBool true).
Proof.
  split; [|split; [|split; [|split; [|split; [|split; [|split; [|split; [|split]]]]]]]].
  - intros t m d. split; [reflexivity|]. eexists. split; [reflexivity|].
    repeat split; try reflexivity. now destruct d.
  - apply handleApiError_envelope.
  - intros d. split; [reflexivity|]. eexists. split; [reflexivity|]. split; reflexivity.
  - unfold GET. rewrite withErrorHandling_snd.
    pose proof (GET_outcomes request w) as Ho. unfold wp in Ho.
    destruct (snd (GET_handler request w)) as [e|r]; [left; now exists e|].
    right. apply Ho.
  - unfold POST. rewrite withErrorHandling_snd.
    pose proof (POST_outcomes request w) as Ho. unfold wp in Ho.
    destruct (snd (POST_handler request w)) as [e|r]; [left; now exists e|].
    right. destruct Ho as [g [-> _]]. now exists g.
  - unfold PUT. rewrite withErrorHandling_snd.
    pose proof (PUT_outcomes request w) as Ho. unfold wp in Ho.
    destruct (snd (PUT_handler request w)) as [e|r]; [left; now exists e|].
    right. destruct Ho as [g [-> _]]. now exists g.
  - unfold DELETE. rewrite withErrorHandling_snd.
    pose proof (DELETE_outcomes request w) as Ho. unfold wp, DELETE_post in Ho.
    destruct (snd (DELETE_handler request w)) as [e|r]; [left; now exists e|].
    right. destruct Ho as [[g [pid [_ [_ [-> _]]]]]|[-> _]]; [left; eauto | now right].
  - apply array_has_no_success_field.
  - reflexivity.
  - reflexivity.
Qed.

End RouteClaims2.

Section DeleteUnknownProfile.
Import JS Http ErrorHandler Db Routes Spec.
Context `{Mongoose}.






End DeleteUnknownProfile.

(** ** The claims at sample inputs *)

Section Instances.
Import JS Http ErrorHandler Db Routes Spec.



(** PUT /api/profiles/abc on a fresh process: the connection is made
    first, and with the database down the answer is 500. *)
Lemma PUT_malformed_id_witness :
  ops (fst (@PUT Samples.mongoose Samples.prod
              (Samples.request_of (lit "abc") None (VObj [])) Samples.world))
  = [Connect]
  /\ status (snd (@PUT Samples.mongoose Samples.prod
                    (Samples.request_of (lit "abc") None (VObj [])) Samples.world_down))
     = 500.
Proof.
  split.
  - exact (proj2 (proj1 (@PUT_malformed_id_connects_first Samples.mongoose Samples.prod
                           (Samples.request_of (lit "abc") None (VObj [])) Samples.world
                           eq_refl)
                    (VObj []) eq_refl eq_refl)).
  - exact (proj1 (proj2 (proj1 (proj2 (@PUT_malformed_id_connects_first Samples.mongoose
                           Samples.prod
                           (Samples.request_of (lit "abc") None (VObj [])) Samples.world_down
                           eq_refl))
                    _ eq_refl eq_refl))).
Defined.


(** The scenario of the spec: POST of the Smiths with Alice answers 201
    with one Profile named Alice of the default colour. *)
Example POST_scenario :
  let r := snd (@POST Samples.mongoose Samples.dev
                  (Samples.request_of [] None
                     (VObj [(lit "name", VLit "Smiths"); (lit "type", VLit "family");
                            (lit "profiles", VArr [VObj [(lit "name", VLit "Alice")]])]))
                  Samples.empty_world) in
  status r = 201
  /\ get_path (body r) [lit "profiles"; lit "0"; lit "name"] = Some (VLit "Alice")
  /\ get_path (body r) [lit "profiles"; lit "0"; lit "color"] = Some (VLit "#3B82F6")
  /\ get_path (body r) [lit "profiles"; lit "1"] = None.
Proof. vm_compute. repeat split. Qed.

Example POST_bogus_type :
  snd (@POST Samples.mongoose Samples.dev
         (Samples.request_of [] None
            (VObj [(lit "name", VLit "Smiths"); (lit "type", VLit "bogus");
                   (lit "profiles", VArr [VObj [(lit "name", VLit "Alice")]])]))
         Samples.empty_world)
  = NextResponse_json
      (error_envelope VALIDATION
         (lit "Valid group type is required. Must be one of: family, roommates, personal, other, friends")
         None)
      400.
Proof. vm_compute. reflexivity. Qed.

Example sanitize_markup :
  Security.sanitizeString (lit "  <b>Tom's</b>  ")
  = lit "&amp;lt;b&amp;gt;Tom&#x27;s&amp;lt;&#x2F;b&amp;gt;".
Proof. vm_compute. reflexivity. Qed.

End Instances.

(** ** More on the middleware *)

Section MiddlewareHeaders.
Import JS Http Middleware.

Lemma headers_get_set (h : list (list N * list N)) (name v name' : jsstring) :
  headers_get (headers_set h name v) name'
  = if key_eqb name name' then Some v else headers_get h name'.
Proof.
  unfold headers_get, headers_set. induction h as [|[k x] h IH].
  - cbn. now destruct (key_eqb name name').
  - cbn [List.filter fst assoc]. destruct (key_eqb k name) eqn:Ek; cbn [negb].
    + rewrite IH. apply key_eqb_eq in Ek. subst k.
      now destruct (key_eqb name name').
    + cbn [app assoc]. rewrite IH. destruct (key_eqb k name') eqn:Ek'; [|reflexivity].
      apply key_eqb_eq in Ek'. subst k.
      destruct (key_eqb name name') eqn:En; [|reflexivity].
      apply key_eqb_eq in En. subst name'. apply key_eqb_neq in Ek. now contradiction Ek.
Qed.

Ltac decide_keys :=
  repeat match goal with
    | |- context [key_eqb (lit ?a) (lit ?b)] =>
        let v := eval vm_compute in (key_eqb (lit a) (lit b)) in
        change (key_eqb (lit a) (lit b)) with v; cbn iota
    end.

Lemma security_headers_get (env : Env) (h : list (list N * list N)) :
  h = security_headers env ->
  headers_get h (lit "X-Content-Type-Options") = Some (lit "nosniff")
  /\ headers_get h (lit "X-Frame-Options") = Some (lit "DENY")
  /\ headers_get h (lit "Referrer-Policy") = Some (lit "origin-when-cross-origin")
  /\ headers_get h (lit "X-XSS-Protection") = Some (lit "1; mode=block")
  /\ headers_get h (lit "X-DNS-Prefetch-Control") = Some (lit "on")
  /\ headers_get h (lit "Strict-Transport-Security")
     = (if production env
        then Some (lit "max-age=63072000; includeSubDomains; preload")
        else None)
  /\ headers_get h (lit "X-RateLimit-Limit") = None
  /\ headers_get h (lit "X-RateLimit-Remaining") = None
  /\ headers_get h (lit "X-RateLimit-Reset") = None.
Proof.
  intros ->. unfold security_headers.
  destruct (production env); vm_compute; repeat split.
Qed.

(** X1: whatever the path and the state of the limiter, a request that
    the middleware lets through carries the five security headers with
    their fixed values, and [Strict-Transport-Security] exactly when the
    environment is production. *)
Theorem forwarded_response_has_security_headers (env : Env) (request : NextRequest)
    (now : Z) (store : gmap (list N) RateLimitData) (h : list (list N * list N)) :
  snd (middleware env request now store) = Next h ->
  headers_get h (lit "X-Content-Type-Options") = Some (lit "nosniff")
  /\ headers_get h (lit "X-Frame-Options") = Some (lit "DENY")
  /\ headers_get h (lit "Referrer-Policy") = Some (lit "origin-when-cross-origin")
  /\ headers_get h (lit "X-XSS-Protection") = Some (lit "1; mode=block")
  /\ headers_get h (lit "X-DNS-Prefetch-Control") = Some (lit "on")
  /\ headers_get h (lit "Strict-Transport-Security")
     = (if production env
        then Some (lit "max-age=63072000; includeSubDomains; preload")
        else None).
Proof.
  unfold middleware.
  destruct (security_headers_get env _ eq_refl) as (H1 & H2 & H3 & H4 & H5 & H6 & _).
  destruct (rate_limited request).
  - cbn zeta. destruct (_ <? _); cbn [snd]; [discriminate|].
    intros [= <-]. rewrite !headers_get_set. decide_keys.
    repeat split; assumption.
  - cbn [snd]. intros [= <-]. repeat split; assumption.
Qed.

Lemma forwarded_response_has_security_headers_witness :
  exists h,
    snd (middleware Samples.prod Samples.sample_request 1000 ∅) = Next h
    /\ headers_get h (lit "X-Frame-Options") = Some (lit "DENY")
    /\ headers_get h (lit "Strict-Transport-Security")
       = Some (lit "max-age=63072000; includeSubDomains; preload").
Proof.
  eexists. split; [reflexivity|].
  pose proof (forwarded_response_has_security_headers Samples.prod
                Samples.sample_request 1000 ∅ _ eq_refl) as (_ & H2 & _ & _ & _ & H6).
  split; [exact H2 | exact H6].
Defined.

(** X2: the 429 answer is built from scratch: it has [Content-Type:
    application/json], [Retry-After: 60] and the three rate-limit headers
    (limit 100, remaining 0, reset as stored), five headers in all, and
    none of the security headers that forwarded requests get. *)
Theorem rejected_response_has_no_security_headers (env : Env) (request : NextRequest)
    (now : Z) (store : gmap (list N) RateLimitData) (r : Response) :
  snd (middleware env request now store) = Respond r ->
  status r = 429
  /\ headers_get (headers r) (lit "X-RateLimit-Limit") = Some (lit "100")
  /\ headers_get (headers r) (lit "X-RateLimit-Remaining") = Some (lit "0")
  /\ (exists d, fst (middleware env request now store) !! client_of request = Some d
                /\ 100 < count d
                /\ headers_get (headers r) (lit "X-RateLimit-Reset")
                   = Some (Z_toString (resetTime d)))
  /\ headers_get (headers r) (lit "X-Content-Type-Options") = None
  /\ headers_get (headers r) (lit "X-Frame-Options") = None
  /\ headers_get (headers r) (lit "Referrer-Policy") = None
  /\ headers_get (headers r) (lit "X-XSS-Protection") = None
  /\ headers_get (headers r) (lit "X-DNS-Prefetch-Control") = None
  /\ headers_get (headers r) (lit "Strict-Transport-Security") = None
  /\ headers_get (headers r) (lit "Content-Type") = Some (lit "application/json")
  /\ headers_get (headers r) (lit "Retry-After") = Some (lit "60")
  /\ length (headers r) = 5%nat.
Proof.
  intros Hr. destruct (rate_limited request) eqn:Hl.
  - destruct (middleware_hit env request now store Hl) as [Hst [Hfw H429]].
    rewrite Hr in Hfw. cbn [forwarded] in Hfw. symmetry in Hfw.
    apply negb_false_iff in Hfw. specialize (H429 Hfw). rewrite Hr in H429.
    injection H429 as ->. split; [reflexivity|]. split; [reflexivity|].
    split; [reflexivity|]. split.
    + eexists. rewrite Hst, lookup_insert_eq. split; [reflexivity|].
      split; [|reflexivity]. apply Z.ltb_lt in Hfw. exact Hfw.
    + repeat split.
  - unfold middleware in Hr. rewrite Hl in Hr. discriminate.
Qed.

Lemma rejected_response_has_no_security_headers_witness :
  exists r,
    snd (middleware Samples.dev Samples.sample_request 5000 MoreSamples.used_up)
    = Respond r
    /\ status r = 429
    /\ headers_get (headers r) (lit "X-Frame-Options") = None
    /\ headers_get (headers r) (lit "Content-Type") = Some (lit "application/json")
    /\ headers_get (headers r) (lit "Retry-After") = Some (lit "60").
Proof.
  assert (MoreSamples.used_up !! client_of Samples.sample_request
          = Some {| count := 100; resetTime := 61000 |}) as Hl
      by apply lookup_insert_eq.
  pose proof (proj2 (proj2 (middleware_hit Samples.dev Samples.sample_request 5000
                              MoreSamples.used_up eq_refl))) as H429.
  cbv zeta in H429. rewrite Hl in H429. specialize (H429 eq_refl).
  eexists. split; [exact H429|].
  destruct (rejected_response_has_no_security_headers Samples.dev
              Samples.sample_request 5000 MoreSamples.used_up _ H429)
    as (Hs & _ & _ & _ & _ & Hx & _ & _ & _ & _ & Hc & Hra & _).
  repeat split; assumption.
Defined.

(** X3: a forwarded request on a rate-limited path reports the cap 100,
    the requests left in the window (100 minus the count after this
    request) and the end of the window, as they stand in the store. *)
Theorem forwarded_response_reports_quota (env : Env) (request : NextRequest)
    (now : Z) (store : gmap (list N) RateLimitData) (h : list (list N * list N)) :
  rate_limited request = true ->
  snd (middleware env request now store) = Next h ->
  exists d,
    fst (middleware env request now store) !! client_of request = Some d
    /\ count d <= 100
    /\ headers_get h (lit "X-RateLimit-Limit") = Some (lit "100")
    /\ headers_get h (lit "X-RateLimit-Remaining") = Some (Z_toString (100 - count d))
    /\ headers_get h (lit "X-RateLimit-Reset") = Some (Z_toString (resetTime d)).
Proof.
  intros Hl Hr. destruct (middleware_hit env request now store Hl) as [Hst [Hfw _]].
  rewrite Hr in Hfw. cbn [forwarded] in Hfw. symmetry in Hfw.
  apply negb_true_iff, Z.ltb_ge in Hfw. unfold MAX_REQUESTS_PER_WINDOW in Hfw.
  exists (entry_after now (store !! client_of request)).
  split; [rewrite Hst; apply lookup_insert_eq|]. split; [exact Hfw|].
  revert Hr Hfw. unfold middleware. rewrite Hl. cbn zeta.
  assert (forall o : option RateLimitData,
             {| count := count (if resetTime (match o with
                                              | Some d => d
                                              | None => {| count := 0; resetTime := now + RATE_LIMIT_WINDOW |}
                                              end) <? now
                                then {| count := 0; resetTime := now + RATE_LIMIT_WINDOW |}
                                else match o with
                                     | Some d => d
                                     | None => {| count := 0; resetTime := now + RATE_LIMIT_WINDOW |}
                                     end) + 1;
                resetTime := resetTime (if resetTime (match o with
                                              | Some d => d
                                              | None => {| count := 0; resetTime := now + RATE_LIMIT_WINDOW |}
                                              end) <? now
                                then {| count := 0; resetTime := now + RATE_LIMIT_WINDOW |}
                                else match o with
                                     | Some d => d
                                     | None => {| count := 0; resetTime := now + RATE_LIMIT_WINDOW |}
                                     end) |}
             = entry_after now o) as ->.
  { intros [d|]; cbn [entry_after].
    - now destruct (resetTime d <? now).
    - cbn [resetTime]. assert ((now + RATE_LIMIT_WINDOW <? now) = false) as ->; [|reflexivity].
      apply Z.ltb_ge. unfold RATE_LIMIT_WINDOW. lia. }
  set (d := entry_after now (store !! client_of request)).
  destruct (MAX_REQUESTS_PER_WINDOW <? count d); cbn [snd]; [discriminate|].
  intros [= <-] Hle. rewrite !headers_get_set. decide_keys.
  split; [reflexivity|]. split; [|reflexivity].
  unfold MAX_REQUESTS_PER_WINDOW. do 2 f_equal. lia.
Qed.

Lemma forwarded_response_reports_quota_witness :
  exists h,
    snd (middleware Samples.dev Samples.sample_request 1000 ∅) = Next h
    /\ headers_get h (lit "X-RateLimit-Remaining") = Some (lit "99")
    /\ headers_get h (lit "X-RateLimit-Reset") = Some (lit "61000").
Proof.
  eexists. split; [reflexivity|].
  match goal with
  | |- headers_get ?h _ = _ /\ _ =>
      assert (snd (middleware Samples.dev Samples.sample_request 1000 ∅) = Next h)
        as Hsnd by reflexivity;
      destruct (forwarded_response_reports_quota Samples.dev Samples.sample_request
                  1000 ∅ h eq_refl Hsnd) as [d [Hd [_ [_ [Hrem Hreset]]]]]
  end.
  assert (d = {| count := 1; resetTime := 61000 |}) as ->.
  { rewrite (proj1 (middleware_hit Samples.dev Samples.sample_request 1000 ∅ eq_refl)) in Hd.
    rewrite lookup_insert_eq in Hd. injection Hd as <-. reflexivity. }
  split; [exact Hrem | exact Hreset].
Defined.

(** X4: a request on a path outside [/api/] is forwarded with the
    security headers only: the store is not touched, however many such
    requests a client sends, and no rate-limit header is set. *)
Theorem other_paths_are_not_limited (env : Env) (request : NextRequest)
    (now : Z) (store : gmap (list N) RateLimitData) :
  rate_limited request = false ->
  fst (middleware env request now store) = store
  /\ exists h,
      snd (middleware env request now store) = Next h
      /\ headers_get h (lit "X-RateLimit-Limit") = None
      /\ headers_get h (lit "X-RateLimit-Remaining") = None
      /\ headers_get h (lit "X-RateLimit-Reset") = None.
Proof.
  intros Hl. unfold middleware. rewrite Hl. split; [reflexivity|].
  eexists. split; [reflexivity|].
  destruct (security_headers_get env _ eq_refl) as (_ & _ & _ & _ & _ & _ & H7 & H8 & H9).
  auto.
Qed.

Lemma other_paths_are_not_limited_witness :
  fst (middleware Samples.dev
         {| ip := Some (lit "10.0.0.7"); pathname := lit "/dashboard" |} 1000 ∅) = ∅.
Proof.
  exact (proj1 (other_paths_are_not_limited Samples.dev
                  {| ip := Some (lit "10.0.0.7"); pathname := lit "/dashboard" |}
                  1000 ∅ eq_refl)).
Defined.

End MiddlewareHeaders.

Section MiddlewareTraffic.
Import JS Http Middleware Traffic.

Variable env : Env.

Lemma no_address_client (request : NextRequest) :
  no_address request = true -> client_of request = lit "unknown".
Proof. unfold no_address, client_of. now destruct (ip request) as [[|c a]|]. Qed.

Lemma middleware_limited (request : NextRequest) (now : Z)
    (s : gmap (list N) RateLimitData) :
  rate_limited request = true ->
  let d := entry_after now (s !! client_of request) in
  middleware env request now s
  = (<[client_of request := d]> s,
     if MAX_REQUESTS_PER_WINDOW <? count d
     then Respond (too_many_requests d)
     else Next (quota_headers env d)).
Proof.
  intros Hl. unfold middleware. rewrite Hl. cbn zeta.
  assert ((now + RATE_LIMIT_WINDOW <? now) = false) as Hw.
  { apply Z.ltb_ge. unfold RATE_LIMIT_WINDOW. lia. }
  destruct (s !! client_of request) as [d|]; cbn [entry_after].
  - destruct (resetTime d <? now); cbn [count resetTime];
      now destruct (MAX_REQUESTS_PER_WINDOW <? _).
  - cbn [resetTime]. rewrite Hw. cbn [count resetTime].
    now destruct (MAX_REQUESTS_PER_WINDOW <? _).
Qed.

Lemma middleware_unlimited (request : NextRequest) (now : Z)
    (s : gmap (list N) RateLimitData) :
  rate_limited request = false ->
  middleware env request now s = (s, Next (security_headers env)).
Proof. intros Hl. unfold middleware. now rewrite Hl. Qed.

Lemma step_own (key : jsstring) (ev : Event) (s s' : gmap (list N) RateLimitData) :
  s !! key = s' !! key -> concerns key ev = true ->
  step env s ev !! key = step env s' ev !! key.
Proof.
  intros Hs Hc. destruct ev as [request now|now]; cbn [step concerns] in *.
  - apply key_eqb_eq in Hc. subst key. destruct (rate_limited request) eqn:Hl.
    + rewrite !middleware_limited by exact Hl. cbn [fst].
      now rewrite !lookup_insert_eq, Hs.
    + now rewrite !middleware_unlimited by exact Hl.
  - now rewrite !cleanup_lookup, Hs.
Qed.

Lemma step_foreign (key : jsstring) (ev : Event) (s : gmap (list N) RateLimitData) :
  concerns key ev = false -> step env s ev !! key = s !! key.
Proof.
  destruct ev as [request now|now]; cbn [step concerns]; [|discriminate].
  intros Hc. apply middleware_other. now rewrite Hc.
Qed.

Lemma run_own (key : jsstring) (evs : list Event) :
  forall s s' : gmap (list N) RateLimitData,
    s !! key = s' !! key ->
    run env s evs !! key = run env s' (List.filter (concerns key) evs) !! key.
Proof.
  induction evs as [|ev evs IH]; intros s s' Hs; [exact Hs|].
  unfold run. cbn [fold_left List.filter]. fold (run env (step env s ev) evs).
  destruct (concerns key ev) eqn:Hc.
  - cbn [fold_left]. fold (run env (step env s' ev) (List.filter (concerns key) evs)).
    apply IH. now apply step_own.
  - apply IH. now rewrite step_foreign.
Qed.

(** X5: what a client gets does not depend on other clients.  Dropping
    from any history the requests of all other clients changes neither the
    client's entry nor the outcome of its next request. *)
Theorem other_clients_do_not_matter (request : NextRequest) (now : Z)
    (s : gmap (list N) RateLimitData) (evs : list Event) :
  run env s evs !! client_of request
  = run env s (List.filter (concerns (client_of request)) evs) !! client_of request
  /\ snd (middleware env request now (run env s evs))
     = snd (middleware env request now
              (run env s (List.filter (concerns (client_of request)) evs))).
Proof.
  pose proof (run_own (client_of request) evs s s eq_refl) as Hr.
  split; [exact Hr|]. destruct (rate_limited request) eqn:Hl.
  - rewrite !middleware_limited by exact Hl. cbn [snd]. now rewrite Hr.
  - now rewrite !middleware_unlimited by exact Hl.
Qed.

Lemma hits_all (key : jsstring) (l : list (NextRequest * Z)) :
  Forall (fun rt => client_of (fst rt) = key /\ rate_limited (fst rt) = true) l ->
  hits key (List.map (fun rt => Incoming (fst rt) (snd rt)) l) = Z.of_nat (length l).
Proof.
  induction 1 as [|[r t] l [Hk Hl] _ IH]; [reflexivity|].
  cbn [List.map fst snd]. rewrite hits_cons, IH. unfold hits. cbn [List.filter].
  cbn [fst] in Hk, Hl. rewrite Hl, andb_true_r.
  assert (key_eqb (client_of r) key = true) as -> by now apply key_eqb_eq.
  cbn [length]. lia.
Qed.

(** X6: clients whose address is unknown to the platform ([ip] undefined
    or empty) are one client to the limiter.  Once any 100 such requests
    on [/api/] paths have arrived inside a window, from whomever, every
    further one inside the window is turned away. *)
Theorem addressless_clients_share_quota (s : gmap (list N) RateLimitData)
    (first : NextRequest) (t1 : Z) (others : list (NextRequest * Z))
    (request : NextRequest) (now : Z) :
  s !! lit "unknown" = None ->
  no_address first = true -> rate_limited first = true ->
  Forall (fun rt => no_address (fst rt) = true /\ rate_limited (fst rt) = true
                    /\ snd rt <= t1 + RATE_LIMIT_WINDOW) others ->
  (99 <= length others)%nat ->
  no_address request = true -> rate_limited request = true ->
  now <= t1 + RATE_LIMIT_WINDOW ->
  forwarded
    (snd (middleware env request now
            (run env s
               (Incoming first t1
                :: List.map (fun rt => Incoming (fst rt) (snd rt)) others))))
  = false.
Proof.
  intros Hs Hf Hlf Hothers Hlen Hr Hlr Hnow.
  apply no_address_client in Hf, Hr.
  set (during := List.map (fun rt => Incoming (fst rt) (snd rt)) others).
  assert (run env s (Incoming first t1 :: during) !! lit "unknown"
          = Some {| count := 1 + Z.of_nat (length others);
                    resetTime := t1 + RATE_LIMIT_WINDOW |}) as Hentry.
  { unfold run. cbn [fold_left step]. fold (run env (fst (middleware env first t1 s)) during).
    rewrite (middleware_limited first t1 s Hlf). cbn [fst]. rewrite Hf, Hs.
    cbn [entry_after].
    rewrite (run_in_window env (lit "unknown") during _
               {| count := 1; resetTime := t1 + RATE_LIMIT_WINDOW |}).
    - cbn [count resetTime]. unfold during. rewrite hits_all; [reflexivity|].
      eapply List.Forall_impl; [|exact Hothers]. intros [r t] (Ha & Hl & _).
      split; [now apply no_address_client | exact Hl].
    - apply lookup_insert_eq.
    - unfold during. cbn [resetTime]. apply List.Forall_map.
      eapply List.Forall_impl; [|exact Hothers]. now intros [r t] (_ & _ & Ht). }
  rewrite (middleware_limited request now _ Hlr). cbn [snd]. rewrite Hr, Hentry.
  cbn [entry_after resetTime].
  assert ((t1 + RATE_LIMIT_WINDOW <? now) = false) as -> by (apply Z.ltb_ge; lia).
  cbn [count].
  assert ((MAX_REQUESTS_PER_WINDOW <? 1 + Z.of_nat (length others) + 1) = true) as ->.
  { apply Z.ltb_lt. unfold MAX_REQUESTS_PER_WINDOW. lia. }
  reflexivity.
Qed.

(** *** The clean-up is invisible *)

Lemma swept_refl (t : Z) (s : gmap (list N) RateLimitData) : swept t s s.
Proof. intros k. now left. Qed.

Lemma swept_entry (t now : Z) (s s' : gmap (list N) RateLimitData) (k : jsstring) :
  swept t s s' -> t <= now -> entry_after now (s !! k) = entry_after now (s' !! k).
Proof.
  intros Hsw Ht. destruct (Hsw k) as [->|[-> [d [-> Hd]]]]; [reflexivity|].
  cbn [entry_after]. assert ((resetTime d <? now) = true) as ->; [|reflexivity].
  apply Z.ltb_lt. lia.
Qed.

Lemma swept_later (t t' : Z) (s s' : gmap (list N) RateLimitData) :
  swept t s s' -> t <= t' -> swept t' s s'.
Proof.
  intros Hsw Ht k. destruct (Hsw k) as [E|[E [d [E' Hd]]]]; [now left|].
  right. split; [exact E|]. exists d. split; [exact E'|lia].
Qed.

Lemma swept_insert (t : Z) (s s' : gmap (list N) RateLimitData) (k : jsstring)
    (d : RateLimitData) :
  swept t s s' -> swept t (<[k := d]> s) (<[k := d]> s').
Proof.
  intros Hsw k'. destruct (decide (k = k')) as [->|Hne].
  - left. now rewrite !lookup_insert_eq.
  - rewrite !lookup_insert_ne by exact Hne. apply Hsw.
Qed.

Lemma swept_cleanup (t now : Z) (s s' : gmap (list N) RateLimitData) :
  swept t s s' -> t <= now -> swept now (cleanup now s) s'.
Proof.
  intros Hsw Ht k. rewrite cleanup_lookup.
  destruct (Hsw k) as [E|[E [d [E' Hd]]]].
  - rewrite E. destruct (s' !! k) as [d|]; [|now left].
    destruct (resetTime d <? now) eqn:Hr; [|now left].
    right. split; [reflexivity|]. exists d. split; [reflexivity|]. now apply Z.ltb_lt.
  - rewrite E. right. split; [reflexivity|]. exists d. split; [exact E'|lia].
Qed.

Lemma responses_swept (evs : list Event) :
  forall (t : Z) (s s' : gmap (list N) RateLimitData),
    in_time_order t evs = true -> swept t s s' ->
    responses env s evs = responses env s' (List.filter is_incoming evs).
Proof.
  induction evs as [|ev evs IH]; intros t s s' Ho Hsw; [reflexivity|].
  cbn [in_time_order] in Ho. apply andb_prop in Ho as [Ht Ho]. apply Z.leb_le in Ht.
  destruct ev as [request now|now]; cbn [event_time is_incoming List.filter responses] in *.
  - destruct (rate_limited request) eqn:Hl.
    + rewrite !middleware_limited by exact Hl. cbn [fst snd].
      rewrite (swept_entry t now s s' _ Hsw Ht). f_equal.
      apply (IH now); [exact Ho|].
      apply swept_insert. now apply (swept_later t).
    + rewrite !middleware_unlimited by exact Hl. cbn [fst snd]. f_equal.
      apply (IH now); [exact Ho|]. now apply (swept_later t).
  - apply (IH now); [exact Ho|]. now apply (swept_cleanup t).
Qed.

(** X7: the periodic clean-up changes nothing that a client can see.
    When time does not run backwards, the outcomes of all requests of a
    history are the same with the clean-up runs as without them. *)
Theorem cleanup_is_invisible (t : Z) (s : gmap (list N) RateLimitData)
    (evs : list Event) :
  in_time_order t evs = true ->
  responses env s evs = responses env s (List.filter is_incoming evs).
Proof. intros Ho. apply (responses_swept evs t s s Ho), swept_refl. Qed.

End MiddlewareTraffic.

Section MiddlewareTrafficInstances.
Import JS Http Middleware Traffic.

Lemma addressless_clients_share_quota_witness :
  forwarded
    (snd (middleware Samples.dev Samples.other_request 3000
            (run Samples.dev ∅
               (Incoming Samples.other_request 1000
                :: List.map (fun rt => Incoming (fst rt) (snd rt))
                     (List.repeat ({| ip := Some []; pathname := lit "/api/x" |}, 2000) 99)))))
  = false.
Proof.
  apply (addressless_clients_share_quota Samples.dev ∅ Samples.other_request 1000
           (List.repeat ({| ip := Some []; pathname := lit "/api/x" |}, 2000) 99)
           Samples.other_request 3000).
  - apply lookup_empty.
  - reflexivity.
  - reflexivity.
  - apply List.Forall_forall. intros x Hx. apply repeat_spec in Hx. subst x.
    repeat split. unfold RATE_LIMIT_WINDOW. cbn. lia.
  - rewrite repeat_length. lia.
  - reflexivity.
  - reflexivity.
  - unfold RATE_LIMIT_WINDOW. lia.
Defined.

Lemma cleanup_is_invisible_witness :
  responses Samples.dev MoreSamples.used_up
    [Incoming Samples.sample_request 2000; Cleanup 70000;
     Incoming Samples.sample_request 70001]
  = responses Samples.dev MoreSamples.used_up
      [Incoming Samples.sample_request 2000; Incoming Samples.sample_request 70001].
Proof.
  exact (cleanup_is_invisible Samples.dev 0 MoreSamples.used_up
           [Incoming Samples.sample_request 2000; Cleanup 70000;
            Incoming Samples.sample_request 70001] eq_refl).
Defined.

End MiddlewareTrafficInstances.

(** ** More on the handlers *)

Section PostFacts.
Import JS Http ErrorHandler Db Routes Spec Checks.
Context `{Mongoose}.

Lemma prop_field (v : value) (k : string) :
  v <> VNull -> v <> VUndefined -> prop v k = ret (field v k).
Proof. apply prop_ok. Qed.

Lemma named_not_null (v : value) : named v = true -> v <> VNull /\ v <> VUndefined.
Proof. destruct v; cbn; intros; split; congruence. Qed.

Lemma named_name (v : value) :
  named v = true -> blank_name (field v "name") = false.
Proof. destruct v; cbn; try discriminate; apply negb_true_iff. Qed.

Lemma check_profiles_named (items : list value) (w : World) :
  forallb named items = true -> check_profiles items w = (w, inr tt).
Proof.
  induction items as [|p items IH]; cbn [forallb check_profiles]; [reflexivity|].
  intros Hn. apply andb_prop in Hn as [Hp Hn].
  destruct (named_not_null p Hp) as [H1 H2].
  rewrite (prop_field p "name" H1 H2). unfold bind, ret.
  rewrite (named_name p Hp). now apply IH.
Qed.

Lemma check_profiles_passed (items : list value) (w : World) :
  check_profiles items w = (w, inr tt) -> forallb named items = true.
Proof.
  induction items as [|p items IH]; cbn [forallb check_profiles]; [reflexivity|].
  intros Hc.
  assert (p <> VNull /\ p <> VUndefined) as [H1 H2].
  { split; intros ->; discriminate Hc. }
  rewrite (prop_field p "name" H1 H2) in Hc. unfold bind, ret in Hc.
  destruct (blank_name (field p "name")) eqn:E; [discriminate|].
  rewrite (IH Hc), andb_true_r. destruct p; cbn [named]; try congruence; now rewrite E.
Qed.

(** POST with a body that fails one of the checks. *)
Lemma POST_invalid_body (request : Request) (body : value) (w : World) :
  payload request = inr body -> valid_group_body body = false ->
  wp (POST_handler request)
    (fun w' r => read_only_since w w' /\ exists e, r = inl e) w.
Proof.
  intros Hp Hv. unfold POST_handler. apply wp_bind, wp_dbConnect.
  pose proof (read_only_dbConnect w) as Hro. set (w1 := fst (dbConnect w)) in *.
  clearbody w1. intros [e|[]]; [eauto|].
  unfold request_json. rewrite Hp. apply wp_bind, wp_ret.
  destruct (named body) eqn:Hn.
  2:{ apply wp_bind, wp_prop; [eauto|]. fold (field body "name").
      destruct (blank_name (field body "name")) eqn:Hb; [split; eauto|].
      destruct body; cbn in Hn; try discriminate; unfold field in Hb; cbn in Hb;
        rewrite Hb in Hn; discriminate. }
  destruct (named_not_null body Hn) as [H1 H2].
  rewrite (prop_field body "name" H1 H2). apply wp_bind, wp_ret.
  rewrite (named_name body Hn).
  rewrite (prop_field body "type" H1 H2). apply wp_bind, wp_ret.
  unfold valid_group_body in Hv. rewrite Hn in Hv. cbn [andb] in Hv.
  destruct (truthy (field body "type")) eqn:Ht; [|split; eauto].
  destruct (includes allowedGroupTypes (field body "type")) eqn:Hi; [|split; eauto].
  cbn [negb orb andb] in *.
  rewrite (prop_field body "profiles" H1 H2). apply wp_bind, wp_ret.
  destruct (field body "profiles") as [| | | | |[|p ps]|]; try solve [split; eauto].
  apply wp_bind. unfold wp at 1.
  destruct (check_profiles_pure (p :: ps) w1) as [[e He]|[[] Hok]].
  - rewrite He. cbn [fst snd]. eauto.
  - apply check_profiles_passed in Hok. congruence.
Qed.

(** POST with a body that passes all of them. *)
Lemma POST_valid_body (request : Request) (body : value) (w : World) :
  payload request = inr body -> valid_group_body body = true ->
  connectable w = true ->
  POST_handler request w
  = save_or_throw (POST_document (connected w) body) 201 "Failed to create user group"
      (connected w).
Proof.
  intros Hp Hv Hc. unfold valid_group_body in Hv.
  apply andb_prop in Hv as [Hv Hprofiles]. apply andb_prop in Hv as [Hn Htype].
  apply andb_prop in Htype as [Ht Hi].
  destruct (named_not_null body Hn) as [H1 H2].
  unfold POST_handler. unfold bind at 1. rewrite (dbConnect_ok w Hc).
  unfold bind at 1. unfold request_json. rewrite Hp. unfold ret at 1.
  rewrite (prop_field body "name" H1 H2). unfold bind at 1, ret at 1.
  rewrite (named_name body Hn).
  rewrite (prop_field body "type" H1 H2). unfold bind at 1, ret at 1.
  rewrite Ht, Hi. cbn [negb orb].
  rewrite (prop_field body "profiles" H1 H2). unfold bind at 1, ret at 1.
  unfold POST_document.
  destruct (field body "profiles") as [| | | | |[|p ps]|]; try discriminate.
  unfold bind at 1. rewrite (check_profiles_named _ _ Hprofiles).
  reflexivity.
Qed.

Lemma save_or_throw_ops (g : UserGroup.t) (st : Z) (failure : string) (w : World) :
  ops (fst (save_or_throw g st failure w)) = ops w ++ [Save g].
Proof.
  unfold save_or_throw, save.
  now destruct (save_outcome (log (Save g) w) g) as [[m ms|m err]|].
Qed.

(** X8: POST tries to save exactly when the body passes its checks (a
    non-blank string [name], one of the five types, a non-empty [profiles]
    array whose items each have a non-blank string [name]).  A body that
    fails one ends in an error with nothing written; a body that passes
    all, the database reachable, leads to one [save] of the document built
    from it. *)
Theorem POST_saves_only_valid_bodies (env : Env) (request : Request) (body : value)
    (w : World) :
  payload request = inr body ->
  (valid_group_body body = false ->
   read_only_since w (fst (POST env request w))
   /\ exists e, snd (POST env request w) = handleApiError env e)
  /\ (valid_group_body body = true -> connectable w = true ->
      ops (fst (POST env request w))
      = ops (connected w) ++ [Save (POST_document (connected w) body)]).
Proof.
  intros Hp. unfold POST. rewrite withErrorHandling_fst, withErrorHandling_snd. split.
  - intros Hv. pose proof (POST_invalid_body request body w Hp Hv) as [Hro [e He]].
    split; [exact Hro|]. rewrite He. now exists e.
  - intros Hv Hc. rewrite (POST_valid_body request body w Hp Hv Hc).
    apply save_or_throw_ops.
Qed.

Lemma Forall2_imap {A B} (R : A -> B -> Prop) (l : list A) :
  forall f : nat -> A -> B,
    (forall i x, R x (f i x)) -> Forall2 R l (imap f l).
Proof.
  induction l as [|x l IH]; intros f Hf; cbn; constructor; [apply Hf|].
  apply IH. intros i y. apply Hf.
Qed.

Lemma upsert_In (g : UserGroup.t) (gs : list UserGroup.t) : In g (upsert g gs).
Proof.
  unfold upsert. destruct (existsb _ gs) eqn:E.
  - apply existsb_exists in E as [x [Hx Hid]]. apply in_map_iff.
    exists x. now rewrite Hid.
  - apply in_or_app. right. now left.
Qed.

(** X9: a POST that passes the checks, with the database reachable and
    [save] resolving, answers 201 with the stored Group: its name is the
    trimmed name of the body, its type the type of the body, and it has one
    Profile per item, in order, with the trimmed name, the given avatar or
    the empty string, the given color or [#3B82F6]. *)
Theorem POST_creates_group (env : Env) (request : Request) (body : value) (w : World) :
  payload request = inr body -> valid_group_body body = true ->
  connectable w = true ->
  (forall w' g, save_outcome w' g = None) ->
  exists g,
    snd (POST env request w) = group_response g 201
    /\ In g (groups (fst (POST env request w)))
    /\ UserGroup.name g = trim (string_of (field body "name"))
    /\ field body "type" = VStr (UserGroup.type g)
    /\ In (UserGroup.type g) allowedGroupTypes
    /\ Forall2 profile_from (items_of (field body "profiles")) (UserGroup.profiles g)
    /\ transactions (fst (POST env request w)) = transactions w
    /\ budgets (fst (POST env request w)) = budgets w.
Proof.
  intros Hp Hv Hc Hsave. exists (POST_document (connected w) body).
  unfold POST. rewrite withErrorHandling_fst, withErrorHandling_snd.
  rewrite (POST_valid_body request body w Hp Hv Hc).
  unfold save_or_throw, save. rewrite Hsave. cbn [fst snd groups set_groups log].
  split; [reflexivity|]. split; [apply upsert_In|]. split; [reflexivity|].
  unfold valid_group_body in Hv. apply andb_prop in Hv as [Hv _].
  apply andb_prop in Hv as [_ Ht]. apply andb_prop in Ht as [_ Hi].
  assert (field body "type" = VStr (string_of (field body "type"))
          /\ In (string_of (field body "type")) allowedGroupTypes) as [Ht1 Ht2].
  { destruct (field body "type"); try discriminate. cbn [string_of includes] in *.
    split; [reflexivity|].
    apply existsb_exists in Hi as [x [Hx Hk]]. apply key_eqb_eq in Hk. now subst. }
  split; [exact Ht1|]. split; [exact Ht2|]. split.
  - cbn [POST_document new_group UserGroup.profiles]. apply Forall2_imap.
    intros i x. unfold profile_from, new_profile, or_else, field. now cbn.
  - unfold connected. destruct (cached_conn w); now cbn.
Qed.

(** X10: when [save] rejects in POST the error is translated.  A mongoose
    validation error becomes 400 VALIDATION [Validation failed] with the
    field messages as details; any other rejection becomes 500 DATABASE
    [Failed to create user group] with the error as details; details are
    left out in production.  The Groups stay as they were. *)
Theorem POST_translates_save_errors (env : Env) (request : Request) (body : value)
    (w : World) (e : save_error) :
  payload request = inr body -> valid_group_body body = true ->
  connectable w = true ->
  save_outcome (log (Save (POST_document (connected w) body)) (connected w))
    (POST_document (connected w) body) = Some e ->
  same_data w (fst (POST env request w))
  /\ snd (POST env request w)
     = match e with
       | ValidationError _ messages =>
           NextResponse_json
             (error_envelope VALIDATION (lit "Validation failed")
                (if production env then None
                 else Some (VArr (List.map VStr messages))))
             400
       | OtherError _ error =>
           NextResponse_json
             (error_envelope DATABASE (lit "Failed to create user group")
                (if negb (production env) && truthy error then Some error else None))
             500
       end.
Proof.
  intros Hp Hv Hc He. unfold POST. rewrite withErrorHandling_fst, withErrorHandling_snd.
  rewrite (POST_valid_body request body w Hp Hv Hc).
  unfold save_or_throw, save. rewrite He.
  destruct e as [m messages|m error]; cbn [fst snd]; (split;
    [unfold same_data, connected; destruct (cached_conn w); now cbn|]).
  - unfold handleApiError, error_envelope. cbn [createError.validation statusCode
      message type details truthy]. rewrite andb_true_r.
    now destruct (production env).
  - unfold handleApiError, error_envelope. cbn [createError.database statusCode
      message type details].
    now destruct (negb (production env) && truthy error).
Qed.

End PostFacts.

Section PutDeleteFacts.
Import JS Http ErrorHandler Db Routes Spec Checks.
Context `{Mongoose}.

Lemma data_connected (w : World) : same_data w (connected w).
Proof. unfold same_data, connected. destruct (cached_conn w); now cbn. Qed.

Lemma find_upsert_id (id : jsstring) (g0 g : UserGroup.t) (gs : list UserGroup.t) :
  List.find (fun x => id_eqb (UserGroup._id x) id) gs = Some g0 ->
  UserGroup._id g = UserGroup._id g0 ->
  List.find (fun x => id_eqb (UserGroup._id x) id) (upsert g gs) = Some g.
Proof.
  intros Hf Hsame. pose proof (find_some _ _ Hf) as [Hin Hid].
  apply id_eqb_eq in Hid. unfold upsert.
  assert (existsb (fun x => id_eqb (UserGroup._id x) (UserGroup._id g)) gs = true) as ->.
  { apply existsb_exists. exists g0. split; [exact Hin|]. now apply id_eqb_eq. }
  assert (UserGroup._id g = id) as Hg by congruence.
  clear Hin Hsame Hid. induction gs as [|x gs IH]; [discriminate|].
  cbn in *. rewrite Hg. destruct (id_eqb (UserGroup._id x) id) eqn:E.
  - cbn. rewrite Hg. assert (id_eqb id id = true) as -> by now apply id_eqb_eq.
    reflexivity.
  - rewrite E. rewrite Hg in IH. now apply IH.
Qed.

Lemma upsert_others (id : jsstring) (g : UserGroup.t) (gs : list UserGroup.t) :
  UserGroup._id g <> id ->
  List.find (fun x => id_eqb (UserGroup._id x) id) (upsert g gs)
  = List.find (fun x => id_eqb (UserGroup._id x) id) gs.
Proof.
  intros Hne. unfold upsert.
  assert (id_eqb (UserGroup._id g) id = false) as Hg.
  { destruct (id_eqb (UserGroup._id g) id) eqn:E; [|reflexivity].
    now apply id_eqb_eq in E. }
  destruct (existsb _ gs).
  - induction gs as [|x gs IH]; [reflexivity|]. cbn.
    destruct (id_eqb (UserGroup._id x) (UserGroup._id g)) eqn:E.
    + apply id_eqb_eq in E. rewrite Hg, E, Hg. exact IH.
    + destruct (id_eqb (UserGroup._id x) id); [reflexivity | exact IH].
  - induction gs as [|x gs IH]; cbn; [now rewrite Hg|].
    destruct (id_eqb (UserGroup._id x) id); [reflexivity | exact IH].
Qed.

Lemma PUT_valid_body (request : Request) (body : value) (group : UserGroup.t)
    (w : World) :
  ObjectId_isValid (params_id request) = true ->
  connectable w = true -> payload request = inr body ->
  find_group (params_id request) w = Some group ->
  valid_update_body body = true ->
  PUT_handler request w
  = save_or_throw
      (PUT_document (log (FindById (params_id request)) (connected w)) group body)
      200 "Failed to update user group"
      (log (FindById (params_id request)) (connected w)).
Proof.
  intros Hid Hc Hp Hf Hv. unfold PUT_handler. unfold bind at 1.
  rewrite (dbConnect_ok w Hc). unfold bind at 1, request_json. rewrite Hp.
  unfold ret at 1. rewrite Hid. cbn [negb]. unfold bind at 1, findById.
  assert (groups (log (FindById (params_id request)) (connected w)) = groups w) as ->
      by apply groups_connected.
  unfold find_group in Hf. rewrite Hf.
  assert (body <> VNull /\ body <> VUndefined) as [H1 H2].
  { split; intros ->; discriminate Hv. }
  rewrite (prop_field body "name" H1 H2), (prop_field body "profiles" H1 H2).
  unfold PUT_document.
  assert (exists s c t p ps,
             field body "name" = VStr s /\ trim s = c :: t
             /\ field body "profiles" = VArr (p :: ps)) as (s & c & t & p & ps & Hn & Ht & Hps).
  { unfold valid_update_body in Hv. destruct body; try discriminate;
      destruct (field _ "name") as [| | | |s| |]; try discriminate;
      destruct (field _ "profiles") as [| | | | |[|p ps]|]; try discriminate;
      destruct (trim s) as [|c t] eqn:Et; try discriminate; eauto 10. }
  rewrite Hn, Hps. unfold bind at 1, ret at 1.
  assert (truthy (VStr s) = true) as ->.
  { destruct s; [discriminate Ht | reflexivity]. }
  cbn [negb]. unfold bind at 1, trim_method, ret at 1. cbn [string_of items_of].
  rewrite Ht. unfold bind at 1, ret at 1. reflexivity.
Qed.

(** X11: a PUT with a well-formed id of an existing Group, a non-blank
    string [name] and a non-empty [profiles] array, [save] resolving,
    answers 200 with the Group written back under the same id: the name
    is the trimmed name of the body, the profile list is the list of the
    body cast item by item (nothing of the old list is kept), the type is
    the old type whatever the body says, and the Groups of other
    identifiers (an identifier being read as the [ObjectId] it denotes),
    the Transactions and the Budgets are not touched. *)
Theorem PUT_replaces_name_and_profiles (env : Env) (request : Request) (body : value)
    (group : UserGroup.t) (w : World) :
  ObjectId_isValid (params_id request) = true ->
  connectable w = true -> payload request = inr body ->
  find_group (params_id request) w = Some group ->
  valid_update_body body = true ->
  (forall w' g, save_outcome w' g = None) ->
  exists g,
    snd (PUT env request w) = group_response g 200
    /\ find_group (params_id request) (fst (PUT env request w)) = Some g
    /\ UserGroup._id g = UserGroup._id group
    /\ UserGroup.type g = UserGroup.type group
    /\ UserGroup.name g = trim (string_of (field body "name"))
    /\ UserGroup.profiles g
       = imap (castProfile (log (FindById (params_id request)) (connected w)))
           (items_of (field body "profiles"))
    /\ length (UserGroup.profiles g) = length (items_of (field body "profiles"))
    /\ (forall id,
        find_group id (fst (PUT env request w))
        = if id_eqb (ObjectId_of id) (ObjectId_of (params_id request))
          then Some g else find_group id w)
    /\ transactions (fst (PUT env request w)) = transactions w
    /\ budgets (fst (PUT env request w)) = budgets w.
Proof.
  intros Hid Hc Hp Hf Hv Hsave.
  exists (PUT_document (log (FindById (params_id request)) (connected w)) group body).
  unfold PUT. rewrite withErrorHandling_fst, withErrorHandling_snd.
  rewrite (PUT_valid_body request body group w Hid Hc Hp Hf Hv).
  unfold save_or_throw, save. rewrite Hsave.
  cbn [fst snd groups transactions budgets set_groups log].
  destruct (data_connected w) as [Hg [Ht Hb]]. rewrite Hg, Ht, Hb.
  split; [reflexivity|]. split.
  { unfold find_group. cbn [groups set_groups].
    apply (find_upsert_id _ group); [exact Hf | reflexivity]. }
  do 4 (split; [reflexivity|]).
  split; [cbn [PUT_document UserGroup.profiles]; apply length_imap|].
  split; [|now split].
  intros id. unfold find_group. cbn [groups set_groups].
  destruct (id_eqb (ObjectId_of id) (ObjectId_of (params_id request))) eqn:E.
  - apply id_eqb_eq in E. rewrite E.
    apply (find_upsert_id _ group); [exact Hf | reflexivity].
  - apply upsert_others. cbn [PUT_document UserGroup._id].
    apply find_some in Hf as [_ Hf]. apply id_eqb_eq in Hf. rewrite Hf.
    intros Heq. symmetry in Heq. apply id_eqb_eq in Heq. congruence.
Qed.



Lemma find_group_connected (id : jsstring) (w : World) :
  find_group id (connected w) = find_group id w.
Proof. unfold find_group. now rewrite groups_connected. Qed.






End PutDeleteFacts.

Section DeleteCascade.
Import JS Http ErrorHandler Db Routes Spec Checks.
Context `{Mongoose}.

Lemma find_filter_none (id : jsstring) (gs : list UserGroup.t) :
  List.find (fun g => id_eqb (UserGroup._id g) id)
    (List.filter (fun g => negb (id_eqb (UserGroup._id g) id)) gs) = None.
Proof.
  induction gs as [|g gs IH]; [reflexivity|]. cbn.
  destruct (id_eqb (UserGroup._id g) id) eqn:E; cbn; [exact IH|]. now rewrite E.
Qed.

Lemma find_filter_other (id id' : jsstring) (gs : list UserGroup.t) :
  id' <> id ->
  List.find (fun g => id_eqb (UserGroup._id g) id')
    (List.filter (fun g => negb (id_eqb (UserGroup._id g) id)) gs)
  = List.find (fun g => id_eqb (UserGroup._id g) id') gs.
Proof.
  intros Hne. induction gs as [|g gs IH]; [reflexivity|]. cbn.
  destruct (id_eqb (UserGroup._id g) id) eqn:E; cbn.
  - apply id_eqb_eq in E.
    destruct (id_eqb (UserGroup._id g) id') eqn:E'; [|exact IH].
    apply id_eqb_eq in E'. congruence.
  - destruct (id_eqb (UserGroup._id g) id'); [reflexivity | exact IH].
Qed.

Lemma DELETE_group_run (request : Request) (group : UserGroup.t) (w : World) :
  ObjectId_isValid (params_id request) = true ->
  connectable w = true ->
  no_profile_chosen request = true ->
  find_group (params_id request) w = Some group ->
  exists w',
    DELETE_handler request w = (w', inr group_deleted_response)
    /\ groups w'
       = List.filter
           (fun g => negb (id_eqb (UserGroup._id g) (ObjectId_of (params_id request))))
           (groups w)
    /\ transactions w' = without (of_group (params_id request)) (transactions w)
    /\ budgets w' = without (of_group (params_id request)) (budgets w).
Proof.
  intros Hid Hc Hno Hf. rewrite <- find_group_connected in Hf.
  destruct (data_connected w) as [Hg [Ht Hb]].
  unfold find_group in Hf. unfold DELETE_handler. rewrite Hid. cbn [negb].
  unfold bind at 1. rewrite (dbConnect_ok w Hc).
  unfold no_profile_chosen in Hno.
  destruct (profileId request) as [[|c pid]|]; try discriminate Hno;
    unfold bind, findByIdAndDelete, deleteTransactionsOfGroup, deleteBudgetsOfGroup;
    cbn [groups log]; rewrite Hf;
    (eexists; split; [reflexivity|]);
    cbn [groups transactions budgets set_groups set_transactions set_budgets log];
    rewrite Hg, Ht, Hb; auto.
Qed.

(** X13: DELETE without a [profileId] (none, or an empty one) on the
    well-formed id of an existing Group answers 200
    [{success: true, message}] whatever the number of Profiles of the
    Group: afterwards no Group has the id, the Transactions and Budgets
    left are exactly those whose [groupId] is not the given string, and
    the Group of every other identifier (an identifier being read as the
    [ObjectId] it denotes) is found as before. *)
Theorem DELETE_group_cascades (env : Env) (request : Request) (group : UserGroup.t)
    (w : World) :
  ObjectId_isValid (params_id request) = true ->
  connectable w = true ->
  no_profile_chosen request = true ->
  find_group (params_id request) w = Some group ->
  snd (DELETE env request w) = group_deleted_response
  /\ find_group (params_id request) (fst (DELETE env request w)) = None
  /\ (forall id,
      find_group id (fst (DELETE env request w))
      = if id_eqb (ObjectId_of id) (ObjectId_of (params_id request))
        then None else find_group id w)
  /\ transactions (fst (DELETE env request w))
     = without (of_group (params_id request)) (transactions w)
  /\ budgets (fst (DELETE env request w))
     = without (of_group (params_id request)) (budgets w)
  /\ (forall t, In t (transactions (fst (DELETE env request w)))
                <-> In t (transactions w) /\ Owned.groupId t <> params_id request)
  /\ (forall t, In t (budgets (fst (DELETE env request w)))
                <-> In t (budgets w) /\ Owned.groupId t <> params_id request).
Proof.
  intros Hid Hc Hno Hf.
  destruct (DELETE_group_run request group w Hid Hc Hno Hf)
    as (w' & Hrun & Hg & Ht & Hb).
  unfold DELETE. rewrite withErrorHandling_fst, withErrorHandling_snd, Hrun.
  cbn [fst snd]. unfold find_group. rewrite Hg, Ht, Hb.
  split; [reflexivity|]. split; [apply find_filter_none|].
  split.
  { intros id. destruct (id_eqb (ObjectId_of id) (ObjectId_of (params_id request))) eqn:E.
    - apply id_eqb_eq in E. rewrite E. apply find_filter_none.
    - apply find_filter_other. intros Heq. apply id_eqb_eq in Heq. congruence. }
  do 2 (split; [reflexivity|]).
  assert (forall l t,
             In t (without (of_group (params_id request)) l)
             <-> In t l /\ Owned.groupId t <> params_id request) as Hin.
  { intros l t. unfold without, of_group. rewrite filter_In.
    destruct (id_eqb (Owned.groupId t) (params_id request)) eqn:E; cbn.
    - apply id_eqb_eq in E. intuition congruence.
    - split; [|tauto]. intros [Hl _]. split; [exact Hl|].
      intros Heq. apply id_eqb_eq in Heq. congruence. }
  split; intros t; apply Hin.
Qed.

(** The run of DELETE with a [profileId] up to [group.save()]. *)
Lemma DELETE_profile_reaches_save (request : Request) (c : N) (pid : jsstring)
    (group : UserGroup.t) (w : World) :
  ObjectId_isValid (params_id request) = true ->
  profileId request = Some (c :: pid) ->
  ObjectId_isValid (c :: pid) = true ->
  connectable w = true ->
  find_group (params_id request) w = Some group ->
  (2 <= length (UserGroup.profiles group))%nat ->
  exists w1,
    DELETE_handler request w
    = bind (save_plain
              (with_profiles group
                 (pull (ObjectId_of (c :: pid)) (UserGroup.profiles group))))
        (fun _ =>
           ret (group_response
                  (with_profiles group
                     (pull (ObjectId_of (c :: pid)) (UserGroup.profiles group)))
                  200))
        w1
    /\ groups w1 = groups w
    /\ transactions w1 = without (of_profile (c :: pid)) (transactions w)
    /\ budgets w1 = without (of_profile (c :: pid)) (budgets w).
Proof.
  intros Hid Hpid Hvalid Hc Hf Hlen. rewrite <- find_group_connected in Hf.
  destruct (data_connected w) as [Hg [Ht Hb]].
  unfold find_group in Hf. unfold DELETE_handler.
  rewrite Hid, Hpid, Hvalid. cbn [negb]. unfold bind at 1.
  rewrite (dbConnect_ok w Hc). unfold bind at 1, findById.
  cbn [groups log]. rewrite Hf.
  assert ((length (UserGroup.profiles group) <=? 1)%nat = false) as ->
      by (apply Nat.leb_gt; lia).
  unfold bind at 1, deleteTransactionsOfProfile.
  unfold bind at 1, deleteBudgetsOfProfile.
  eexists. split; [reflexivity|].
  cbn [groups transactions budgets set_transactions set_budgets log].
  rewrite Hg, Ht, Hb. auto.
Qed.

Lemma In_pull (pid : jsstring) (ps : list Profile.t) (p : Profile.t) :
  In p (pull pid ps) <-> In p ps /\ Profile._id p <> pid.
Proof.
  unfold pull. rewrite filter_In.
  destruct (id_eqb (Profile._id p) pid) eqn:E; cbn.
  - apply id_eqb_eq in E. intuition congruence.
  - split; [|tauto]. intros [Hl _]. split; [exact Hl|].
    intros Heq. apply id_eqb_eq in Heq. congruence.
Qed.

Lemma In_without_profile (pid : jsstring) (l : list Owned.t) (t : Owned.t) :
  In t (without (of_profile pid) l) <-> In t l /\ Owned.profileId t <> pid.
Proof.
  unfold without, of_profile. rewrite filter_In.
  destruct (id_eqb (Owned.profileId t) pid) eqn:E; cbn.
  - apply id_eqb_eq in E. intuition congruence.
  - split; [|tauto]. intros [Hl _]. split; [exact Hl|].
    intros Heq. apply id_eqb_eq in Heq. congruence.
Qed.

(** X14: DELETE with a well-formed [profileId] on an existing Group of at
    least two Profiles, [save] resolving, answers 200 with the Group as
    written back: its Profiles are those of the old list whose id is not
    the [ObjectId] of the given string (every Profile that carries it is
    removed, however the string spells it), its id, name and type are
    kept, the Groups of other identifiers are found as before, and the
    Transactions and Budgets left are those whose [profileId] is not the
    given string, whichever Group they belong to. *)
Theorem DELETE_profile_removes_profile (env : Env) (request : Request) (c : N)
    (pid : jsstring) (group : UserGroup.t) (w : World) :
  ObjectId_isValid (params_id request) = true ->
  profileId request = Some (c :: pid) ->
  ObjectId_isValid (c :: pid) = true ->
  connectable w = true ->
  find_group (params_id request) w = Some group ->
  (2 <= length (UserGroup.profiles group))%nat ->
  (forall w' g, save_outcome w' g = None) ->
  exists g,
    snd (DELETE env request w) = group_response g 200
    /\ find_group (params_id request) (fst (DELETE env request w)) = Some g
    /\ UserGroup._id g = UserGroup._id group
    /\ UserGroup.name g = UserGroup.name group
    /\ UserGroup.type g = UserGroup.type group
    /\ (forall p, In p (UserGroup.profiles g)
                  <-> In p (UserGroup.profiles group)
                      /\ Profile._id p <> ObjectId_of (c :: pid))
    /\ (forall id,
        find_group id (fst (DELETE env request w))
        = if id_eqb (ObjectId_of id) (ObjectId_of (params_id request))
          then Some g else find_group id w)
    /\ (forall t, In t (transactions (fst (DELETE env request w)))
                  <-> In t (transactions w) /\ Owned.profileId t <> c :: pid)
    /\ (forall t, In t (budgets (fst (DELETE env request w)))
                  <-> In t (budgets w) /\ Owned.profileId t <> c :: pid).
Proof.
  intros Hid Hpid Hvalid Hc Hf Hlen Hsave.
  destruct (DELETE_profile_reaches_save request c pid group w
              Hid Hpid Hvalid Hc Hf Hlen) as (w1 & Hrun & Hg & Ht & Hb).
  exists (with_profiles group (pull (ObjectId_of (c :: pid)) (UserGroup.profiles group))).
  unfold DELETE. rewrite withErrorHandling_fst, withErrorHandling_snd, Hrun.
  unfold bind, save_plain, save. rewrite Hsave. unfold ret. cbn [fst snd].
  unfold find_group. cbn [groups transactions budgets set_groups log].
  rewrite Hg, Ht, Hb.
  split; [reflexivity|].
  split; [apply (find_upsert_id _ group); [exact Hf | reflexivity]|].
  do 3 (split; [reflexivity|]).
  split; [intros p; apply In_pull|].
  split; [|split; intros t; apply In_without_profile].
  intros id. destruct (id_eqb (ObjectId_of id) (ObjectId_of (params_id request))) eqn:E.
  - apply id_eqb_eq in E. rewrite E.
    apply (find_upsert_id _ group); [exact Hf | reflexivity].
  - apply upsert_others. cbn [with_profiles UserGroup._id].
    apply find_some in Hf as [_ Hf]. apply id_eqb_eq in Hf. rewrite Hf.
    intros Heq. symmetry in Heq. apply id_eqb_eq in Heq. congruence.
Qed.

(** X15: the deletion of a Profile is not atomic.  Under the conditions of
    X14 but with [save] rejecting, the answer is a 500 SERVER_ERROR and
    the Groups are what they were, the Profile included, while the
    Transactions and Budgets of the Profile have already been deleted. *)
Theorem DELETE_profile_is_not_atomic (env : Env) (request : Request) (c : N)
    (pid : jsstring) (group : UserGroup.t) (w : World) :
  ObjectId_isValid (params_id request) = true ->
  profileId request = Some (c :: pid) ->
  ObjectId_isValid (c :: pid) = true ->
  connectable w = true ->
  find_group (params_id request) w = Some group ->
  (2 <= length (UserGroup.profiles group))%nat ->
  (forall w' g, exists e, save_outcome w' g = Some e) ->
  status (snd (DELETE env request w)) = 500
  /\ (exists m, body (snd (DELETE env request w)) = error_envelope SERVER m None)
  /\ groups (fst (DELETE env request w)) = groups w
  /\ transactions (fst (DELETE env request w))
     = without (of_profile (c :: pid)) (transactions w)
  /\ budgets (fst (DELETE env request w))
     = without (of_profile (c :: pid)) (budgets w).
Proof.
  intros Hid Hpid Hvalid Hc Hf Hlen Hsave.
  destruct (DELETE_profile_reaches_save request c pid group w
              Hid Hpid Hvalid Hc Hf Hlen) as (w1 & Hrun & Hg & Ht & Hb).
  unfold DELETE. rewrite withErrorHandling_fst, withErrorHandling_snd, Hrun.
  unfold bind, save_plain, save.
  destruct (Hsave
              (log (Save (with_profiles group
                            (pull (ObjectId_of (c :: pid)) (UserGroup.profiles group))))
                 w1)
              (with_profiles group
                 (pull (ObjectId_of (c :: pid)) (UserGroup.profiles group))))
    as [e He].
  rewrite He.
  assert (forall m, status (handleApiError env (ThrowError m)) = 500
                    /\ exists m', body (handleApiError env (ThrowError m))
                                  = error_envelope SERVER m' None) as Hresp.
  { intros m. unfold handleApiError, error_envelope. cbn [status body NextResponse_json].
    split; [reflexivity|]. rewrite andb_false_r. eexists. reflexivity. }
  destruct e as [m ms|m err]; cbn [fst snd groups transactions budgets log];
    rewrite Hg, Ht, Hb; destruct (Hresp m) as [Hs Hbody]; auto.
Qed.

End DeleteCascade.

Section EmptiedGroup.
Import JS Http ErrorHandler Db Routes Spec Checks.
Context `{Mongoose}.

Lemma Forall_imap {A B} (P : B -> Prop) (l : list A) :
  forall f : nat -> A -> B,
    (forall i x, In x l -> P (f i x)) -> Forall P (imap f l).
Proof.
  induction l as [|x l IH]; intros f Hf; cbn; constructor.
  - apply Hf. now left.
  - apply IH. intros i y Hy. apply Hf. now right.
Qed.

Lemma pull_all (id : jsstring) (ps : list Profile.t) :
  Forall (fun p => Profile._id p = id) ps -> pull id ps = [].
Proof.
  induction 1 as [|p ps Hp _ IH]; [reflexivity|].
  cbn. assert (id_eqb (Profile._id p) id = true) as -> by now apply id_eqb_eq.
  exact IH.
Qed.

Lemma connected_connectable (w : World) :
  connectable w = true -> connectable (connected w) = true.
Proof.
  unfold connectable, connected. destruct (cached_conn w) eqn:E; cbn.
  - now rewrite E.
  - reflexivity.
Qed.

(** C5 (the code departs from it): a Group can be left without a
    Profile.  PUT assigns the [profiles] of the body as they are, so two
    items can bring the same [_id]; DELETE with that [profileId] then
    passes the guard [group.profiles.length <= 1], since the Group has
    two Profiles, and [pull] removes both.  Both requests are answered
    200 and the Group is stored with no Profile.  The casting of
    sub-documents and [save] belong to mongoose and to the schema: the
    statement takes as hypotheses that a cast item keeps the [_id] it
    brings and that [save] resolves. *)
Theorem DELETE_can_empty_a_group (env : Env) (put del : Request) (body : value)
    (c : N) (pid : jsstring) (group : UserGroup.t) (w : World) :
  params_id del = params_id put ->
  ObjectId_isValid (params_id put) = true ->
  payload put = inr body ->
  profileId del = Some (c :: pid) ->
  ObjectId_isValid (c :: pid) = true ->
  connectable w = true ->
  find_group (params_id put) w = Some group ->
  valid_update_body body = true ->
  (2 <= length (items_of (field body "profiles")))%nat ->
  (forall w' i item,
      In item (items_of (field body "profiles")) ->
      Profile._id (castProfile w' i item) = ObjectId_of (c :: pid)) ->
  (forall w' g, save_outcome w' g = None) ->
  status (snd (PUT env put w)) = 200
  /\ status (snd (DELETE env del (fst (PUT env put w)))) = 200
  /\ (exists g,
        find_group (params_id put) (fst (DELETE env del (fst (PUT env put w)))) = Some g
        /\ UserGroup.profiles g = [])
  /\ ~ groups_nonempty (fst (DELETE env del (fst (PUT env put w)))).
Proof.
  intros Hsame Hid Hp Hpid Hvalid Hc Hf Hv Hlen Hcast Hsave.
  set (w0 := log (FindById (params_id put)) (connected w)).
  set (doc := PUT_document w0 group body).
  assert (PUT_handler put w = save_or_throw doc 200 "Failed to update user group" w0)
    as Hput by exact (PUT_valid_body put body group w Hid Hc Hp Hf Hv).
  assert (fst (PUT env put w) = set_groups (upsert doc (groups w0)) (log (Save doc) w0)
          /\ snd (PUT env put w) = group_response doc 200) as [Hw1 Hr1].
  { unfold PUT. rewrite withErrorHandling_fst, withErrorHandling_snd, Hput.
    unfold save_or_throw, save. rewrite Hsave. now split. }
  set (w1 := fst (PUT env put w)) in *.
  assert (connectable w1 = true) as Hc1.
  { rewrite Hw1. exact (connected_connectable w Hc). }
  assert (find_group (params_id put) w1 = Some doc) as Hf1.
  { assert (groups w0 = groups w) as Hg0 by apply groups_connected.
    rewrite Hw1. unfold find_group. cbn [groups set_groups log].
    rewrite Hg0. apply (find_upsert_id _ group); [exact Hf | reflexivity]. }
  assert (length (UserGroup.profiles doc) = length (items_of (field body "profiles")))
    as Hl by apply length_imap.
  assert (pull (ObjectId_of (c :: pid)) (UserGroup.profiles doc) = []) as Hpull.
  { apply pull_all. cbn [doc PUT_document UserGroup.profiles].
    apply Forall_imap. intros i x Hx. now apply Hcast. }
  rewrite <- Hsame in Hid, Hf1.
  destruct (DELETE_profile_reaches_save del c pid doc w1 Hid Hpid Hvalid Hc1 Hf1)
    as (w2 & Hrun & Hg & _); [lia|].
  rewrite Hpull in Hrun.
  assert (fst (DELETE env del w1)
          = set_groups (upsert (with_profiles doc []) (groups w2))
              (log (Save (with_profiles doc [])) w2)
          /\ snd (DELETE env del w1) = group_response (with_profiles doc []) 200)
    as [Hw3 Hr3].
  { unfold DELETE. rewrite withErrorHandling_fst, withErrorHandling_snd, Hrun.
    unfold bind, save_plain, save. rewrite Hsave. now split. }
  assert (find_group (params_id del) (fst (DELETE env del w1))
          = Some (with_profiles doc [])) as Hf3.
  { rewrite Hw3. unfold find_group. cbn [groups set_groups log]. rewrite Hg.
    apply (find_upsert_id _ doc); [exact Hf1 | reflexivity]. }
  split; [now rewrite Hr1|]. split; [now rewrite Hr3|]. split.
  - exists (with_profiles doc []). rewrite <- Hsame. now split.
  - intros Hne. unfold groups_nonempty in Hne. rewrite List.Forall_forall in Hne.
    unfold find_group in Hf3. apply find_some in Hf3 as [Hin _].
    specialize (Hne _ Hin). cbn in Hne. lia.
Qed.

End EmptiedGroup.

Section TripleRules.
Import JS Http ErrorHandler Db Routes Spec Checks Runs.
Local Open Scope handler_scope.
Context `{Mongoose}.
Variable I : World -> Prop.
Variable codes : list Z.
Hypothesis I_log : forall o w, is_connect o = false -> I w -> I (log o w).
Hypothesis I_groups : forall l w, I w -> I (set_groups l w).
Hypothesis I_transactions : forall l w, I w -> I (set_transactions l w).
Hypothesis I_budgets : forall l w, I w -> I (set_budgets l w).
Hypothesis I_dbConnect : forall w, I w -> I (fst (dbConnect w)).

Local Abbreviation E := (throws_within codes).

Lemma triple_ret {A} (a : A) (Q : A -> Prop) : Q a -> triple I (ret a) E Q.
Proof. intros Ha w Hw. now split. Qed.

Lemma triple_throw {A} (e : thrown) (Q : A -> Prop) : E e -> triple I (@throw _ A e) E Q.
Proof. intros He w Hw. now split. Qed.

Lemma triple_bind {A B} (c : M World A) (k : A -> M World B) (Q : B -> Prop) :
  triple I c E (fun _ => True) -> (forall a, triple I (k a) E Q) ->
  triple I (bind c k) E Q.
Proof.
  intros Hc Hk w Hw. unfold bind. destruct (Hc w Hw) as [Hi He].
  destruct (c w) as [w' [e|a]]; cbn [fst snd] in *; [now split|].
  now apply Hk.
Qed.

Lemma triple_pure {A} (c : M World A) :
  (forall w, (exists m, c w = (w, inl (ThrowError m))) \/ (exists a, c w = (w, inr a))) ->
  triple I c E (fun _ => True).
Proof. intros Hc w Hw. destruct (Hc w) as [[m ->]|[a ->]]; now split. Qed.

Lemma triple_dbConnect : triple I dbConnect E (fun _ => True).
Proof.
  intros w Hw. split; [now apply I_dbConnect|].
  unfold dbConnect. destruct (cached_conn w); [exact Logic.I|].
  cbn [unreachable log]. now destruct (unreachable w).
Qed.

Lemma triple_request_json (request : Request) :
  triple I (request_json request) E (fun _ => True).
Proof.
  apply triple_pure. intros w. unfold request_json.
  destruct (payload request); eauto.
Qed.

Lemma triple_prop (v : value) (k : string) : triple I (prop v k) E (fun _ => True).
Proof.
  apply triple_pure. intros w. unfold prop.
  destruct v; eauto; destruct (get_prop _ _); eauto.
Qed.

Lemma triple_trim_method (x : value) : triple I (trim_method x) E (fun _ => True).
Proof. apply triple_pure. intros w. unfold trim_method. destruct x; eauto. Qed.

Lemma triple_check_profiles (items : list value) :
  In 400 codes -> triple I (check_profiles items) E (fun _ => True).
Proof.
  intros H400. induction items as [|p items IH]; cbn [check_profiles].
  - now apply triple_ret.
  - apply triple_bind; [apply triple_prop|]. intros name.
    destruct (blank_name name); [|exact IH]. apply triple_throw. exact H400.
Qed.

Lemma triple_get_world : triple I get_world E (fun _ => True).
Proof. intros w Hw. now split. Qed.

Lemma triple_find_all : triple I find_all E (fun _ => True).
Proof. intros w Hw. split; [|exact Logic.I]. now apply I_log. Qed.

Lemma triple_findById (id : jsstring) : triple I (findById id) E (fun _ => True).
Proof. intros w Hw. split; [|exact Logic.I]. now apply I_log. Qed.

Lemma triple_findByIdAndDelete (id : jsstring) :
  triple I (findByIdAndDelete id) E (fun _ => True).
Proof. intros w Hw. split; [|exact Logic.I]. now apply I_groups, I_log. Qed.

Lemma triple_deleteTransactionsOfProfile (id : jsstring) :
  triple I (deleteTransactionsOfProfile id) E (fun _ => True).
Proof. intros w Hw. split; [|exact Logic.I]. now apply I_transactions, I_log. Qed.

Lemma triple_deleteBudgetsOfProfile (id : jsstring) :
  triple I (deleteBudgetsOfProfile id) E (fun _ => True).
Proof. intros w Hw. split; [|exact Logic.I]. now apply I_budgets, I_log. Qed.

Lemma triple_deleteTransactionsOfGroup (id : jsstring) :
  triple I (deleteTransactionsOfGroup id) E (fun _ => True).
Proof. intros w Hw. split; [|exact Logic.I]. now apply I_transactions, I_log. Qed.

Lemma triple_deleteBudgetsOfGroup (id : jsstring) :
  triple I (deleteBudgetsOfGroup id) E (fun _ => True).
Proof. intros w Hw. split; [|exact Logic.I]. now apply I_budgets, I_log. Qed.

Lemma triple_save_or_throw (g : UserGroup.t) (st : Z) (failure : string) :
  In 400 codes -> In 500 codes ->
  triple I (save_or_throw g st failure) E (fun r => status r = st).
Proof.
  intros H400 H500 w Hw. unfold save_or_throw, save.
  destruct (save_outcome (log (Save g) w) g) as [[m ms|m err]|]; cbn [fst snd].
  - split; [now apply I_log | exact H400].
  - split; [now apply I_log | exact H500].
  - split; [now apply I_groups, I_log | reflexivity].
Qed.

Lemma triple_save_plain (g : UserGroup.t) : triple I (save_plain g) E (fun _ => True).
Proof.
  intros w Hw. unfold save_plain, save.
  destruct (save_outcome (log (Save g) w) g) as [[m ms|m err]|]; cbn [fst snd];
    (split; [|exact Logic.I]); try now apply I_log.
  now apply I_groups, I_log.
Qed.

Lemma GET_triple (request : Request) :
  triple I (GET_handler request) E (fun r => status r = 200).
Proof.
  unfold GET_handler. apply triple_bind; [apply triple_dbConnect|]. intros _.
  apply triple_bind; [apply triple_find_all|]. intros [|g gs]; now apply triple_ret.
Qed.

Lemma POST_triple (request : Request) :
  In 400 codes -> In 500 codes ->
  triple I (POST_handler request) E (fun r => status r = 201).
Proof.
  intros H400 H500. unfold POST_handler.
  apply triple_bind; [apply triple_dbConnect|]. intros _.
  apply triple_bind; [apply triple_request_json|]. intros body.
  apply triple_bind; [apply triple_prop|]. intros name.
  destruct (blank_name name); [now apply triple_throw|].
  apply triple_bind; [apply triple_prop|]. intros type.
  destruct (negb (truthy type) || negb (includes allowedGroupTypes type));
    [now apply triple_throw|].
  apply triple_bind; [apply triple_prop|]. intros profiles.
  destruct profiles as [| | | | |[|p ps]|]; try now apply triple_throw.
  apply triple_bind; [now apply triple_check_profiles|]. intros _.
  apply triple_bind; [apply triple_get_world|]. intros w.
  now apply triple_save_or_throw.
Qed.

Lemma PUT_triple (request : Request) :
  In 400 codes -> In 404 codes -> In 500 codes ->
  triple I (PUT_handler request) E (fun r => status r = 200).
Proof.
  intros H400 H404 H500. unfold PUT_handler.
  apply triple_bind; [apply triple_dbConnect|]. intros _.
  apply triple_bind; [apply triple_request_json|]. intros body.
  destruct (negb (ObjectId_isValid (params_id request))); [now apply triple_throw|].
  apply triple_bind; [apply triple_findById|]. intros [group|];
    [|now apply triple_throw].
  apply triple_bind; [apply triple_prop|]. intros name.
  destruct (negb (truthy name)); [now apply triple_throw|].
  apply triple_bind; [apply triple_trim_method|]. intros [|c t];
    [now apply triple_throw|].
  apply triple_bind; [apply triple_prop|]. intros profiles.
  destruct profiles as [| | | | |[|p ps]|]; try now apply triple_throw.
  apply triple_bind; [apply triple_get_world|]. intros w.
  now apply triple_save_or_throw.
Qed.

Lemma DELETE_triple (request : Request) :
  In 400 codes -> In 404 codes ->
  triple I (DELETE_handler request) E (fun r => status r = 200).
Proof.
  intros H400 H404. unfold DELETE_handler.
  destruct (negb (ObjectId_isValid (params_id request))); [now apply triple_throw|].
  apply triple_bind; [apply triple_dbConnect|]. intros _.
  assert (triple I
            (found <- findByIdAndDelete (params_id request) ;;
             match found with
             | None =>
                 throw (ThrowAppError (createError.notFound (Some (lit "Group not found"))))
             | Some group =>
                 deleteTransactionsOfGroup (params_id request) ;;
                 deleteBudgetsOfGroup (params_id request) ;;
                 ret (NextResponse_json
                        (VObj [(lit "success", VBool true);
                               (lit "message", VLit "Group deleted successfully")])
                        200)
             end) E (fun r => status r = 200)) as Hwhole.
  { apply triple_bind; [apply triple_findByIdAndDelete|]. intros [group|];
      [|now apply triple_throw].
    apply triple_bind; [apply triple_deleteTransactionsOfGroup|]. intros _.
    apply triple_bind; [apply triple_deleteBudgetsOfGroup|]. intros _.
    now apply triple_ret. }
  destruct (profileId request) as [[|c pid]|]; [exact Hwhole| |exact Hwhole].
  destruct (negb (ObjectId_isValid (c :: pid))); [now apply triple_throw|].
  apply triple_bind; [apply triple_findById|]. intros [group|];
    [|now apply triple_throw].
  destruct (length (UserGroup.profiles group) <=? 1)%nat; [now apply triple_throw|].
  apply triple_bind; [apply triple_deleteTransactionsOfProfile|]. intros _.
  apply triple_bind; [apply triple_deleteBudgetsOfProfile|]. intros _.
  apply triple_bind; [apply triple_save_plain|]. intros _.
  now apply triple_ret.
Qed.

End TripleRules.

Section HandlerRuns.
Import JS Http ErrorHandler Db Routes Spec Checks Runs.
Context `{Mongoose}.

Lemma handleApiError_status (env : Env) (codes : list Z) (e : thrown) :
  throws_within codes e -> In (status (handleApiError env e)) (500 :: codes).
Proof.
  destruct e as [a|m|v]; cbn [throws_within]; intros He;
    unfold handleApiError; cbn [status NextResponse_json]; [now right | now left..].
Qed.

Lemma wrapped_status (env : Env) (h : Request -> M World Response) (request : Request)
    (codes : list Z) (ok : Z) (w : World) :
  triple (fun _ => True) (h request) (throws_within codes) (fun r => status r = ok) ->
  In (status (snd (withErrorHandling env h request w))) (ok :: 500 :: codes).
Proof.
  intros Ht. rewrite withErrorHandling_snd. destruct (Ht w Logic.I) as [_ Hr].
  destruct (snd (h request w)) as [e|r].
  - right. now apply handleApiError_status.
  - left. now rewrite Hr.
Qed.

(** X16: the status codes of the API.  Whatever the request and the state
    of the database, GET answers 200 or 500, POST 201, 400 or 500, and PUT
    and DELETE 200, 400, 404 or 500. *)
Theorem handler_status_codes (env : Env) (request : Request) (w : World) :
  In (status (snd (GET env request w))) [200; 500]
  /\ In (status (snd (POST env request w))) [201; 400; 500]
  /\ In (status (snd (PUT env request w))) [200; 400; 404; 500]
  /\ In (status (snd (DELETE env request w))) [200; 400; 404; 500].
Proof.
  split; [|split; [|split]].
  - apply (wrapped_status env GET_handler request [] 200). now apply GET_triple.
  - assert (In (status (snd (POST env request w))) [201; 500; 400; 500]) as Hin.
    { apply (wrapped_status env POST_handler request [400; 500] 201).
      apply POST_triple; cbn; auto. }
    cbn in *. tauto.
  - assert (In (status (snd (PUT env request w))) [200; 500; 400; 404; 500]) as Hin.
    { apply (wrapped_status env PUT_handler request [400; 404; 500] 200).
      apply PUT_triple; cbn; auto. }
    cbn in *. tauto.
  - assert (In (status (snd (DELETE env request w))) [200; 500; 400; 404]) as Hin.
    { apply (wrapped_status env DELETE_handler request [400; 404] 200).
      apply DELETE_triple; cbn; auto. }
    cbn in *. tauto.
Qed.

(** The invariant of a process in front of a reachable database. *)
Lemma connects_log (o : Op) (w : World) :
  is_connect o = false -> connects (log o w) = connects w.
Proof.
  intros Ho. unfold connects. cbn [ops log].
  rewrite List.filter_app, length_app. cbn. rewrite Ho. cbn. lia.
Qed.

Lemma steady_dbConnect (n : nat) (b : bool) (w : World) :
  connectable w = true /\ pending w = n /\ (b = true -> cached_conn w = true) ->
  connectable (fst (dbConnect w)) = true
  /\ pending (fst (dbConnect w)) = n
  /\ (b = true -> cached_conn (fst (dbConnect w)) = true).
Proof.
  intros (Hc & Hp & Hb). unfold dbConnect, connectable, pending, connects in *.
  destruct (cached_conn w) eqn:Ec; [cbn [fst]; rewrite Ec; auto|].
  cbn [orb] in Hc. cbn [unreachable log].
  destruct (unreachable w); [discriminate|].
  cbn [fst set_conn log cached_conn unreachable ops orb].
  split; [reflexivity|]. split; [|reflexivity].
  rewrite List.filter_app, length_app. cbn. lia.
Qed.

Lemma answer_steady (env : Env) (call : Call) (n : nat) (b : bool) (w : World) :
  connectable w = true /\ pending w = n /\ (b = true -> cached_conn w = true) ->
  connectable (fst (answer env call w)) = true
  /\ pending (fst (answer env call w)) = n
  /\ (b = true -> cached_conn (fst (answer env call w)) = true).
Proof.
  set (I := fun w => connectable w = true /\ pending w = n
                     /\ (b = true -> cached_conn w = true)).
  assert (forall o w, is_connect o = false -> I w -> I (log o w)) as I_log.
  { intros o w0 Ho (Hc & Hp & Hb). unfold I, pending in *.
    rewrite (connects_log o w0 Ho). auto. }
  assert (forall l w, I w -> I (set_groups l w)) as I_groups by (intros l w0 Hw; exact Hw).
  assert (forall l w, I w -> I (set_transactions l w)) as I_transactions
      by (intros l w0 Hw; exact Hw).
  assert (forall l w, I w -> I (set_budgets l w)) as I_budgets
      by (intros l w0 Hw; exact Hw).
  assert (forall w, I w -> I (fst (dbConnect w))) as I_dbConnect
      by (intros w0; apply steady_dbConnect).
  intros Hw. change (I (fst (answer env call w))).
  destruct call as [request|request|request|request]; cbn [answer];
    unfold GET, POST, PUT, DELETE; rewrite withErrorHandling_fst.
  - apply (GET_triple I [] I_log I_dbConnect request w Hw).
  - apply (POST_triple I [400; 500] I_log I_groups I_dbConnect request); cbn; auto.
  - apply (PUT_triple I [400; 404; 500] I_log I_groups I_dbConnect request); cbn; auto.
  - apply (DELETE_triple I [400; 404] I_log I_groups I_transactions I_budgets
             I_dbConnect request); cbn; auto.
Qed.

Lemma serve_steady (env : Env) (calls : list Call) (n : nat) (b : bool) (w : World) :
  connectable w = true /\ pending w = n /\ (b = true -> cached_conn w = true) ->
  connectable (serve env calls w) = true
  /\ pending (serve env calls w) = n
  /\ (b = true -> cached_conn (serve env calls w) = true).
Proof.
  revert w. induction calls as [|call calls IH]; intros w Hw; [exact Hw|].
  cbn [serve]. apply IH. now apply answer_steady.
Qed.

(** X17: in front of a reachable database a process calls
    [mongoose.connect] once at most, however many requests the four
    handlers serve: never again once a connection is cached, and one call
    leaves a cached connection. *)
Theorem connects_once (env : Env) (calls : list Call) (w : World) :
  connectable w = true ->
  (connects (serve env calls w) <= connects w + 1)%nat
  /\ (cached_conn w = true ->
      connects (serve env calls w) = connects w
      /\ cached_conn (serve env calls w) = true)
  /\ (connects (serve env calls w) = (connects w + 1)%nat ->
      cached_conn (serve env calls w) = true).
Proof.
  intros Hc.
  destruct (serve_steady env calls (pending w) (cached_conn w) w) as (_ & Hp & Hb);
    [auto|].
  unfold pending in *.
  destruct (cached_conn w), (cached_conn (serve env calls w));
    repeat split; try intros; try lia; try (specialize (Hb eq_refl); discriminate).
Qed.

Lemma answer_unreachable (env : Env) (call : Call) (m : jsstring) (w : World) :
  cached_conn w = false -> unreachable w = Some m -> reaches_db call = true ->
  answer env call w = (log Connect w, handleApiError env (ThrowError m)).
Proof.
  intros Hc Hu Hr.
  assert (dbConnect w = (log Connect w, inl (ThrowError m))) as Hdb.
  { unfold dbConnect. rewrite Hc. cbn [unreachable log]. now rewrite Hu. }
  destruct call as [request|request|request|request]; cbn [answer reaches_db] in *;
    unfold GET, POST, PUT, DELETE, withErrorHandling,
      GET_handler, POST_handler, PUT_handler, DELETE_handler;
    rewrite ?Hr; cbn [negb]; unfold bind at 1; now rewrite Hdb.
Qed.

(** X18: a failed connection is not cached.  While the database cannot be
    reached, every request that gets as far as [dbConnect] calls
    [mongoose.connect] again, is answered 500 SERVER_ERROR, and leaves
    the cache empty and the collections alone. *)
Theorem failed_connection_is_retried (env : Env) (calls : list Call) (m : jsstring)
    (w : World) :
  cached_conn w = false -> unreachable w = Some m ->
  forallb reaches_db calls = true ->
  connects (serve env calls w) = (connects w + length calls)%nat
  /\ cached_conn (serve env calls w) = false
  /\ same_data w (serve env calls w)
  /\ (forall call, reaches_db call = true ->
      status (snd (answer env call (serve env calls w))) = 500
      /\ exists m', body (snd (answer env call (serve env calls w)))
                    = error_envelope SERVER m' None).
Proof.
  revert w. induction calls as [|call calls IH]; intros w Hc Hu Hall.
  - cbn [serve length]. split; [lia|]. split; [exact Hc|].
    split; [apply same_data_refl|]. intros call Hr.
    rewrite (answer_unreachable env call m w Hc Hu Hr). cbn [snd].
    unfold handleApiError, error_envelope. cbn [status body NextResponse_json].
    split; [reflexivity|]. rewrite andb_false_r. eexists. reflexivity.
  - cbn [forallb] in Hall. apply andb_prop in Hall as [Hr Hall].
    cbn [serve length]. rewrite (answer_unreachable env call m w Hc Hu Hr). cbn [fst].
    destruct (IH (log Connect w) Hc Hu Hall) as (Hn & Hcc & Hsame & Hresp).
    rewrite Hn. unfold connects at 1. cbn [ops log].
    rewrite List.filter_app, length_app. cbn [List.filter is_connect length].
    split; [unfold connects; lia|]. split; [exact Hcc|]. split; [exact Hsame|].
    exact Hresp.
Qed.

End HandlerRuns.

Section SanitizerGrowth.
Import JS Security Growth.

Lemma surplus_app (a b : jsstring) : surplus (a ++ b) = (surplus a + surplus b)%nat.
Proof. unfold surplus. rewrite !count_app. lia. Qed.

Lemma occurrences_one (c x : N) :
  occurrences c [x] = if (c =? x)%N then 1%nat else 0%nat.
Proof. unfold occurrences. cbn. now destruct (c =? x)%N. Qed.

Lemma surplus_plain (c : N) : special c = false -> surplus [c] = 0%nat.
Proof.
  unfold special, surplus. intros H. rewrite !occurrences_one.
  repeat (apply orb_false_elim in H as [H ?]).
  repeat match goal with
         | E : (_ =? _)%N = false |- _ => rewrite N.eqb_sym in E; rewrite E; clear E
         end.
  reflexivity.
Qed.

Lemma escape_char_length (c : N) : length (escape_char c) = S (surplus [c]).
Proof.
  by_special c H; try reflexivity.
  now rewrite escape_char_plain, surplus_plain.
Qed.

Lemma surplus_one_le (c : N) : (surplus [c] <= 7)%nat.
Proof.
  by_special c H; try (vm_compute; lia). rewrite surplus_plain by exact H. lia.
Qed.

Lemma escape_length (s : jsstring) :
  length (flat_map escape_char s) = (length s + surplus s)%nat.
Proof.
  induction s as [|c s IH]; [reflexivity|].
  cbn [flat_map]. change (c :: s) with ([c] ++ s).
  rewrite length_app, surplus_app, length_app, escape_char_length, IH. cbn. lia.
Qed.

Lemma surplus_le (s : jsstring) : (surplus s <= 7 * length s)%nat.
Proof.
  induction s as [|c s IH]; [cbn; lia|].
  change (c :: s) with ([c] ++ s). rewrite surplus_app, length_app.
  pose proof (surplus_one_le c). cbn [length]. lia.
Qed.

Lemma surplus_trim (s : jsstring) : surplus (trim s) = surplus s.
Proof. unfold surplus. now rewrite !count_trim by reflexivity. Qed.

Lemma length_trim (s : jsstring) : (length (trim s) <= length s)%nat.
Proof.
  destruct (trim_split s) as [w1 [w2 [Hs _]]]. rewrite Hs at 2.
  rewrite !length_app. lia.
Qed.

(** X19: the length of a sanitized string.  [sanitizeString s] has the
    length of the trimmed input plus seven code units for each
    less-than and greater-than sign, four for each ampersand and five for
    each quote, apostrophe and slash of [s]; so it is never shorter than
    the trimmed input and never longer than eight times the input. *)
Theorem sanitizeString_length (s : jsstring) :
  length (sanitizeString s) = (length (trim s) + surplus s)%nat
  /\ (length (trim s) <= length (sanitizeString s))%nat
  /\ (length (sanitizeString s) <= 8 * length (trim s))%nat
  /\ (length (sanitizeString s) <= 8 * length s)%nat.
Proof.
  rewrite sanitizeString_trim_first, escape_length, surplus_trim.
  pose proof (surplus_le (trim s)) as Hle. rewrite surplus_trim in Hle.
  pose proof (length_trim s). repeat split; lia.
Qed.

(** X20: escaping cannot be undone.  Because the ampersand pass runs
    after the passes for the less-than and greater-than signs, a
    less-than sign and the text [&lt;] in its place give the same
    output, and so do a greater-than sign and [&gt;]: two different
    inputs, one output. *)
Theorem sanitizeString_conflates (a b : jsstring) :
  sanitizeString (a ++ LT :: b) = sanitizeString (a ++ lit "&lt;" ++ b)
  /\ sanitizeString (a ++ GT :: b) = sanitizeString (a ++ lit "&gt;" ++ b)
  /\ a ++ LT :: b <> a ++ lit "&lt;" ++ b
  /\ a ++ GT :: b <> a ++ lit "&gt;" ++ b.
Proof.
  rewrite !sanitizeString_escape, !flat_map_app.
  repeat split; try (intros E; apply app_inv_head in E; discriminate E).
Qed.

End SanitizerGrowth.

Section SanitizerReach.
Import JS Security Growth.

(** A string reached by a path of property keys, none of them
    [__proto__], is reached sanitized by the same path, whichever entry
    point handled the enclosing value. *)
Lemma path_sanitized (p : list jsstring) :
  forall x s,
    forallb settable p = true ->
    get_path x p = Some (VStr s) ->
    get_path (sanitizeField x) p = Some (VStr (sanitizeString s))
    /\ get_path (sanitizeItem x) p = Some (VStr (sanitizeString s))
    /\ (p <> [] -> get_path (sanitizeObject x) p = Some (VStr (sanitizeString s))).
Proof.
  induction p as [|k p IH]; intros x s Hp Hx.
  - cbn in Hx. injection Hx as ->. repeat split; [reflexivity..|congruence].
  - cbn [forallb] in Hp. apply andb_prop in Hp as [Hk Hp].
    cbn [get_path] in Hx. destruct (get_prop x k) as [w|] eqn:Hw; [|discriminate].
    destruct (IH w s Hp Hx) as [Hf [Hi _]].
    destruct x as [| | | | |items|fields]; try discriminate.
    + assert (get_path (sanitizeObject (VArr items)) (k :: p)
              = Some (VStr (sanitizeString s))) as Ho.
      { cbn [get_path]. now rewrite get_prop_sanitizeObject_arr, Hw. }
      repeat split; [|exact Ho|intros _; exact Ho].
      cbn [get_path]. now rewrite get_prop_sanitizeField_arr, Hw.
    + assert (get_path (sanitizeObject (VObj fields)) (k :: p)
              = Some (VStr (sanitizeString s))) as Ho.
      { cbn [get_path]. now rewrite (get_prop_sanitizeObject_obj fields k Hk), Hw. }
      repeat split; [exact Ho|exact Ho|intros _; exact Ho].
Qed.

(** X21: [sanitizeObject] reaches every string but those under
    [__proto__].  A string found in the input under a path of property
    keys, none of them [__proto__], through objects and arrays at any
    depth, is found in the output under the same path with
    [sanitizeString] applied once; a string handed to [sanitizeObject]
    itself is returned as it is; and whatever an object holds under its
    own key [__proto__] is not in the output. *)
Theorem sanitizeObject_reaches_every_string :
  (forall (x : value) (k : jsstring) (p : list jsstring) (s : jsstring),
      forallb settable (k :: p) = true ->
      get_path x (k :: p) = Some (VStr s) ->
      get_path (sanitizeObject x) (k :: p) = Some (VStr (sanitizeString s)))
  /\ (forall s : jsstring, sanitizeObject (VStr s) = VStr s)
  /\ (forall (fields : list (jsstring * value)) (p : list jsstring),
         get_path (sanitizeObject (VObj fields)) (PROTO :: p) = None).
Proof.
  split; [|split; [reflexivity|]].
  - intros x k p s Hs Hx. now apply (path_sanitized (k :: p) x s Hs Hx).
  - intros fields p. cbn [get_path].
    now rewrite (get_prop_sanitizeObject_proto fields PROTO eq_refl).
Qed.

Lemma keys_index_from {A B} (i : nat) (l : list A) (l' : list B) :
  length l = length l' ->
  List.map fst (index_from i l) = List.map fst (index_from i l').
Proof.
  revert i l'. induction l as [|x l IH]; intros i [|y l'] Hlen; try discriminate;
    [reflexivity|].
  cbn. f_equal. apply IH. now injection Hlen.
Qed.

Lemma length_index_from {A} (i : nat) (l : list A) : length (index_from i l) = length l.
Proof. revert i. induction l as [|x l IH]; intros i; cbn; [reflexivity | now rewrite IH]. Qed.

Lemma keys_settable {A} (l : list (jsstring * A)) :
  List.map fst (List.filter (fun kv => settable (fst kv)) l)
  = List.filter settable (List.map fst l).
Proof.
  induction l as [|[k v] l IH]; [reflexivity|].
  cbn [List.filter List.map fst]. destruct (settable k); cbn [List.map]; now rewrite IH.
Qed.

(** X22: the shape of the output of [sanitizeObject].  The keys of an
    object other than [__proto__], and the indices of an array, come out
    in the same order, and [__proto__] is never a key of the output; the
    output is never an array: an array handed to [sanitizeObject] comes
    back as an object with the indices as keys; an array stored in a
    field (under a key other than [__proto__]) stays an array of the same
    length, while an array that is an item of such an array is returned
    as an object. *)
Theorem sanitizeObject_shape :
  (forall x : value, keys (sanitizeObject x) = List.filter settable (keys x))
  /\ (forall x : value, ~ In PROTO (keys (sanitizeObject x)))
  /\ (forall items : list value, keys (sanitizeObject (VArr items)) = keys (VArr items))
  /\ (forall x : value, is_array (sanitizeObject x) = false)
  /\ (forall (x : value) (k : jsstring) (items : list value),
         settable k = true ->
         get_prop x k = Some (VArr items) ->
         exists items',
           get_prop (sanitizeObject x) k = Some (VArr items')
           /\ length items' = length items)
  /\ (forall (x : value) (k j : jsstring) (items inner : list value),
         settable k = true ->
         get_prop x k = Some (VArr items) ->
         get_prop (VArr items) j = Some (VArr inner) ->
         exists fields,
           get_path (sanitizeObject x) [k; j] = Some (VObj fields)
           /\ length fields = length inner).
Proof.
  assert (forall x k v, settable k = true -> get_prop x k = Some v ->
            get_prop (sanitizeObject x) k = Some (sanitizeField v)) as Hprop.
  { intros x k v Hk Hv. destruct x as [| | | | |items|fields]; try discriminate.
    - now rewrite get_prop_sanitizeObject_arr, Hv.
    - now rewrite (get_prop_sanitizeObject_obj fields k Hk), Hv. }
  assert (forall items : list value,
             keys (sanitizeObject (VArr items)) = keys (VArr items)) as Harr.
  { intros items. unfold keys. rewrite sanitizeObject_arr. cbn [Object_entries].
    apply keys_index_from. apply length_map. }
  assert (forall x : value, keys (sanitizeObject x) = List.filter settable (keys x))
    as Hkeys.
  { intros [| | | | |items|fields]; try reflexivity.
    - rewrite Harr. unfold keys. cbn [Object_entries].
      now rewrite <- keys_settable, index_from_settable.
    - unfold keys. rewrite sanitizeObject_obj. cbn [Object_entries].
      rewrite <- keys_settable, List.map_map. apply map_ext. now intros [k v]. }
  split; [exact Hkeys|]. split; [|split; [exact Harr|split; [|split]]].
  - intros x Hin. rewrite Hkeys in Hin. apply filter_In in Hin as [_ Hin].
    discriminate Hin.
  - now intros [| | | | |items|fields].
  - intros x k items Hs Hk. rewrite (Hprop x k _ Hs Hk). cbn [sanitizeField].
    eexists. split; [reflexivity | apply length_map].
  - intros x k j items inner Hs Hk Hj. cbn [get_path].
    rewrite (Hprop x k _ Hs Hk), get_prop_sanitizeField_arr, Hj.
    cbn [option_map sanitizeItem]. rewrite sanitizeObject_arr.
    eexists. split; [reflexivity|]. now rewrite length_index_from, length_map.
Qed.

End SanitizerReach.

Section FormatFacts.
Import JS Security Formats.

Lemma last_In (c : N) (s : jsstring) (d : N) : In (List.last (c :: s) d) (c :: s).
Proof.
  revert c. induction s as [|x s IH]; intros c; [now left|].
  right. exact (IH x).
Qed.

Lemma inert_fixed (s : jsstring) : forallb inert s = true -> sanitizeString s = s.
Proof.
  intros H.
  assert (forallb (fun c => negb (special c)) s = true) as Hplain.
  { rewrite forallb_forall in *. intros c Hc. specialize (H c Hc).
    unfold inert in H. now apply andb_prop in H as [H _]. }
  rewrite (sanitizeString_plain s Hplain).
  assert (trimmed s = true) as Ht.
  { destruct s as [|c s]; [reflexivity|]. rewrite forallb_forall in H.
    assert (forall x, In x (c :: s) -> is_ws x = false) as Hws.
    { intros x Hx. specialize (H x Hx). unfold inert in H.
      apply andb_prop in H as [_ H]. now apply negb_true_iff in H. }
    unfold trimmed. rewrite (Hws c) by now left. cbn [negb andb].
    apply negb_true_iff, Hws, last_In. }
  pose proof (trim_unique [] s [] eq_refl eq_refl Ht) as Hu.
  now rewrite app_nil_r in Hu.
Qed.

Lemma hex_digit_inert (c : N) : hex_digit c = true -> inert c = true.
Proof.
  unfold hex_digit, digit, inert, special, is_ws, LT, GT, AMP, QUOT, APOS, SLASH.
  intros H.
  repeat rewrite ?orb_true_iff, ?andb_true_iff, ?N.leb_le in H.
  rewrite andb_true_iff, !negb_true_iff.
  repeat rewrite ?orb_false_iff, ?andb_false_iff, ?N.eqb_neq, ?N.leb_gt.
  lia.
Qed.

Lemma digit_inert (c : N) : digit c = true -> inert c = true.
Proof. intros H. apply hex_digit_inert. unfold hex_digit. now rewrite H. Qed.

(** X23: what passes a format check of [ValidationSchemas] is not touched
    by the sanitization that follows it.  A string that matches the
    colour pattern, one that matches the date pattern, and each member of
    the two enumerations, is returned by [sanitizeString] as it is, and
    so is left in place by [sanitizeObject] under any path of property
    keys none of which is [__proto__]. *)
Theorem format_checked_values_are_kept :
  (forall s : jsstring, hex_color s = true -> sanitizeString s = s)
  /\ (forall s : jsstring, iso_date s = true -> sanitizeString s = s)
  /\ (forall s : jsstring,
         In s (group_types ++ transaction_types) -> sanitizeString s = s)
  /\ (forall (x : value) (k : jsstring) (p : list jsstring) (s : jsstring),
         forallb settable (k :: p) = true ->
         get_path x (k :: p) = Some (VStr s) ->
         hex_color s = true \/ iso_date s = true
         \/ In s (group_types ++ transaction_types) ->
         get_path (sanitizeObject x) (k :: p) = Some (VStr s)).
Proof.
  assert (forall s : jsstring, hex_color s = true -> sanitizeString s = s) as Hhex.
  { intros [|c rest] H; [discriminate|]. cbn [hex_color] in H.
    apply andb_prop in H as [H Hd]. apply andb_prop in H as [Hc _].
    apply N.eqb_eq in Hc. subst c. apply inert_fixed. cbn [forallb].
    change (inert HASH) with true. cbn [andb].
    rewrite forallb_forall in *. intros c Hc. now apply hex_digit_inert, Hd. }
  assert (forall s : jsstring, iso_date s = true -> sanitizeString s = s) as Hdate.
  { intros s H. unfold iso_date in H.
    do 10 (destruct s as [|? s]; [discriminate|]). destruct s; [|discriminate].
    apply andb_prop in H as [H H2]. apply andb_prop in H as [Hd H1].
    apply N.eqb_eq in H1, H2. subst. apply inert_fixed.
    cbn [forallb] in *. change (inert HYPHEN) with true.
    repeat match goal with
           | H : (_ && _)%bool = true |- _ => apply andb_prop in H as [? H]
           end.
    repeat match goal with
           | H : digit ?c = true |- _ => apply digit_inert in H; rewrite H; clear H
           end.
    reflexivity. }
  assert (forall s : jsstring,
             In s (group_types ++ transaction_types) -> sanitizeString s = s) as Henum.
  { intros s Hs. cbn in Hs.
    repeat (destruct Hs as [<-|Hs]; [vm_compute; reflexivity|]). contradiction. }
  split; [exact Hhex|]. split; [exact Hdate|]. split; [exact Henum|].
  intros x k p s Hp Hx Hs.
  destruct (path_sanitized (k :: p) x s Hp Hx) as (_ & _ & Ho).
  rewrite Ho by discriminate.
  destruct Hs as [Hs|[Hs|Hs]];
    [rewrite (Hhex s Hs) | rewrite (Hdate s Hs) | rewrite (Henum s Hs)]; reflexivity.
Qed.

End FormatFacts.

(** ** The further properties at sample inputs *)

Section MoreInstances.
Import JS Http ErrorHandler Db Routes Spec Checks Runs.

Lemma POST_saves_only_valid_bodies_witness :
  ops (fst (@POST Samples.mongoose Samples.dev
              (Samples.request_of [] None MoreSamples.smiths_body) Samples.empty_world))
  = [Save (@POST_document Samples.mongoose Samples.empty_world MoreSamples.smiths_body)].
Proof.
  apply (@POST_saves_only_valid_bodies Samples.mongoose Samples.dev
           (Samples.request_of [] None MoreSamples.smiths_body)
           MoreSamples.smiths_body Samples.empty_world eq_refl);
    vm_compute; reflexivity.
Defined.

Lemma POST_creates_group_witness :
  exists g,
    snd (@POST Samples.mongoose Samples.dev
           (Samples.request_of [] None MoreSamples.smiths_body) Samples.empty_world)
    = group_response g 201
    /\ UserGroup.name g = lit "Smiths".
Proof.
  assert (valid_group_body MoreSamples.smiths_body = true) as Hv
      by (vm_compute; reflexivity).
  destruct (@POST_creates_group Samples.mongoose Samples.dev
              (Samples.request_of [] None MoreSamples.smiths_body)
              MoreSamples.smiths_body Samples.empty_world eq_refl Hv eq_refl
              (fun _ _ => eq_refl)) as (g & Hr & _ & Hn & _).
  exists g. split; [exact Hr|]. rewrite Hn. vm_compute. reflexivity.
Defined.

Lemma POST_translates_save_errors_witness :
  snd (@POST MoreSamples.rejecting Samples.prod
         (Samples.request_of [] None MoreSamples.smiths_body) Samples.empty_world)
  = NextResponse_json
      (error_envelope DATABASE (lit "Failed to create user group") None) 500.
Proof.
  assert (valid_group_body MoreSamples.smiths_body = true) as Hv
      by (vm_compute; reflexivity).
  destruct (@POST_translates_save_errors MoreSamples.rejecting Samples.prod
              (Samples.request_of [] None MoreSamples.smiths_body)
              MoreSamples.smiths_body Samples.empty_world
              (OtherError (lit "write conflict") VUndefined)
              eq_refl Hv eq_refl eq_refl) as [_ Hr].
  rewrite Hr. vm_compute. reflexivity.
Defined.

Lemma PUT_replaces_name_and_profiles_witness :
  exists g,
    snd (@PUT Samples.mongoose Samples.dev
           (Samples.request_of (Samples.sample_id 0) None MoreSamples.update_body)
           Samples.world)
    = group_response g 200
    /\ UserGroup.name g = lit "Smith family"
    /\ UserGroup.type g = lit "family"
    /\ length (UserGroup.profiles g) = 1%nat.
Proof.
  assert (@find_group Samples.mongoose (Samples.sample_id 0) Samples.world = Some Samples.smiths) as Hf
      by (vm_compute; reflexivity).
  assert (valid_update_body MoreSamples.update_body = true) as Hv
      by (vm_compute; reflexivity).
  destruct (@PUT_replaces_name_and_profiles Samples.mongoose Samples.dev
              (Samples.request_of (Samples.sample_id 0) None MoreSamples.update_body)
              MoreSamples.update_body Samples.smiths Samples.world
              eq_refl eq_refl eq_refl Hf Hv (fun _ _ => eq_refl))
    as (g & Hr & _ & _ & Ht & Hn & _ & Hl & _).
  exists g. split; [exact Hr|]. rewrite Hn, Ht, Hl. repeat split; vm_compute; reflexivity.
Defined.



Lemma DELETE_group_cascades_witness :
  snd (@DELETE Samples.mongoose Samples.dev
         (Samples.request_of (Samples.sample_id 0) (Some []) VNull) Samples.world)
  = group_deleted_response
  /\ transactions
       (fst (@DELETE Samples.mongoose Samples.dev
               (Samples.request_of (Samples.sample_id 0) (Some []) VNull) Samples.world))
     = [].
Proof.
  assert (@find_group Samples.mongoose (Samples.sample_id 0) Samples.world = Some Samples.smiths) as Hf
      by (vm_compute; reflexivity).
  destruct (@DELETE_group_cascades Samples.mongoose Samples.dev
              (Samples.request_of (Samples.sample_id 0) (Some []) VNull)
              Samples.smiths Samples.world eq_refl eq_refl eq_refl Hf)
    as (Hr & _ & _ & Ht & _).
  split; [exact Hr|]. rewrite Ht. vm_compute. reflexivity.
Defined.

Lemma DELETE_profile_removes_profile_witness :
  exists g,
    snd (@DELETE Samples.mongoose Samples.dev
           (Samples.request_of (Samples.sample_id 0) (Some MoreSamples.bob_upper) VNull)
           Samples.world)
    = group_response g 200
    /\ ~ In Samples.bob (UserGroup.profiles g)
    /\ In Samples.alice (UserGroup.profiles g).
Proof.
  assert (@find_group Samples.mongoose (Samples.sample_id 0) Samples.world
          = Some Samples.smiths) as Hf by (vm_compute; reflexivity).
  destruct (@DELETE_profile_removes_profile Samples.mongoose Samples.dev
              (Samples.request_of (Samples.sample_id 0) (Some MoreSamples.bob_upper) VNull)
              _ _ Samples.smiths Samples.world
              eq_refl eq_refl eq_refl eq_refl Hf (le_n 2) (fun _ _ => eq_refl))
    as (g & Hr & _ & _ & _ & _ & Hp & _).
  exists g. split; [exact Hr|]. split.
  - intros Hin. apply Hp in Hin as [_ Hne]. apply Hne. vm_compute. reflexivity.
  - apply Hp. split; [now left|]. intros E. vm_compute in E. discriminate E.
Defined.

(** PUT of two Profiles with one [_id], then DELETE of that [profileId]:
    both answer 200, and the Smiths are left without a Profile. *)
Lemma DELETE_can_empty_a_group_witness :
  groups_nonempty Samples.world
  /\ status
       (snd (@PUT Samples.mongoose Samples.dev
               (Samples.request_of (Samples.sample_id 0) None MoreSamples.twins_body)
               Samples.world)) = 200
  /\ status
       (snd (@DELETE Samples.mongoose Samples.dev
               (Samples.request_of (Samples.sample_id 0) (Some (Samples.sample_id 77))
                  VNull)
               (fst (@PUT Samples.mongoose Samples.dev
                       (Samples.request_of (Samples.sample_id 0) None
                          MoreSamples.twins_body)
                       Samples.world)))) = 200
  /\ List.map (fun g => length (UserGroup.profiles g))
       (groups
          (fst (@DELETE Samples.mongoose Samples.dev
                  (Samples.request_of (Samples.sample_id 0) (Some (Samples.sample_id 77))
                     VNull)
                  (fst (@PUT Samples.mongoose Samples.dev
                          (Samples.request_of (Samples.sample_id 0) None
                             MoreSamples.twins_body)
                          Samples.world)))))
     = [0; 1]%nat.
Proof.
  assert (@find_group Samples.mongoose (Samples.sample_id 0) Samples.world
          = Some Samples.smiths) as Hf by (vm_compute; reflexivity).
  assert (valid_update_body MoreSamples.twins_body = true) as Hv
      by (vm_compute; reflexivity).
  assert (forall w' i item,
             In item (items_of (field MoreSamples.twins_body "profiles")) ->
             Profile._id (@castProfile Samples.mongoose w' i item)
             = @ObjectId_of Samples.mongoose (Samples.sample_id 77)) as Hcast.
  { intros w' i item Hin. vm_compute in Hin.
    destruct Hin as [<-|[<-|[]]]; vm_compute; reflexivity. }
  destruct (@DELETE_can_empty_a_group Samples.mongoose Samples.dev
              (Samples.request_of (Samples.sample_id 0) None MoreSamples.twins_body)
              (Samples.request_of (Samples.sample_id 0) (Some (Samples.sample_id 77)) VNull)
              MoreSamples.twins_body _ _ Samples.smiths Samples.world
              eq_refl eq_refl eq_refl eq_refl eq_refl eq_refl Hf Hv (le_n 2) Hcast
              (fun _ _ => eq_refl))
    as (H1 & H2 & _ & _).
  split; [repeat constructor|]. split; [exact H1|]. split; [exact H2|].
  vm_compute. reflexivity.
Defined.

Lemma DELETE_profile_is_not_atomic_witness :
  status
    (snd (@DELETE MoreSamples.rejecting Samples.dev
            (Samples.request_of (Samples.sample_id 0) (Some (Samples.sample_id 2)) VNull)
            Samples.world)) = 500
  /\ groups
       (fst (@DELETE MoreSamples.rejecting Samples.dev
               (Samples.request_of (Samples.sample_id 0) (Some (Samples.sample_id 2)) VNull)
               Samples.world))
     = [Samples.smiths; Samples.solo]
  /\ transactions
       (fst (@DELETE MoreSamples.rejecting Samples.dev
               (Samples.request_of (Samples.sample_id 0) (Some (Samples.sample_id 2)) VNull)
               Samples.world))
     = [Samples.owned 1 0; Samples.owned 7 0].
Proof.
  assert (@find_group MoreSamples.rejecting (Samples.sample_id 0) Samples.world = Some Samples.smiths) as Hf
      by (vm_compute; reflexivity).
  destruct (@DELETE_profile_is_not_atomic MoreSamples.rejecting Samples.dev
              (Samples.request_of (Samples.sample_id 0) (Some (Samples.sample_id 2)) VNull)
              _ _ Samples.smiths Samples.world
              eq_refl eq_refl eq_refl eq_refl Hf (le_n 2)
              (fun _ _ => ex_intro _ _ eq_refl))
    as (Hs & _ & Hg & Ht & _).
  split; [exact Hs|]. split; [exact Hg|]. rewrite Ht. vm_compute. reflexivity.
Defined.

Lemma connects_once_witness :
  connects
    (@serve Samples.mongoose Samples.dev
       [CallGET (Samples.request_of [] None VNull);
        CallPOST (Samples.request_of [] None MoreSamples.smiths_body);
        CallDELETE (Samples.request_of (Samples.sample_id 0) None VNull);
        CallGET (Samples.request_of [] None VNull)]
       Samples.world) = 1%nat.
Proof.
  destruct (@connects_once Samples.mongoose Samples.dev
              [CallGET (Samples.request_of [] None VNull);
               CallPOST (Samples.request_of [] None MoreSamples.smiths_body);
               CallDELETE (Samples.request_of (Samples.sample_id 0) None VNull);
               CallGET (Samples.request_of [] None VNull)]
              Samples.world eq_refl) as (Hle & _ & _).
  assert (connects Samples.world = 0%nat) as H0 by reflexivity.
  rewrite H0 in Hle. apply Nat.le_antisymm; [exact Hle|].
  vm_compute. apply le_n.
Defined.

Lemma failed_connection_is_retried_witness :
  connects
    (@serve Samples.mongoose Samples.dev
       [CallGET (Samples.request_of [] None VNull);
        CallPUT (Samples.request_of (Samples.sample_id 0) None MoreSamples.update_body)]
       Samples.world_down) = 2%nat.
Proof.
  destruct (@failed_connection_is_retried Samples.mongoose Samples.dev
              [CallGET (Samples.request_of [] None VNull);
               CallPUT (Samples.request_of (Samples.sample_id 0) None
                          MoreSamples.update_body)]
              (lit "connect ECONNREFUSED") Samples.world_down eq_refl eq_refl eq_refl)
    as (Hn & _).
  exact Hn.
Defined.

End MoreInstances.
